(** * Schema designer: the SQL text generator, table deletion, request
      validation and the table routes, embedded from the JavaScript sources.

    Part I holds the definitions, one module per source file; Part II the
    lemmas and theorems about them; Part III further properties of the
    routes, the API client, the table editor and the store. *)

From Stdlib Require Import String Ascii List Bool Arith Lia DecimalString Permutation.
From Stdlib Require ZArith QArith.
Import ListNotations.
Open Scope string_scope.

(* ================================================================== *)
(** * Part I. Definitions *)
(* ================================================================== *)

(** ** JavaScript string and array primitives used by the sources *)
Module JS.

(** The one-character string written "\n" in the sources. *)
Definition nl : string := String (ascii_of_nat 10) EmptyString.

(** [Array.prototype.join]. *)
Definition join (sep : string) (parts : list string) : string :=
  String.concat sep parts.

(** [String.prototype.startsWith]. *)
Fixpoint startsWith (hay needle : string) {struct needle} : bool :=
  match needle, hay with
  | EmptyString, _ => true
  | String _ _, EmptyString => false
  | String a needle', String b hay' =>
      Ascii.eqb a b && startsWith hay' needle'
  end.

(** [String.prototype.includes]. *)
Fixpoint includes (hay needle : string) : bool :=
  startsWith hay needle ||
  match hay with
  | EmptyString => false
  | String _ hay' => includes hay' needle
  end.

(** [String.prototype.length] of a text held as its UTF-8 bytes: the
    number of UTF-16 code units of its characters.  A byte below 128 is a
    character of one unit; a byte from 128 to 191 continues a character and
    counts nothing; a byte from 192 to 239 starts a character of one unit,
    a byte from 240 a character of two units. *)
Definition utf16Units (c : ascii) : nat :=
  let n := nat_of_ascii c in
  if (n <? 128)%nat then 1
  else if (n <? 192)%nat then 0
  else if (n <? 240)%nat then 1
  else 2.

Fixpoint utf16Length (s : string) : nat :=
  match s with
  | EmptyString => 0
  | String c rest => utf16Units c + utf16Length rest
  end.

(** [String.prototype.toLowerCase] on ASCII letters. *)
Definition lowerChar (c : ascii) : ascii :=
  let n := nat_of_ascii c in
  if ((65 <=? n)%nat && (n <=? 90)%nat)%bool then ascii_of_nat (n + 32) else c.

Fixpoint toLowerCase (s : string) : string :=
  match s with
  | EmptyString => EmptyString
  | String c s' => String (lowerChar c) (toLowerCase s')
  end.

End JS.

(** ** The browser application: class [SchemaDesigner] *)
Module Designer.
Import JS.

(** A column object.  A property the object does not carry reads as
    [undefined], which the generator's tests treat as [false]. *)
Module Column.
Record t := mk {
  name : string;
  type : string;
  primaryKey : bool;
  required : bool;
  unique : bool
}.
End Column.

(** A table object; its canvas position is layout only and is read by none
    of the functions below. *)
Module Table.
Record t := mk {
  id : string;
  name : string;
  columns : list Column.t
}.
End Table.

(** A relationship object.  [sourceTable] is the referenced table and
    [targetTable] the table that holds the foreign key.  [onDelete] and
    [onUpdate] are optional properties: the application's own data has none,
    an imported schema may carry them. *)
Module Relationship.
Record t := mk {
  id : string;
  sourceTable : string;
  sourceColumn : string;
  targetTable : string;
  targetColumn : string;
  type : string;
  onDelete : option string;
  onUpdate : option string
}.
End Relationship.

Module Schema.
Record t := mk {
  id : string;
  name : string;
  tables : list Table.t;
  relationships : list Relationship.t
}.
End Schema.

(** The part of a [SchemaDesigner] instance the functions below read or
    write; [sqlOutput] is the value of the [sqlOutput] text area. *)
Record State := mkState {
  currentSchema : Schema.t;
  selectedTable : option Table.t;
  editingTable : option Table.t;
  sqlOutput : string
}.

(** The [def] string built by the callback of [table.columns.map]. *)
Definition columnDefinition (column : Column.t) : string :=
  let def := "  " ++ Column.name column ++ " " ++ Column.type column in
  let def := if Column.primaryKey column then def ++ " PRIMARY KEY" else def in
  let def := if Column.required column && negb (Column.primaryKey column)
             then def ++ " NOT NULL" else def in
  def.

(** One iteration of [tables.forEach]: what it makes of [sql]. *)
Definition emitTable (sql : string) (table : Table.t) : string :=
  let sql := sql ++ ("CREATE TABLE " ++ Table.name table ++ " (" ++ nl) in
  let columnDefinitions := map columnDefinition (Table.columns table) in
  let sql := sql ++ join ("," ++ nl) columnDefinitions in
  let sql := sql ++ (nl ++ ");" ++ nl ++ nl) in
  sql.

(** One iteration of [relationships.forEach]. *)
Definition emitRelationship (sql : string) (rel : Relationship.t) : string :=
  let sql := sql ++ ("ALTER TABLE " ++ Relationship.targetTable rel
                     ++ " ADD CONSTRAINT fk_" ++ Relationship.targetTable rel
                     ++ "_" ++ Relationship.sourceTable rel ++ " ") in
  let sql := sql ++ ("FOREIGN KEY (" ++ Relationship.targetColumn rel
                     ++ ") REFERENCES " ++ Relationship.sourceTable rel
                     ++ "(" ++ Relationship.sourceColumn rel ++ ");" ++ nl ++ nl) in
  sql.

(** The local [sql] of [generateSQL] when the function reaches its last
    line. *)
Definition sqlText (schema : Schema.t) : string :=
  let sql := "" in
  let sql := fold_left emitTable (Schema.tables schema) sql in
  let sql := fold_left emitRelationship (Schema.relationships schema) sql in
  sql.

(** [generateSQL()]: the text goes to the [sqlOutput] element. *)
Definition generateSQL (d : State) : State :=
  {| currentSchema := currentSchema d;
     selectedTable := selectedTable d;
     editingTable := editingTable d;
     sqlOutput := sqlText (currentSchema d) |}.

(** [deleteTable(tableId)]; [confirmed] is the answer of the [confirm]
    dialog.  [!==] on two strings is string inequality.  [redrawn] tells
    that [renderTables()], [updateSchemaTree()] and [updateCanvasOverlay()],
    which rebuild the page from the schema, return; when one of them throws,
    [generateSQL()] is not reached. *)
Definition deleteTable (confirmed redrawn : bool) (tableId : string) (d : State) : State :=
  if confirmed then
    let schema := currentSchema d in
    let tables' :=
      filter (fun t => negb (Table.id t =? tableId)) (Schema.tables schema) in
    let relationships' :=
      filter (fun r => negb (Relationship.sourceTable r =? tableId)
                       && negb (Relationship.targetTable r =? tableId))
             (Schema.relationships schema) in
    let d' :=
      {| currentSchema :=
           {| Schema.id := Schema.id schema;
              Schema.name := Schema.name schema;
              Schema.tables := tables';
              Schema.relationships := relationships' |};
         selectedTable := selectedTable d;
         editingTable := editingTable d;
         sqlOutput := sqlOutput d |} in
    if redrawn then generateSQL d' else d'
  else d.

(** The relationship with other ON DELETE and ON UPDATE properties. *)
Definition withActions (rel : Relationship.t) (onDelete onUpdate : option string)
  : Relationship.t :=
  Relationship.mk (Relationship.id rel) (Relationship.sourceTable rel)
                  (Relationship.sourceColumn rel) (Relationship.targetTable rel)
                  (Relationship.targetColumn rel) (Relationship.type rel)
                  onDelete onUpdate.

(** *** Reading the output back *)

(** The text one table contributes, and the text one relationship
    contributes. *)
Definition createStatement (table : Table.t) : string := emitTable "" table.
Definition alterStatement (rel : Relationship.t) : string := emitRelationship "" rel.

(** The statements of the output, in emission order. *)
Definition statements (schema : Schema.t) : list string :=
  (map createStatement (Schema.tables schema)
   ++ map alterStatement (Schema.relationships schema))%list.

Definition isCreateTable (stmt : string) : bool := startsWith stmt "CREATE TABLE ".
Definition isAlterTable (stmt : string) : bool := startsWith stmt "ALTER TABLE ".

(** The constraint name a relationship's statement uses: the text between
    [ADD CONSTRAINT] and the following blank. *)
Definition constraintName (rel : Relationship.t) : string :=
  "fk_" ++ Relationship.targetTable rel ++ "_" ++ Relationship.sourceTable rel.

(** The strings of a table that reach the output unchanged. *)
Definition tableWords (table : Table.t) : list string :=
  Table.name table ::
  flat_map (fun c => [Column.name c; Column.type c]) (Table.columns table).

(** No string of the table spells a foreign-key keyword. *)
Definition noForeignKeyWords (table : Table.t) : bool :=
  forallb (fun w => negb (includes w "FOREIGN") && negb (includes w "REFERENCES"))
          (tableWords table).

(** The schema has a table of this name: the table that [generateSQL]
    writes the name of, and that [renderRelationships] looks up with
    [tables.find(t => t.name === rel.sourceTable)]. *)
Definition tableNamed (schema : Schema.t) (name : string) : bool :=
  existsb (fun t => Table.name t =? name) (Schema.tables schema).

(** Every relationship names tables of the schema. *)
Definition noDanglingRelationship (schema : Schema.t) : bool :=
  forallb (fun r => tableNamed schema (Relationship.sourceTable r)
                    && tableNamed schema (Relationship.targetTable r))
          (Schema.relationships schema).

(** *** Sample data *)

Definition col (n ty : string) (pk req uq : bool) : Column.t :=
  Column.mk n ty pk req uq.

Definition usersTable : Table.t :=
  Table.mk "users" "users"
    [ col "id" "INTEGER" true true false;
      col "email" "VARCHAR(255)" false true true ].

Definition ordersTable : Table.t :=
  Table.mk "orders" "orders"
    [ col "id" "INTEGER" true true false;
      col "user_id" "INTEGER" false true false;
      col "approver_id" "INTEGER" false false false ].

(** One table [users]: scenario 1. *)
Definition usersSchema : Schema.t :=
  Schema.mk "s1" "Users" [usersTable] [].

Definition userOrders : Relationship.t :=
  Relationship.mk "user_orders" "users" "id" "orders" "user_id" "one-to-many"
                  (Some "CASCADE") (Some "CASCADE").

(** [users] referenced by [orders]: scenario 2. *)
Definition ordersSchema : Schema.t :=
  Schema.mk "s2" "Shop" [usersTable; ordersTable] [userOrders].

(** The same two tables under ids that are not their names, as
    [addTable] gives them ([table_] and a number). *)
Definition usersNumbered : Table.t :=
  Table.mk "table_1" "users" (Table.columns usersTable).

Definition ordersNumbered : Table.t :=
  Table.mk "table_2" "orders" (Table.columns ordersTable).

Definition numberedSchema : Schema.t :=
  Schema.mk "s5" "Shop" [usersNumbered; ordersNumbered] [userOrders].

(** Two relationships between the same pair of tables. *)
Definition approverOrders : Relationship.t :=
  Relationship.mk "approver_orders" "users" "id" "orders" "approver_id" "one-to-many"
                  None None.

Definition twoLinksSchema : Schema.t :=
  Schema.mk "s3" "Shop" [usersTable; ordersTable] [userOrders; approverOrders].

(** Tables [A] and [B] that reference each other: scenario 3. *)
Definition cycleSchema : Schema.t :=
  Schema.mk "s4" "Cycle"
    [ Table.mk "A" "A" [col "id" "INTEGER" true true false;
                        col "b_id" "INTEGER" false false false];
      Table.mk "B" "B" [col "id" "INTEGER" true true false;
                        col "a_id" "INTEGER" false false false] ]
    [ Relationship.mk "a_b" "A" "id" "B" "a_id" "one-to-one" None None;
      Relationship.mk "b_a" "B" "id" "A" "b_id" "one-to-one" None None ].

End Designer.

(** ** The client store: [useSchemaStore] *)
Module Store.

(** Table and relationship objects as the API returns them; the store's
    [removeTable] reads only their ids. *)
Record Table := mkTable {
  table_id : string;
  table_name : string
}.

Record Relationship := mkRelationship {
  relationship_id : string;
  sourceTableId : string;
  sourceColumnId : string;
  targetTableId : string;
  targetColumnId : string
}.

Record Schema := mkSchema {
  schema_id : string;
  tables : list Table;
  relationships : list Relationship
}.

Record State := mkState {
  currentSchema : option Schema;
  selectedTable : option Table;
  editingTable : option Table
}.

(** [x?.id === tableId]. *)
Definition hasId (x : option Table) (tableId : string) : bool :=
  match x with
  | Some t => table_id t =? tableId
  | None => false
  end.

(** [removeTable(tableId)]. *)
Definition removeTable (tableId : string) (state : State) : State :=
  let schema' :=
    match currentSchema state with
    | Some schema =>
        Some {| schema_id := schema_id schema;
                tables := filter (fun t => negb (table_id t =? tableId)) (tables schema);
                relationships :=
                  filter (fun r => negb (sourceTableId r =? tableId)
                                   && negb (targetTableId r =? tableId))
                         (relationships schema) |}
    | None => None
    end in
  {| currentSchema := schema';
     selectedTable := if hasId (selectedTable state) tableId then None
                      else selectedTable state;
     editingTable := if hasId (editingTable state) tableId then None
                     else editingTable state |}.

Definition noDanglingRelationship (schema : Schema) : bool :=
  forallb (fun r => existsb (fun t => table_id t =? sourceTableId r) (tables schema)
                    && existsb (fun t => table_id t =? targetTableId r) (tables schema))
          (relationships schema).

End Store.

(** ** Request validation middleware: [validate] *)
Module Validation.

(** The names under which the file registers its Joi schemas. *)
Definition schemaNames : list string :=
  [ "userRegister"; "userLogin"; "schema"; "schemaUpdate"; "table"; "column";
    "relationship"; "template"; "aiChat"; "collaboration"; "listQuery";
    "sqlExport"; "schemaExport" ].

Inductive Source := Body | Query.

(** The options object handed to Joi. *)
Record JoiOptions := mkJoiOptions {
  abortEarly : bool;
  stripUnknown : bool;
  convert : bool
}.

Section Joi.
(** The request data and the Joi schema objects. *)
Variables (Data JoiSchema : Type).

(** One entry of the [details] of a Joi [ValidationError]. *)
Record Detail := mkDetail {
  path : list string;
  message : string;
  contextValue : option Data
}.

(** Joi, taken by its documented contract: [violations] lists the rules
    the data breaks, one detail each, in Joi's order of traversal;
    [sanitized] is the converted, stripped value. *)
Variable joiObject : string -> JoiSchema.
Variable violations : JoiSchema -> Data -> list Detail.
Variable sanitized : JoiSchema -> JoiOptions -> Data -> Data.

(** [schema.validate(data, options)]: the pair [{ error, value }].  With
    [abortEarly] Joi stops at the first broken rule, otherwise it returns
    them all. *)
Definition joiValidate (schema : JoiSchema) (data : Data) (options : JoiOptions)
  : option (list Detail) * Data :=
  let value := sanitized schema options data in
  match violations schema data with
  | [] => (None, value)
  | first :: rest => (Some (if abortEarly options then [first] else first :: rest), value)
  end.

(** [schemas[schemaName]]. *)
Definition schemas (schemaName : string) : option JoiSchema :=
  if existsb (String.eqb schemaName) schemaNames then Some (joiObject schemaName)
  else None.

Record Request := mkRequest {
  query : Data;
  body : Data
}.

(** One element of [validationErrors]. *)
Record ValidationErrorItem := mkItem {
  field : string;
  itemMessage : string;
  value : option Data
}.

(** What the middleware does with the request: it answers, or it calls
    [next()] with the request it has rewritten. *)
Inductive Outcome :=
| SchemaNotFound (status : nat) (code message : string)
| ValidationFailed (status : nat) (code message : string)
                   (details : list ValidationErrorItem)
| Next (req : Request).

(** The middleware returned by [validate(schemaName, source)]. *)
Definition validate (schemaName : string) (source : Source) (req : Request) : Outcome :=
  match schemas schemaName with
  | None =>
      SchemaNotFound 500 "VALIDATION_SCHEMA_NOT_FOUND"
        ("Validation schema '" ++ schemaName ++ "' not found")
  | Some schema =>
      let data := match source with Query => query req | Body => body req end in
      let '(error, value) :=
        joiValidate schema data
          {| abortEarly := false; stripUnknown := true; convert := true |} in
      match error with
      | Some details =>
          let validationErrors :=
            map (fun detail =>
                   {| field := JS.join "." (path detail);
                      itemMessage := message detail;
                      value := contextValue detail |})
                details in
          ValidationFailed 400 "VALIDATION_ERROR" "Validation failed" validationErrors
      | None =>
          Next match source with
               | Query => {| query := value; body := body req |}
               | Body => {| query := query req; body := value |}
               end
      end
  end.

End Joi.

Arguments path {Data} _.
Arguments message {Data} _.
Arguments contextValue {Data} _.
Arguments query {Data} _.
Arguments body {Data} _.

(** A small stand-in for Joi used to run the middleware: the data is a list
    of named text fields, and schema [n] wants each of its fields
    non-empty. *)
Definition ToyData : Type := list (string * string).

Definition toyFields (schemaName : string) : list string :=
  if schemaName =? "table" then ["name"; "position"]
  else if schemaName =? "userLogin" then ["email"; "password"]
  else [].

Definition toyLookup (data : ToyData) (key : string) : option string :=
  option_map snd (find (fun kv => fst kv =? key) data).

Definition toyViolations (fields : list string) (data : ToyData) : list (Detail ToyData) :=
  flat_map (fun f =>
              match toyLookup data f with
              | Some "" => [mkDetail ToyData [f] (f ++ " is not allowed to be empty")
                                     (Some [(f, "")])]
              | Some _ => []
              | None => [mkDetail ToyData [f] (f ++ " is required") None]
              end)
           fields.

Definition toySanitized (fields : list string) (_ : JoiOptions) (data : ToyData) : ToyData :=
  filter (fun kv => existsb (String.eqb (fst kv)) fields) data.

End Validation.

(** ** The SQLite database: [createTables] and the statements the routes run

    A row holds the columns the table routes and the SQL route write and
    read back.  The timestamp columns [created_at] and [updated_at], which
    take the time of day, are left out of every row, and a schema row keeps
    its id and its name only: a database here is the stored rows without
    those columns, and a statement below says nothing of them. *)
Module Db.

Module SchemaRow.
Record t := mk {
  id : string;
  name : string
}.
End SchemaRow.

Module TableRow.
Record t := mk {
  id : string;
  schema_id : string;
  name : string;
  description : string;
  position_x : nat;
  position_y : nat;
  color : string
}.
End TableRow.

Module ColumnRow.
Record t := mk {
  id : string;
  table_id : string;
  name : string;
  data_type : string;
  length : option nat;
  precision_val : option nat;
  scale_val : option nat;
  is_primary_key : bool;
  is_foreign_key : bool;
  is_unique : bool;
  is_required : bool;
  is_auto_increment : bool;
  default_value : option string;
  description : option string;
  order_index : nat
}.
End ColumnRow.

Module RelationshipRow.
Record t := mk {
  id : string;
  schema_id : string;
  source_table_id : string;
  source_column_id : string;
  target_table_id : string;
  target_column_id : string;
  relationship_type : string;
  on_delete : string;
  on_update : string;
  name : option string;
  description : option string
}.
End RelationshipRow.

(** The rows of the four tables the routes below touch; the timestamp
    columns are left out. *)
Record t := mk {
  schemas : list SchemaRow.t;
  tables : list TableRow.t;
  columns : list ColumnRow.t;
  relationships : list RelationshipRow.t
}.

(** Text is compared with SQLite's default collation, BINARY: two texts are
    equal when they are the same characters, letter case included. *)
Definition textEq (a b : string) : bool := a =? b.

(** [SELECT id FROM tables WHERE schema_id = ? AND name = ?], first row. *)
Definition selectTableByName (schemaId name : string) (db : t) : option TableRow.t :=
  find (fun r => textEq (TableRow.schema_id r) schemaId && textEq (TableRow.name r) name)
       (tables db).

(** [SELECT id FROM tables WHERE id = ? AND schema_id = ?], first row. *)
Definition selectTableInSchema (tableId schemaId : string) (db : t) : option TableRow.t :=
  find (fun r => textEq (TableRow.id r) tableId && textEq (TableRow.schema_id r) schemaId)
       (tables db).

(** [SELECT * FROM tables WHERE id = ?], first row. *)
Definition selectTable (tableId : string) (db : t) : option TableRow.t :=
  find (fun r => textEq (TableRow.id r) tableId) (tables db).

(** The constraints of table [tables]: PRIMARY KEY (id), FOREIGN KEY
    (schema_id) REFERENCES schemas (id), UNIQUE (schema_id, name). *)
Definition tableRowAllowed (row : TableRow.t) (others : list TableRow.t) (db : t) : bool :=
  negb (existsb (fun r => textEq (TableRow.id r) (TableRow.id row)) others)
  && existsb (fun s => textEq (SchemaRow.id s) (TableRow.schema_id row)) (schemas db)
  && negb (existsb (fun r => textEq (TableRow.schema_id r) (TableRow.schema_id row)
                             && textEq (TableRow.name r) (TableRow.name row)) others).

(** [INSERT INTO tables ...]: [None] when a constraint fails and the query
    is rejected. *)
Definition insertTable (row : TableRow.t) (db : t) : option t :=
  if tableRowAllowed row (tables db) db
  then Some (mk (schemas db) (tables db ++ [row]) (columns db) (relationships db))
  else None.

(** The constraints of table [columns]: PRIMARY KEY (id), FOREIGN KEY
    (table_id) REFERENCES tables (id), UNIQUE (table_id, name). *)
Definition columnRowAllowed (row : ColumnRow.t) (db : t) : bool :=
  negb (existsb (fun c => textEq (ColumnRow.id c) (ColumnRow.id row)) (columns db))
  && existsb (fun r => textEq (TableRow.id r) (ColumnRow.table_id row)) (tables db)
  && negb (existsb (fun c => textEq (ColumnRow.table_id c) (ColumnRow.table_id row)
                             && textEq (ColumnRow.name c) (ColumnRow.name row)) (columns db)).

(** [INSERT INTO columns ...]. *)
Definition insertColumn (row : ColumnRow.t) (db : t) : option t :=
  if columnRowAllowed row db
  then Some (mk (schemas db) (tables db) (columns db ++ [row]) (relationships db))
  else None.

(** [UPDATE tables SET ... WHERE id = ?]: [change] rewrites the row, which
    keeps its id and schema; the statement is rejected when the new row
    breaks UNIQUE (schema_id, name). *)
Definition updateTable (tableId : string) (change : TableRow.t -> TableRow.t) (db : t)
  : option t :=
  let others := filter (fun r => negb (textEq (TableRow.id r) tableId)) (tables db) in
  let changed r := if textEq (TableRow.id r) tableId then change r else r in
  if forallb (fun r => negb (textEq (TableRow.id r) tableId)
                       || tableRowAllowed (change r) others db) (tables db)
  then Some (mk (schemas db) (map changed (tables db)) (columns db) (relationships db))
  else None.

(** [DELETE FROM tables WHERE id = ?] with foreign keys enabled: the columns
    of the table go with it (ON DELETE CASCADE on [table_id]), and so does
    every relationship that names the table or one of those columns. *)
Definition deleteTable (tableId : string) (db : t) : t :=
  let goneColumn c := textEq (ColumnRow.table_id c) tableId in
  let goneColumnId cid :=
    existsb (fun c => goneColumn c && textEq (ColumnRow.id c) cid) (columns db) in
  mk (schemas db)
     (filter (fun r => negb (textEq (TableRow.id r) tableId)) (tables db))
     (filter (fun c => negb (goneColumn c)) (columns db))
     (filter (fun r => negb (textEq (RelationshipRow.source_table_id r) tableId)
                       && negb (textEq (RelationshipRow.target_table_id r) tableId)
                       && negb (goneColumnId (RelationshipRow.source_column_id r))
                       && negb (goneColumnId (RelationshipRow.target_column_id r)))
             (relationships db)).

(** ORDER BY: insertion of each row into the sorted rest. *)
Section OrderBy.
Variable A : Type.
Variable le : A -> A -> bool.

Fixpoint insertSorted (x : A) (l : list A) : list A :=
  match l with
  | [] => [x]
  | y :: l' => if le x y then x :: y :: l' else y :: insertSorted x l'
  end.

Definition orderBy (l : list A) : list A := fold_right insertSorted [] l.
End OrderBy.
Arguments insertSorted {A} le x l.
Arguments orderBy {A} le l.

Definition tableExists (db : t) (tableId : string) : bool :=
  existsb (fun r => textEq (TableRow.id r) tableId) (tables db).

(** Every relationship row names tables that exist. *)
Definition noDanglingRelationship (db : t) : bool :=
  forallb (fun r => tableExists db (RelationshipRow.source_table_id r)
                    && tableExists db (RelationshipRow.target_table_id r))
          (relationships db).

(** The pairs UNIQUE (schema_id, name) speaks of. *)
Definition keyOf (r : TableRow.t) : string * string :=
  (TableRow.schema_id r, TableRow.name r).

Definition tableKeys (db : t) : list (string * string) := map keyOf (tables db).

(** What PRIMARY KEY (id) and UNIQUE (schema_id, name) keep true of
    table [tables]. *)
Definition uniqueTables (db : t) : Prop :=
  NoDup (map TableRow.id (tables db)) /\ NoDup (tableKeys db).

(** The same pairs with the name in lower case. *)
Definition tableKeysLower (db : t) : list (string * string) :=
  map (fun r => (TableRow.schema_id r, JS.toLowerCase (TableRow.name r))) (tables db).

End Db.

(** ** The table routes of [routes/schemas.js]

    After its own statements each of the three handlers runs
    [UPDATE schemas SET updated_at = ?].  That statement writes a timestamp
    column, which the rows of [Db] leave out, so it is not among the
    statements below. *)
Module Routes.
Import Db.

(** The validated body of POST /:schemaId/tables and of
    PUT /:schemaId/tables/:tableId; a property that is missing is [None]. *)
Record TableBody := mkTableBody {
  name : option string;
  description : option string;
  position : option (nat * nat);
  color : option string
}.

Inductive TableResponse :=
| Created (table : option TableRow.t) (columns : list ColumnRow.t)   (* 201 *)
| Updated                                                            (* 200 *)
| Deleted                                                            (* 200 *)
| ValidationError                                                    (* 400 *)
| NotFound                                                           (* 404 *)
| DuplicateResource                                                  (* 409 *)
| InternalServerError.                                               (* 500 *)

(** [x || fallback] on an optional text. *)
Definition orElse (x : option string) (fallback : string) : string :=
  match x with
  | Some "" | None => fallback
  | Some s => s
  end.

Definition columnOrder (a b : ColumnRow.t) : bool :=
  if (ColumnRow.order_index a <? ColumnRow.order_index b)%nat then true
  else if (ColumnRow.order_index b <? ColumnRow.order_index a)%nat then false
  else (ColumnRow.name a <=? ColumnRow.name b)%string.

(** [SELECT * FROM columns WHERE table_id = ? ORDER BY order_index, name]. *)
Definition selectColumns (tableId : string) (db : Db.t) : list ColumnRow.t :=
  orderBy columnOrder
    (filter (fun c => textEq (ColumnRow.table_id c) tableId) (Db.columns db)).

(** The handler of POST /:schemaId/tables.  [tableId] and [columnId] are the
    two values [uuidv4()] returns.  A rejected query throws, and the
    [catch] answers 500 with the database as the queries before it left
    it. *)
Definition createTable (schemaId : string) (body : TableBody) (tableId columnId : string)
           (db : Db.t) : TableResponse * Db.t :=
  match name body, position body with
  | Some name, Some (x, y) =>
      match selectTableByName schemaId name db with
      | Some existingTable => (DuplicateResource, db)
      | None =>
          match insertTable
                  (TableRow.mk tableId schemaId name (orElse (description body) "")
                               x y (orElse (color body) "#ffffff")) db with
          | None => (InternalServerError, db)
          | Some db1 =>
              match insertColumn
                      (ColumnRow.mk columnId tableId "id" "INTEGER" None None None
                                    true false false true true None None 0) db1 with
              | None => (InternalServerError, db1)
              | Some db2 =>
                  (Created (selectTable tableId db2) (selectColumns tableId db2), db2)
              end
          end
      end
  | _, _ => (InternalServerError, db)
  end.

(** The object [updateData] of the PUT handler: one key for each of
    [name], [description], [position?.x], [position?.y] and [color] that is
    not [undefined] in the body, the two coordinates each on its own.  No
    [validate] stands before this handler; the values are taken to be of
    the types of the columns. *)
Record UpdateData := mkUpdateData {
  new_name : option string;
  new_description : option string;
  new_position_x : option nat;
  new_position_y : option nat;
  new_color : option string
}.

(** [Object.keys(updateData).length === 0]. *)
Definition noKeys (updateData : UpdateData) : bool :=
  match new_name updateData, new_description updateData, new_position_x updateData,
        new_position_y updateData, new_color updateData with
  | None, None, None, None, None => true
  | _, _, _, _, _ => false
  end.

(** The row after [UPDATE tables SET <the keys of updateData> WHERE id = ?]. *)
Definition setFields (updateData : UpdateData) (r : TableRow.t) : TableRow.t :=
  TableRow.mk (TableRow.id r) (TableRow.schema_id r)
    (match new_name updateData with Some n => n | None => TableRow.name r end)
    (match new_description updateData with
     | Some d => d
     | None => TableRow.description r
     end)
    (match new_position_x updateData with Some x => x | None => TableRow.position_x r end)
    (match new_position_y updateData with Some y => y | None => TableRow.position_y r end)
    (match new_color updateData with Some c => c | None => TableRow.color r end).

(** The handler of PUT /:schemaId/tables/:tableId, by the [updateData] it
    builds from the body. *)
Definition updateTableWith (schemaId tableId : string) (updateData : UpdateData)
           (db : Db.t) : TableResponse * Db.t :=
  match selectTableInSchema tableId schemaId db with
  | None => (NotFound, db)
  | Some _ =>
      if noKeys updateData then (ValidationError, db)
      else
        match Db.updateTable tableId (setFields updateData) db with
        | None => (InternalServerError, db)
        | Some db' => (Updated, db')
        end
  end.

(** [updateData] for a body whose [position], when it is there, has both
    coordinates. *)
Definition updateDataOf (body : TableBody) : UpdateData :=
  mkUpdateData (name body) (description body)
               (option_map fst (position body)) (option_map snd (position body))
               (color body).

(** The handler of PUT /:schemaId/tables/:tableId at such a body. *)
Definition updateTable (schemaId tableId : string) (body : TableBody) (db : Db.t)
  : TableResponse * Db.t :=
  updateTableWith schemaId tableId (updateDataOf body) db.

(** The handler of DELETE /:schemaId/tables/:tableId. *)
Definition deleteTable (schemaId tableId : string) (db : Db.t) : TableResponse * Db.t :=
  match selectTableInSchema tableId schemaId db with
  | None => (NotFound, db)
  | Some _ => (Deleted, Db.deleteTable tableId db)
  end.

(** A request to one of the three table routes. *)
Inductive TableRequest :=
| PostTable (schemaId : string) (body : TableBody) (tableId columnId : string)
| PutTable (schemaId tableId : string) (body : TableBody)
| DeleteTable (schemaId tableId : string).

Definition handle (req : TableRequest) (db : Db.t) : TableResponse * Db.t :=
  match req with
  | PostTable schemaId body tableId columnId => createTable schemaId body tableId columnId db
  | PutTable schemaId tableId body => updateTable schemaId tableId body db
  | DeleteTable schemaId tableId => deleteTable schemaId tableId db
  end.

(** The databases the table routes can reach from [start]. *)
Inductive reachable (start : Db.t) : Db.t -> Prop :=
| reach_start : reachable start start
| reach_step (db : Db.t) (req : TableRequest) :
    reachable start db -> reachable start (snd (handle req db)).

(** Sample data: one schema, and the two requests of scenario 6. *)
Definition oneSchema : Db.t :=
  Db.mk [SchemaRow.mk "schema-1" "Shop"] [] [] [].

Definition postCustomerUpper : TableRequest :=
  PostTable "schema-1" (mkTableBody (Some "Customer") None (Some (0, 0)) None) "t1" "c1".

Definition postCustomerLower : TableRequest :=
  PostTable "schema-1" (mkTableBody (Some "customer") None (Some (10, 10)) None) "t2" "c2".

Definition postCustomerAgain : TableRequest :=
  PostTable "schema-1" (mkTableBody (Some "Customer") None (Some (20, 20)) None) "t3" "c3".

End Routes.

(** ** The SQL route of [routes/schemas.js]: GET /:schemaId/sql *)
Module SqlRoute.
Import Db.

(** The objects the handler prepares for the SQL generator. *)
Module ColumnData.
Record t := mk {
  name : string;
  dataType : string;
  length : option nat;
  precision : option nat;
  scale : option nat;
  isPrimaryKey : bool;
  isForeignKey : bool;
  isUnique : bool;
  isRequired : bool;
  isAutoIncrement : bool;
  defaultValue : option string;
  description : option string
}.
End ColumnData.

Module TableData.
Record t := mk {
  name : string;
  description : string;
  columns : list ColumnData.t
}.
End TableData.

Module RelationshipData.
Record t := mk {
  name : option string;
  sourceTableName : string;
  sourceColumnName : string;
  targetTableName : string;
  targetColumnName : string;
  onDelete : string;
  onUpdate : string
}.
End RelationshipData.

Record GeneratorOptions := mkOptions {
  includeDropStatements : bool;
  includeComments : bool;
  includeIndexes : bool;
  includeConstraints : bool
}.

(** [req.query]: each parameter is a text or is missing. *)
Record SqlQuery := mkQuery {
  dialect : option string;
  dropStatements : option string;
  comments : option string
}.

(** A query parameter after the destructuring default: the text of the
    request, or the default the handler wrote, which is a boolean. *)
Inductive QValue :=
| QText (s : string)
| QBool (b : bool).

Definition withDefault (q : option string) (default : QValue) : QValue :=
  match q with
  | Some s => QText s
  | None => default
  end.

(** [value === 'true']. *)
Definition isTextTrue (value : QValue) : bool :=
  match value with
  | QText s => s =? "true"
  | QBool _ => false
  end.

(** [SELECT * FROM tables WHERE schema_id = ? ORDER BY name]. *)
Definition selectTables (schemaId : string) (db : Db.t) : list TableRow.t :=
  orderBy (fun a b => (TableRow.name a <=? TableRow.name b)%string)
          (filter (fun r => textEq (TableRow.schema_id r) schemaId) (Db.tables db)).

Definition columnOrder (a b : ColumnRow.t) : bool :=
  if (ColumnRow.table_id a <? ColumnRow.table_id b)%string then true
  else if (ColumnRow.table_id b <? ColumnRow.table_id a)%string then false
  else if (ColumnRow.order_index a <? ColumnRow.order_index b)%nat then true
  else if (ColumnRow.order_index b <? ColumnRow.order_index a)%nat then false
  else (ColumnRow.name a <=? ColumnRow.name b)%string.

(** The columns of the schema's tables,
    ORDER BY c.table_id, c.order_index, c.name. *)
Definition selectColumns (schemaId : string) (db : Db.t) : list ColumnRow.t :=
  orderBy columnOrder
    (filter (fun c => existsb (fun r => textEq (TableRow.id r) (ColumnRow.table_id c)
                                        && textEq (TableRow.schema_id r) schemaId)
                              (Db.tables db))
            (Db.columns db)).

Definition columnData (column : ColumnRow.t) : ColumnData.t :=
  ColumnData.mk (ColumnRow.name column) (ColumnRow.data_type column)
                (ColumnRow.length column) (ColumnRow.precision_val column)
                (ColumnRow.scale_val column)
                (ColumnRow.is_primary_key column) (ColumnRow.is_foreign_key column)
                (ColumnRow.is_unique column) (ColumnRow.is_required column)
                (ColumnRow.is_auto_increment column)
                (ColumnRow.default_value column) (ColumnRow.description column).

(** [tableColumnsMap[tableId] || []]: the columns pushed under that key, in
    the order the loop met them. *)
Definition tableColumns (columns : list ColumnRow.t) (tableId : string) : list ColumnData.t :=
  map columnData (filter (fun c => ColumnRow.table_id c =? tableId) columns).

Definition tablesData (tables : list TableRow.t) (columns : list ColumnRow.t)
  : list TableData.t :=
  map (fun table => TableData.mk (TableRow.name table) (TableRow.description table)
                                 (tableColumns columns (TableRow.id table)))
      tables.

(** One row of the relationships query with its four joins, as the object
    [relationships.map] makes of it; a row whose join finds no partner is
    not in the result. *)
Definition relationshipData (db : Db.t) (rel : RelationshipRow.t)
  : option RelationshipData.t :=
  let table tid := find (fun r => textEq (TableRow.id r) tid) (Db.tables db) in
  let column cid := find (fun c => textEq (ColumnRow.id c) cid) (Db.columns db) in
  match table (RelationshipRow.source_table_id rel),
        column (RelationshipRow.source_column_id rel),
        table (RelationshipRow.target_table_id rel),
        column (RelationshipRow.target_column_id rel) with
  | Some srcT, Some srcC, Some tgtT, Some tgtC =>
      Some (RelationshipData.mk (RelationshipRow.name rel)
              (TableRow.name srcT) (ColumnRow.name srcC)
              (TableRow.name tgtT) (ColumnRow.name tgtC)
              (RelationshipRow.on_delete rel) (RelationshipRow.on_update rel))
  | _, _, _, _ => None
  end.

Definition relationshipsData (schemaId : string) (db : Db.t) : list RelationshipData.t :=
  flat_map (fun rel => match relationshipData db rel with
                       | Some data => [data]
                       | None => []
                       end)
           (filter (fun r => textEq (RelationshipRow.schema_id r) schemaId)
                   (Db.relationships db)).

Section Handler.
(** The SQL generator, [new SQLGenerator(dialect).generateSchema(tables,
    relationships, options)]: it returns the SQL or it throws. *)
Variable Sql : Type.

Inductive Generated :=
| Returned (sql : Sql)
| Thrown.

Variable generateSchema :
  string -> list TableData.t -> list RelationshipData.t -> GeneratorOptions -> Generated.

Inductive SqlResponse :=
| SqlSuccess (sql : Sql) (dialect schemaName : string)       (* 200 *)
| SqlFailure (status : nat) (code message : string).

(** The dialect the generator is built with. *)
Definition requestedDialect (query : SqlQuery) : string :=
  match dialect query with
  | Some d => d
  | None => "mysql"
  end.

Definition generatorOptions (query : SqlQuery) : GeneratorOptions :=
  let includeDropStatements := withDefault (dropStatements query) (QBool false) in
  let includeComments := withDefault (comments query) (QBool true) in
  {| includeDropStatements := isTextTrue includeDropStatements;
     includeComments := isTextTrue includeComments;
     includeIndexes := true;
     includeConstraints := true |}.

(** The handler.  Whatever is thrown inside its [try], by the generator
    or by reading [schema.name] of a schema that was not found, ends in
    the same 500 answer. *)
Definition getSql (schemaId : string) (query : SqlQuery) (db : Db.t) : SqlResponse :=
  let dialect := requestedDialect query in
  let schema := find (fun s => textEq (SchemaRow.id s) schemaId) (Db.schemas db) in
  let tables := selectTables schemaId db in
  let columns := selectColumns schemaId db in
  match generateSchema dialect (tablesData tables columns)
                       (relationshipsData schemaId db) (generatorOptions query) with
  | Thrown => SqlFailure 500 "INTERNAL_SERVER_ERROR" "Failed to generate SQL"
  | Returned sql =>
      match schema with
      | Some s => SqlSuccess sql dialect (SchemaRow.name s)
      | None => SqlFailure 500 "INTERNAL_SERVER_ERROR" "Failed to generate SQL"
      end
  end.

End Handler.

End SqlRoute.

(** ** The API client: [APIClient.validateSQLOptions] and the query it
       becomes *)
Module ApiClient.

(** A value a caller may put in the options object. *)
Inductive Value :=
| VBool (b : bool)
| VText (s : string)
| VNull.

(** [Boolean(value)]. *)
Definition toBoolean (v : Value) : bool :=
  match v with
  | VBool b => b
  | VText s => negb (s =? "")
  | VNull => false
  end.

(** The options object; [None] is a property that is [undefined]. *)
Record SQLOptions := mkSQLOptions {
  dialect : option string;
  includeDropStatements : option Value;
  includeComments : option Value
}.

Record Validated := mkValidated {
  validDialect : option string;
  validDropStatements : option bool;
  validComments : option bool
}.

Definition allowedDialects : list string := ["mysql"; "postgresql"; "sqlite"; "mssql"].

(** [validateSQLOptions(options)]. *)
Definition validateSQLOptions (options : SQLOptions) : Validated :=
  {| validDialect :=
       match dialect options with
       | Some d => if negb (d =? "") && existsb (String.eqb d) allowedDialects
                   then Some d else None
       | None => None
       end;
     validDropStatements := option_map toBoolean (includeDropStatements options);
     validComments := option_map toBoolean (includeComments options) |}.

(** The query string of the GET request: a property that is absent is not
    sent, a boolean is sent as the text [true] or [false]. *)
Definition boolText (b : bool) : string := if b then "true" else "false".

Definition params (v : Validated) : SqlRoute.SqlQuery :=
  SqlRoute.mkQuery (validDialect v)
                   (option_map boolText (validDropStatements v))
                   (option_map boolText (validComments v)).

End ApiClient.

(** ** The SQL generator the route calls

    The route requires utils/sqlGenerator.js, which is not among the sources.
    Every definition of this module is modelled from the spec (sections 2,
    4.1 to 4.5 and 7) and says so. *)
Module SqlGenerator.
Import SqlRoute.
Local Open Scope list_scope.

(** Modelled from the spec: the dialect identifiers of class [SQLGenerator]
    (utils/sqlGenerator.js, required by the route, is not among the
    sources); one DialectProfile exists for each. *)
Definition knownDialects : list string := ["mysql"; "postgresql"; "sqlite"; "mssql"].

(** Modelled from the spec: the statements of the generated text (4.5).
    The generator's file is missing and the spec does not fix the spelling
    of a statement in each dialect, so the text is kept as the sequence of
    its statements.  A CREATE TABLE statement holds its optional leading
    comment and its column clauses and has no place for a foreign key. *)
Inductive Statement :=
| DropConstraint (table constraint : string)
| DropTable (table : string)
| CreateTable (comment : option string) (table : string) (columns : list ColumnData.t)
| AddConstraint (table constraint column referencedTable referencedColumn
                 onDelete onUpdate : string)
| CreateIndex (table column : string).

(** Modelled from the spec: the two kinds of statement of the DROP phase of
    the missing generator (4.5, steps a and b). *)
Definition isDropConstraint (s : Statement) : bool :=
  match s with DropConstraint _ _ => true | _ => false end.

(** Modelled from the spec: see [isDropConstraint]. *)
Definition isDropTable (s : Statement) : bool :=
  match s with DropTable _ => true | _ => false end.

(** Modelled from the spec: see [isDropConstraint]. *)
Definition isDrop (s : Statement) : bool := isDropConstraint s || isDropTable s.

(** Modelled from the spec: the kinds of issue the SchemaValidator of the
    missing generator reports (4.3). *)
Inductive IssueKind :=
| DuplicateTableName
| DuplicateColumnName
| DanglingTableReference
| DanglingColumnReference
| IncompatibleTypePair
| UnknownDataType
| InvalidAutoIncrement.

(** Modelled from the spec: a validation issue of the missing generator
    (6): its kind and the entity it is about. *)
Record Issue := mkIssue {
  kind : IssueKind;
  offendingEntity : string
}.

(** Modelled from the spec: the data kinds of the TypeCatalog (4.1) under
    the type names the column schema of the validation file accepts, and
    those of them that are integer kinds. *)
Definition knownDataTypes : list string :=
  [ "INTEGER"; "BIGINT"; "SMALLINT"; "TINYINT"; "VARCHAR"; "CHAR"; "TEXT"; "LONGTEXT";
    "DECIMAL"; "NUMERIC"; "FLOAT"; "DOUBLE"; "REAL"; "DATE"; "TIME"; "DATETIME";
    "TIMESTAMP"; "BOOLEAN"; "BIT"; "JSON"; "JSONB"; "BLOB"; "UUID" ].

(** Modelled from the spec: the integer kinds, the only ones the missing
    generator lets auto-increment (4.2 d). *)
Definition integerDataTypes : list string := ["INTEGER"; "BIGINT"; "SMALLINT"; "TINYINT"].

(** Modelled from the spec: names are compared without regard to letter
    case by the missing generator's validator (3). *)
Definition sameName (a b : string) : bool := JS.toLowerCase a =? JS.toLowerCase b.

(** Modelled from the spec: the duplicate-name check of the missing
    validator (4.3): one issue for each name that repeats a name before
    it. *)
Fixpoint duplicates (kind : IssueKind) (seen names : list string) : list Issue :=
  match names with
  | [] => []
  | n :: rest =>
      (if existsb (sameName n) seen then [mkIssue kind n] else [])
        ++ duplicates kind (n :: seen) rest
  end.

(** Modelled from the spec: how the missing generator resolves the (table,
    column) pair of a relationship (3): no such table, no such column in
    it, or the column. *)
Definition findColumn (tables : list TableData.t) (table column : string)
  : option (option ColumnData.t) :=
  match find (fun t => TableData.name t =? table) tables with
  | None => None
  | Some t => Some (find (fun c => ColumnData.name c =? column) (TableData.columns t))
  end.

(** Modelled from the spec: the checks of the missing validator on one
    column (4.1, 4.2 d): unknown data kind, auto-increment on a kind that is
    not an integer. *)
Definition columnIssues (c : ColumnData.t) : list Issue :=
  (if existsb (String.eqb (ColumnData.dataType c)) knownDataTypes then []
   else [mkIssue UnknownDataType (ColumnData.name c)])
  ++ (if ColumnData.isAutoIncrement c
         && negb (existsb (String.eqb (ColumnData.dataType c)) integerDataTypes)
      then [mkIssue InvalidAutoIncrement (ColumnData.name c)] else []).

(** Modelled from the spec: the dangling-reference check of the missing
    validator on one end of a relationship (4.3). *)
Definition endIssues (tables : list TableData.t) (table column : string) : list Issue :=
  match findColumn tables table column with
  | None => [mkIssue DanglingTableReference table]
  | Some None => [mkIssue DanglingColumnReference column]
  | Some (Some _) => []
  end.

(** Modelled from the spec: the checks of the missing validator on one
    relationship (3, 4.3): both ends exist and have the same data kind. *)
Definition relationshipIssues (tables : list TableData.t) (r : RelationshipData.t)
  : list Issue :=
  endIssues tables (RelationshipData.sourceTableName r) (RelationshipData.sourceColumnName r)
  ++ endIssues tables (RelationshipData.targetTableName r)
               (RelationshipData.targetColumnName r)
  ++ match findColumn tables (RelationshipData.sourceTableName r)
                      (RelationshipData.sourceColumnName r),
           findColumn tables (RelationshipData.targetTableName r)
                      (RelationshipData.targetColumnName r) with
     | Some (Some a), Some (Some b) =>
         if ColumnData.dataType a =? ColumnData.dataType b then []
         else [mkIssue IncompatibleTypePair (RelationshipData.targetColumnName r)]
     | _, _ => []
     end.

(** Modelled from the spec: [validate(schema)] of the missing generator's
    SchemaValidator (4.3), which collects every issue in one pass. *)
Definition validate (tables : list TableData.t) (relationships : list RelationshipData.t)
  : list Issue :=
  duplicates DuplicateTableName [] (map TableData.name tables)
  ++ flat_map (fun t => duplicates DuplicateColumnName []
                                   (map ColumnData.name (TableData.columns t))
                        ++ flat_map columnIssues (TableData.columns t))
              tables
  ++ flat_map (relationshipIssues tables) relationships.

(** Modelled from the spec: the dependency graph of the missing generator
    (4.4): an edge runs from the table that holds a foreign key to the table
    it references. *)
Definition references (relationships : list RelationshipData.t) (table other : string)
  : bool :=
  existsb (fun r => (RelationshipData.targetTableName r =? table)
                    && (RelationshipData.sourceTableName r =? other))
          relationships.

(** Modelled from the spec: the ordering and cycle detection of the missing
    generator's dependency analysis (4.4): [topological] takes, round after
    round, the tables whose referenced tables have all been taken, and finds
    no order when a round can take none, that is when there is a cycle. *)
Fixpoint topological (rounds : nat) (relationships : list RelationshipData.t)
         (remaining : list string) : option (list string) :=
  match remaining, rounds with
  | [], _ => Some []
  | _ :: _, O => None
  | _ :: _, S rounds' =>
      let ready t := negb (existsb (references relationships t) remaining) in
      match filter ready remaining with
      | [] => None
      | taken =>
          option_map (app taken)
            (topological rounds' relationships (filter (fun t => negb (ready t)) remaining))
      end
  end.

(** Modelled from the spec: the order of the table drops (4.5): the reverse
    of a topological order when there is one, the given order otherwise. *)
Definition dropOrder (tables : list TableData.t) (relationships : list RelationshipData.t)
  : list string :=
  let names := map TableData.name tables in
  match topological (List.length names) relationships names with
  | Some order => rev order
  | None => names
  end.

(** Modelled from the spec: the numeric suffix of a constraint name of the
    missing generator (4.5), in decimal. *)
Definition decimal (n : nat) : string := NilEmpty.string_of_uint (Nat.to_uint n).

(** Modelled from the spec: the constraint names of the missing generator
    (4.5): fk_<targetTable>_<sourceTable>, and from the second relationship
    of a pair on with its number after it. *)
Fixpoint constraintNames (seen : list (string * string))
         (relationships : list RelationshipData.t) : list (RelationshipData.t * string) :=
  match relationships with
  | [] => []
  | r :: rest =>
      let target := RelationshipData.targetTableName r in
      let source := RelationshipData.sourceTableName r in
      let earlier :=
        List.length (filter (fun p => (fst p =? target) && (snd p =? source)) seen) in
      let base := ("fk_" ++ target ++ "_" ++ source)%string in
      let name := match earlier with
                  | O => base
                  | S _ => (base ++ "_" ++ decimal (S earlier))%string
                  end in
      (r, name) :: constraintNames ((target, source) :: seen) rest
  end.

(** Modelled from the spec: phase 1 of the missing generator's emitter
    (4.5): one CREATE TABLE statement for each table, in the order given,
    with its description as leading comment when comments are on. *)
Definition createPhase (options : GeneratorOptions) (tables : list TableData.t)
  : list Statement :=
  map (fun t =>
         CreateTable (if includeComments options && negb (TableData.description t =? "")
                      then Some (TableData.description t) else None)
                     (TableData.name t) (TableData.columns t))
      tables.

(** Modelled from the spec: phase 2 of the missing generator's emitter
    (4.5): one ALTER TABLE ... ADD CONSTRAINT for each relationship, with its
    ON DELETE and ON UPDATE actions. *)
Definition constraintPhase (relationships : list RelationshipData.t) : list Statement :=
  map (fun '(r, name) =>
         AddConstraint (RelationshipData.targetTableName r) name
                       (RelationshipData.targetColumnName r)
                       (RelationshipData.sourceTableName r)
                       (RelationshipData.sourceColumnName r)
                       (RelationshipData.onDelete r) (RelationshipData.onUpdate r))
      (constraintNames [] relationships).

(** Modelled from the spec: phase 3 of the missing generator's emitter
    (4.5): a referencing column gets an index unless a PRIMARY KEY or UNIQUE
    constraint covers it already. *)
Definition indexPhase (tables : list TableData.t)
           (relationships : list RelationshipData.t) : list Statement :=
  flat_map (fun r =>
              match findColumn tables (RelationshipData.targetTableName r)
                               (RelationshipData.targetColumnName r) with
              | Some (Some c) =>
                  if ColumnData.isPrimaryKey c || ColumnData.isUnique c then []
                  else [CreateIndex (RelationshipData.targetTableName r)
                                    (RelationshipData.targetColumnName r)]
              | _ => []
              end)
           relationships.

(** Modelled from the spec: step (a) of the DROP phase of the missing
    generator (4.5): one drop for each constraint of phase 2. *)
Definition constraintDrops (relationships : list RelationshipData.t) : list Statement :=
  map (fun '(r, name) => DropConstraint (RelationshipData.targetTableName r) name)
      (constraintNames [] relationships).

(** Modelled from the spec: step (b) of the DROP phase of the missing
    generator (4.5): one drop for each table, in [dropOrder]. *)
Definition tableDrops (tables : list TableData.t)
           (relationships : list RelationshipData.t) : list Statement :=
  map DropTable (dropOrder tables relationships).

(** Modelled from the spec: the DROP phase of the missing generator (4.5):
    step (a), then step (b). *)
Definition dropPhase (tables : list TableData.t)
           (relationships : list RelationshipData.t) : list Statement :=
  constraintDrops relationships ++ tableDrops tables relationships.

(** Modelled from the spec: the three phases of the missing generator that
    follow the DROP phase (4.5), when all are on. *)
Definition afterDrops (options : GeneratorOptions) (tables : list TableData.t)
           (relationships : list RelationshipData.t) : list Statement :=
  createPhase options tables ++ constraintPhase relationships
    ++ indexPhase tables relationships.

(** Modelled from the spec: the DDLEmitter of the missing generator (4.5):
    the DROP phase first when asked for, then CREATE TABLE, constraints and
    indexes, each of the last two under its option. *)
Definition emit (options : GeneratorOptions) (tables : list TableData.t)
           (relationships : list RelationshipData.t) : list Statement :=
  let constrained := if includeConstraints options then relationships else [] in
  (if includeDropStatements options then dropPhase tables constrained else [])
  ++ createPhase options tables
  ++ constraintPhase constrained
  ++ (if includeIndexes options then indexPhase tables relationships else []).

(** Modelled from the spec: the result of the missing generator's
    [compile] (5, 7): the text, or one of the two failures. *)
Inductive Result :=
| Ddl (statements : list Statement)
| UnsupportedDialect (dialect : string)
| Invalid (issues : list Issue).

(** Modelled from the spec: the Compiler facade of the missing generator
    (2, 4.5, 7): an unknown dialect fails before anything else, a schema
    with validation issues produces no text, and otherwise the emitter
    runs. *)
Definition compile (dialect : string) (tables : list TableData.t)
           (relationships : list RelationshipData.t) (options : GeneratorOptions)
  : Result :=
  if negb (existsb (String.eqb dialect) knownDialects) then UnsupportedDialect dialect
  else match validate tables relationships with
       | [] => Ddl (emit options tables relationships)
       | issues => Invalid issues
       end.

(** Modelled from the spec: [new SQLGenerator(dialect).generateSchema(...)]
    as the route sees it: the text, or an exception for either failure. *)
Definition generateSchema (dialect : string) (tables : list TableData.t)
           (relationships : list RelationshipData.t) (options : GeneratorOptions)
  : Generated (list Statement) :=
  match compile dialect tables relationships options with
  | Ddl statements => Returned (list Statement) statements
  | UnsupportedDialect _ | Invalid _ => Thrown (list Statement)
  end.

End SqlGenerator.

(** ** The SQL route with its generator *)
Module Server.

(** The handler of GET /:schemaId/sql with the generator it requires behind
    it. *)
Definition getSql : string -> SqlRoute.SqlQuery -> Db.t
                    -> SqlRoute.SqlResponse (list SqlGenerator.Statement) :=
  SqlRoute.getSql (list SqlGenerator.Statement) SqlGenerator.generateSchema.

End Server.

(** ** Sample databases *)
Module Samples.
Import Db.

Definition idColumn (id tableId : string) : ColumnRow.t :=
  ColumnRow.mk id tableId "id" "INTEGER" None None None
               true false false true true None None 0.

Definition refColumn (id tableId name : string) : ColumnRow.t :=
  ColumnRow.mk id tableId name "INTEGER" None None None
               false true false true false None None 1.

(** [users] referenced by [orders] (scenario 2). *)
Definition userOrdersRow : RelationshipRow.t :=
  RelationshipRow.mk "r1" "schema-1" "t-users" "c-users-id" "t-orders" "c-orders-user"
                     "one-to-many" "CASCADE" "CASCADE" None None.

Definition shopDb : Db.t :=
  Db.mk [SchemaRow.mk "schema-1" "Shop"]
        [ TableRow.mk "t-users" "schema-1" "users" "" 0 0 "#ffffff";
          TableRow.mk "t-orders" "schema-1" "orders" "" 300 0 "#ffffff" ]
        [ idColumn "c-users-id" "t-users";
          idColumn "c-orders-id" "t-orders";
          refColumn "c-orders-user" "t-orders" "user_id" ]
        [ userOrdersRow ].

(** Tables [A] and [B] that reference each other (scenarios 3 and 4). *)
Definition cycleDb : Db.t :=
  Db.mk [SchemaRow.mk "schema-2" "Cycle"]
        [ TableRow.mk "t-a" "schema-2" "A" "" 0 0 "#ffffff";
          TableRow.mk "t-b" "schema-2" "B" "" 300 0 "#ffffff" ]
        [ idColumn "c-a-id" "t-a";
          refColumn "c-a-b" "t-a" "b_id";
          idColumn "c-b-id" "t-b";
          refColumn "c-b-a" "t-b" "a_id" ]
        [ RelationshipRow.mk "r-ab" "schema-2" "t-a" "c-a-id" "t-b" "c-b-a"
                             "one-to-one" "RESTRICT" "CASCADE" None None;
          RelationshipRow.mk "r-ba" "schema-2" "t-b" "c-b-id" "t-a" "c-a-b"
                             "one-to-one" "RESTRICT" "CASCADE" None None ].

Definition dropQuery : SqlRoute.SqlQuery :=
  SqlRoute.mkQuery (Some "mysql") (Some "true") None.

(** The statements the route answers for [cycleDb] and [dropQuery]. *)
Definition cycleSql : list SqlGenerator.Statement :=
  Eval vm_compute in
    match Server.getSql "schema-2" dropQuery cycleDb with
    | SqlRoute.SqlSuccess _ sql _ _ => sql
    | SqlRoute.SqlFailure _ _ _ _ => []
    end.

Definition oracleOptions : ApiClient.SQLOptions :=
  ApiClient.mkSQLOptions (Some "oracle") None None.

(** The store with the two tables and their relationship. *)
Definition shopStore : Store.State :=
  Store.mkState
    (Some (Store.mkSchema "schema-1"
             [Store.mkTable "t-users" "users"; Store.mkTable "t-orders" "orders"]
             [Store.mkRelationship "r1" "t-users" "c-users-id" "t-orders" "c-orders-user"]))
    (Some (Store.mkTable "t-orders" "orders")) None.

(** A request body with two defects for the stand-in Joi: no [name], an
    empty [position]. *)
Definition twoDefects : Validation.Request Validation.ToyData :=
  Validation.mkRequest Validation.ToyData [] [("position", ""); ("colour", "red")].

End Samples.

(** ** The foreign keys of the database and the route that deletes a schema *)
Module Integrity.
Import Db.

Definition schemaExists (db : Db.t) (schemaId : string) : bool :=
  existsb (fun s => textEq (SchemaRow.id s) schemaId) (schemas db).

Definition columnExists (db : Db.t) (columnId : string) : bool :=
  existsb (fun c => textEq (ColumnRow.id c) columnId) (columns db).

(** The FOREIGN KEY clauses of [createTables] on tables [tables], [columns]
    and [relationships]: each row names rows that exist. *)
Definition relationshipEndsExist (db : Db.t) (r : RelationshipRow.t) : bool :=
  schemaExists db (RelationshipRow.schema_id r)
  && tableExists db (RelationshipRow.source_table_id r)
  && columnExists db (RelationshipRow.source_column_id r)
  && tableExists db (RelationshipRow.target_table_id r)
  && columnExists db (RelationshipRow.target_column_id r).

Definition foreignKeysHold (db : Db.t) : bool :=
  forallb (fun r => schemaExists db (TableRow.schema_id r)) (tables db)
  && forallb (fun c => tableExists db (ColumnRow.table_id c)) (columns db)
  && forallb (relationshipEndsExist db) (relationships db).

(** [DELETE FROM schemas WHERE id = ?] with foreign keys enabled, and the
    number of schema rows it deleted ([result.changes]).  The tables of the
    schema go with it, their columns with them, and every relationship of
    the schema or on one of those tables or columns. *)
Definition deleteSchema (schemaId : string) (db : Db.t) : nat * Db.t :=
  let goneTable tid :=
    existsb (fun r => textEq (TableRow.schema_id r) schemaId && textEq (TableRow.id r) tid)
            (tables db) in
  let goneColumn cid :=
    existsb (fun c => goneTable (ColumnRow.table_id c) && textEq (ColumnRow.id c) cid)
            (columns db) in
  let changes :=
    List.length (filter (fun s => textEq (SchemaRow.id s) schemaId) (schemas db)) in
  match changes with
  | O => (O, db)
  | S _ =>
      (changes,
       Db.mk (filter (fun s => negb (textEq (SchemaRow.id s) schemaId)) (schemas db))
             (filter (fun r => negb (textEq (TableRow.schema_id r) schemaId)) (tables db))
             (filter (fun c => negb (goneTable (ColumnRow.table_id c))) (columns db))
             (filter (fun r => negb (textEq (RelationshipRow.schema_id r) schemaId)
                               && negb (goneTable (RelationshipRow.source_table_id r))
                               && negb (goneTable (RelationshipRow.target_table_id r))
                               && negb (goneColumn (RelationshipRow.source_column_id r))
                               && negb (goneColumn (RelationshipRow.target_column_id r)))
                     (relationships db)))
  end.

Inductive SchemaResponse :=
| SchemaDeleted      (* 200 *)
| SchemaNotFound.    (* 404 *)

(** The handler of DELETE /:schemaId. *)
Definition deleteSchemaRoute (schemaId : string) (db : Db.t) : SchemaResponse * Db.t :=
  let '(changes, db') := deleteSchema schemaId db in
  if (changes =? 0)%nat then (SchemaNotFound, db') else (SchemaDeleted, db').

End Integrity.

(** ** The API client, continued: what [APIClient] does to its inputs
       before a request ([utils/apiClient.js]) *)
Module ApiInput.
Import ApiClient.

Definition isDot (c : ascii) : bool := Ascii.eqb c ".".
Definition isSlash (c : ascii) : bool := Ascii.eqb c "/".

(** [replace(/\.\./g, '')]: the matches of two dots, taken from left to
    right without overlap, are removed. *)
Fixpoint removeDotDot (s : string) : string :=
  match s with
  | EmptyString => EmptyString
  | String a tail =>
      match tail with
      | EmptyString => String a EmptyString
      | String b rest =>
          if isDot a && isDot b then removeDotDot rest
          else String a (removeDotDot tail)
      end
  end.

(** [replace(/\/+/g, '/')]: every run of slashes becomes one slash.
    [inRun] tells that the character before was a slash of the run. *)
Fixpoint collapseSlashes (inRun : bool) (s : string) : string :=
  match s with
  | EmptyString => EmptyString
  | String c rest =>
      if isSlash c
      then (if inRun then collapseSlashes true rest
            else String c (collapseSlashes true rest))
      else String c (collapseSlashes false rest)
  end.

(** [sanitizeEndpoint(endpoint)]. *)
Definition sanitizeEndpoint (endpoint : string) : string :=
  collapseSlashes false (removeDotDot endpoint).

(** Two neighbours of the text are both the character [c]. *)
Fixpoint adjacent (c : ascii) (s : string) : bool :=
  match s with
  | EmptyString => false
  | String a tail =>
      match tail with
      | EmptyString => false
      | String b _ => (Ascii.eqb c a && Ascii.eqb c b) || adjacent c tail
      end
  end.

(** The first character of the text is [c]. *)
Definition headIs (c : ascii) (s : string) : bool :=
  match s with
  | EmptyString => false
  | String a _ => Ascii.eqb c a
  end.

(** The text has no character [c]. *)
Fixpoint without (c : ascii) (s : string) : bool :=
  match s with
  | EmptyString => true
  | String a rest => negb (Ascii.eqb c a) && without c rest
  end.

(** *** [validateUUID] *)

Definition between (lo hi : nat) (c : ascii) : bool :=
  ((lo <=? nat_of_ascii c) && (nat_of_ascii c <=? hi))%nat.

(** The character classes of [uuidRegex], read with its flag [i]. *)
Inductive CharClass :=
| Hex          (* [0-9a-f] *)
| Version      (* [1-5] *)
| Variant      (* [89ab] *)
| Dash.        (* - *)

Definition inClass (class : CharClass) (c : ascii) : bool :=
  match class with
  | Hex => between 48 57 c || between 97 102 c || between 65 70 c
  | Version => between 49 53 c
  | Variant => between 56 57 c || between 97 98 c || between 65 66 c
  | Dash => Ascii.eqb c "-"
  end.

(** [^[0-9a-f]{8}-[0-9a-f]{4}-[1-5][0-9a-f]{3}-[89ab][0-9a-f]{3}-[0-9a-f]{12}$] *)
Definition uuidRegex : list CharClass :=
  (repeat Hex 8 ++ [Dash] ++ repeat Hex 4 ++ [Dash]
   ++ [Version] ++ repeat Hex 3 ++ [Dash]
   ++ [Variant] ++ repeat Hex 3 ++ [Dash] ++ repeat Hex 12)%list.

(** [regex.test(value)] for a pattern that is one class per character
    between [^] and [$]. *)
Fixpoint test (regex : list CharClass) (value : string) : bool :=
  match regex, value with
  | [], EmptyString => true
  | class :: regex', String c value' => inClass class c && test regex' value'
  | _, _ => false
  end.

(** What a validation method does: it returns a value or throws an [Error]
    with a message. *)
Inductive Checked (A : Type) :=
| Returns (value : A)
| Throws (message : string).
Arguments Returns {A} value.
Arguments Throws {A} message.

(** [validateUUID(value, fieldName)].  The empty text is falsy, and it does
    not match either. *)
Definition validateUUID (value : Value) (fieldName : string) : Checked string :=
  match value with
  | VText s =>
      if negb (s =? "") && test uuidRegex s then Returns s
      else Throws ("Invalid " ++ fieldName ++ " format")
  | _ => Throws ("Invalid " ++ fieldName ++ " format")
  end.

(** The endpoint of [deleteTable(schemaId, tableId)] and of
    [updateTable]. *)
Definition tableEndpoint (schemaId tableId : string) : string :=
  "/schemas/" ++ schemaId ++ "/tables/" ++ tableId.

(** What a method hands to [this.request] and [this.request] to axios: the
    endpoint after [sanitizeEndpoint] and the query parameters, as the route
    reads them.  ([sanitizeParams] encodes texts with
    [encodeURIComponent]; the only text among these parameters is a dialect
    of [allowedDialects], which it leaves as it is.) *)
Record Request := mkRequest {
  url : string;
  query : SqlRoute.SqlQuery
}.

(** [generateSQL(schemaId, options)]: it throws, or it sends a GET
    request. *)
Definition generateSQL (schemaId : Value) (options : SQLOptions) : Checked Request :=
  match validateUUID schemaId "Schema ID" with
  | Throws message => Throws message
  | Returns id =>
      Returns (mkRequest (sanitizeEndpoint ("/schemas/" ++ id ++ "/sql"))
                         (params (validateSQLOptions options)))
  end.

(** Sample data: a schema under a well-formed id, with one table. *)
Definition sampleId : string := "123e4567-e89b-42d3-a456-426614174000".

Definition sampleDb : Db.t :=
  Db.mk [Db.SchemaRow.mk sampleId "Shop"]
        [Db.TableRow.mk "9f8e7d6c-5b4a-4321-8abc-0123456789ab" sampleId "users" ""
                        0 0 "#ffffff"]
        [Db.ColumnRow.mk "0a1b2c3d-4e5f-4a6b-8c7d-9e0f1a2b3c4d"
                         "9f8e7d6c-5b4a-4321-8abc-0123456789ab" "id" "INTEGER"
                         None None None true false false true true None None 0]
        [].

(** *** [validateString]

    A text is held as its bytes.  For a text of ASCII characters the bytes
    are the characters [value.length] counts, and the white space below is
    all the white space [trim] knows; for other texts [String.length] and
    [trim] below are not those of JavaScript. *)

(** The text has ASCII characters only. *)
Fixpoint isAscii (s : string) : bool :=
  match s with
  | EmptyString => true
  | String c rest => (nat_of_ascii c <? 128)%nat && isAscii rest
  end.

(** White space of [String.prototype.trim] among the ASCII characters: tab,
    line feed, vertical tab, form feed, carriage return and space. *)
Definition isWhiteSpace (c : ascii) : bool :=
  between 9 13 c || Ascii.eqb c " ".

Fixpoint trimStart (s : string) : string :=
  match s with
  | EmptyString => EmptyString
  | String c rest => if isWhiteSpace c then trimStart rest else s
  end.

Fixpoint trimEnd (s : string) : string :=
  match s with
  | EmptyString => EmptyString
  | String c rest =>
      match trimEnd rest with
      | EmptyString => if isWhiteSpace c then EmptyString else String c EmptyString
      | kept => String c kept
      end
  end.

(** [String.prototype.trim] on ASCII text. *)
Definition trim (s : string) : string := trimEnd (trimStart s).

Fixpoint allWhiteSpace (s : string) : bool :=
  match s with
  | EmptyString => true
  | String c rest => isWhiteSpace c && allWhiteSpace rest
  end.

(** The decimal text of a number in a template literal. *)
Definition decimal (n : nat) : string := NilEmpty.string_of_uint (Nat.to_uint n).

(** [validateString(value, fieldName, minLength, maxLength)]. *)
Definition validateString (value : Value) (fieldName : string) (minLength maxLength : nat)
  : Checked string :=
  match value with
  | VText s =>
      if (String.length s <? minLength)%nat
      then Throws (fieldName ++ " must be at least " ++ decimal minLength ++ " characters")
      else if (maxLength <? String.length s)%nat
      then Throws (fieldName ++ " must be no more than " ++ decimal maxLength
                             ++ " characters")
      else Returns (trim s)
  | _ => Throws (fieldName ++ " must be a string")
  end.

(** [validateSchemaData(data)]: [data.description] is used when it is
    truthy. *)
Record SchemaData := mkSchemaData {
  schemaName : Value;
  schemaDescription : option Value;
  schemaIsPublic : option Value
}.

Record ValidSchemaData := mkValidSchemaData {
  validName : string;
  validDescription : string;
  validIsPublic : bool
}.

Definition validateSchemaData (data : SchemaData) : Checked ValidSchemaData :=
  match validateString (schemaName data) "Schema name" 1 255 with
  | Throws message => Throws message
  | Returns name =>
      let description :=
        match schemaDescription data with
        | Some value =>
            if toBoolean value then validateString value "Description" 0 1000
            else Returns ""
        | None => Returns ""
        end in
      match description with
      | Throws message => Throws message
      | Returns description =>
          Returns (mkValidSchemaData name description
                     (match schemaIsPublic data with
                      | Some value => toBoolean value
                      | None => false
                      end))
      end
  end.

End ApiInput.

(** ** JavaScript numbers, as far as [Math.min], [Math.max] and [||] read
       them *)
Module Num.
Import ZArith QArith.

(** A number is NaN, an infinity or a finite value; finite values compare
    as the rationals they are, and the two zeros are one value. *)
Inductive t :=
| NaN
| NegInf
| Finite (q : Q)
| PosInf.


(** [a <= b]. *)
Definition leb (a b : t) : bool :=
  match a, b with
  | NaN, _ => false
  | _, NaN => false
  | NegInf, _ => true
  | _, PosInf => true
  | Finite x, Finite y => Qle_bool x y
  | _, _ => false
  end.

(** [a === b]. *)
Definition eqb (a b : t) : bool := leb a b && leb b a.

Definition isNaN (a : t) : bool :=
  match a with
  | NaN => true
  | _ => false
  end.


Definition max (a b : t) : t :=
  if isNaN a || isNaN b then NaN else if leb a b then b else a.

(** A number is falsy when it is zero or NaN. *)
Definition truthy (a : t) : bool :=
  match a with
  | NaN => false
  | Finite q => negb (Qeq_bool q 0)
  | _ => true
  end.

(** [a || b]. *)
Definition orElse (a b : t) : t := if truthy a then a else b.


End Num.

(** ** The API client, continued: list parameters and table data *)
Module ApiParams.
Import ApiClient ApiInput.
Local Open Scope list_scope.







(** The data of a new table.  [positionX] and [positionY] hold
    [Number(data.position?.x)] and [Number(data.position?.y)]. *)
Record TableData := mkTableData {
  tableName : Value;
  tableDescription : option Value;
  positionX : Num.t;
  positionY : Num.t
}.



End ApiParams.

(** ** The browser application, continued: the table editor of class
       [SchemaDesigner]

    [editingTable] is a reference to one of the table objects of
    [currentSchema.tables], and [addColumn], [removeColumn] and [saveTable]
    write through it.  The table objects therefore live in a store, and the
    schema and [editingTable] hold addresses into it.

    The functions write markup into the page with [innerHTML] and read the
    controls back; what the browser makes of the markup is taken as it is
    given, and the functions are embedded around it. *)
Module Editor.
Import Designer.
Local Open Scope list_scope.

(** One control of the modal, an [input] or a [select], with the two
    properties [saveTable] reads; [checked] of a control that has none
    reads as [false]. *)
Record Control := mkControl {
  value : string;
  checked : bool
}.

(** One [.column-editor] element of the page: the controls
    [editor.querySelectorAll('input, select')] finds in it, in document
    order. *)
Definition ColumnEditor : Type := list Control.

Record State := mkState {
  objects : list Table.t;              (* the table objects, by address *)
  schemaId : string;
  schemaName : string;
  tables : list nat;                   (* [currentSchema.tables] *)
  relationships : list Relationship.t;
  editingTable : option nat;
  modalShown : bool;
  tableNameInput : string;             (* value of [tableNameInput] *)
  columnEditors : list ColumnEditor;   (* the [.column-editor] elements *)
  sqlOutput : string                   (* value of [sqlOutput] *)
}.

Definition tableAt (d : State) (address : nat) : option Table.t :=
  nth_error (objects d) address.

(** The object at [address] replaced by [table]. *)
Fixpoint setAt (address : nat) (table : Table.t) (store : list Table.t) : list Table.t :=
  match store, address with
  | [], _ => []
  | _ :: rest, O => table :: rest
  | first :: rest, S address' => first :: setAt address' table rest
  end.

Definition tablesOf (d : State) : list Table.t :=
  flat_map (fun address => match tableAt d address with
                           | Some table => [table]
                           | None => []
                           end)
           (tables d).

(** [this.currentSchema], read through the addresses. *)
Definition currentSchema (d : State) : Schema.t :=
  Schema.mk (schemaId d) (schemaName d) (tablesOf d) (relationships d).

Definition withObjects (store : list Table.t) (d : State) : State :=
  mkState store (schemaId d) (schemaName d) (tables d) (relationships d)
          (editingTable d) (modalShown d) (tableNameInput d) (columnEditors d)
          (sqlOutput d).

Definition withEditors (editors : list ColumnEditor) (d : State) : State :=
  mkState (objects d) (schemaId d) (schemaName d) (tables d) (relationships d)
          (editingTable d) (modalShown d) (tableNameInput d) editors (sqlOutput d).

(** [generateSQL()]. *)
Definition generateSQL (d : State) : State :=
  mkState (objects d) (schemaId d) (schemaName d) (tables d) (relationships d)
          (editingTable d) (modalShown d) (tableNameInput d) (columnEditors d)
          (sqlText (currentSchema d)).

(** [closeModal()]. *)
Definition closeModal (d : State) : State :=
  mkState (objects d) (schemaId d) (schemaName d) (tables d) (relationships d)
          None false (tableNameInput d) (columnEditors d) (sqlOutput d).

(** [this.dataTypes]. *)
Definition dataTypes : list string :=
  [ "INTEGER"; "BIGINT"; "VARCHAR(255)"; "TEXT"; "DECIMAL(10,2)";
    "BOOLEAN"; "DATE"; "TIMESTAMP"; "TIME"; "BLOB"; "JSON" ].

(** The value of the select whose options are [dataTypes], the one equal to
    [type] carrying [selected]: that option, or the first option when none
    is selected. *)
Definition selectValue (type : string) : string :=
  match find (String.eqb type) dataTypes with
  | Some option => option
  | None => hd "" dataTypes
  end.

(** The controls the markup of [renderColumnsEditor] spells for one column:
    a text input with the name, the select, and the two checkboxes.  A
    browser builds these when the name of the column brings no markup of
    its own into the row. *)
Definition plainEditor (column : Column.t) : ColumnEditor :=
  [ mkControl (Column.name column) false;
    mkControl (selectValue (Column.type column)) false;
    mkControl "on" (Column.primaryKey column);
    mkControl "on" (Column.required column) ].

(** The column [addColumn] pushes; it has no [unique] property. *)
Definition newColumn : Column.t := Column.mk "new_column" "VARCHAR(255)" false false false.

(** [value || fallback] on a text. *)
Definition orText (value fallback : string) : string :=
  if value =? "" then fallback else value.

(** The column object [saveTable] builds from the controls of one editor:
    [inputs[0].value], [inputs[1].value], [inputs[2].checked] and
    [inputs[3].checked].  With fewer than four controls one of them is
    [undefined], and reading its property throws. *)
Definition savedColumn (inputs : ColumnEditor) : option Column.t :=
  match inputs with
  | name :: type :: primaryKey :: required :: _ =>
      Some (Column.mk (orText (value name) "unnamed_column") (value type)
                      (checked primaryKey) (checked required) false)
  | _ => None
  end.

(** The loop of [saveTable] over the editors: the columns it has pushed, and
    whether it came to its end. *)
Fixpoint savedColumns (editors : list ColumnEditor) : list Column.t * bool :=
  match editors with
  | [] => ([], true)
  | editor :: rest =>
      match savedColumn editor with
      | None => ([], false)
      | Some column =>
          let '(columns, done) := savedColumns rest in (column :: columns, done)
      end
  end.

Section Browser.
(** [renderColumnsEditor(columns)], by what it leaves in the page, the
    [.column-editor] elements with their controls, and whether it returns.
    The function writes the name of each column, as it is, into the markup
    of its row, and the browser builds the elements from that markup; the
    function throws at a row that comes out without its remove button. *)
Variable renderColumnsEditor : list Column.t -> list ColumnEditor * bool.

(** What a text input holds once its [value] has been set to a text. *)
Variable inputValue : string -> string.

(** [renderTables()] and [updateSchemaTree()] return.  They write the names
    of the schema into markup and look elements up in what the browser
    built from it; [renderTables()] throws when a table card comes out
    without its two buttons. *)
Variable renderTables : Schema.t -> bool.
Variable updateSchemaTree : Schema.t -> bool.

(** [editTable(tableId)].  The modal is shown last, when
    [renderColumnsEditor] has returned. *)
Definition editTable (tableId : string) (d : State) : State :=
  let hasId address :=
    match tableAt d address with
    | Some table => Table.id table =? tableId
    | None => false
    end in
  match find hasId (tables d) with
  | None => d
  | Some address =>
      match tableAt d address with
      | None => d
      | Some table =>
          let '(editors, returned) := renderColumnsEditor (Table.columns table) in
          mkState (objects d) (schemaId d) (schemaName d) (tables d) (relationships d)
                  (Some address) (if returned then true else modalShown d)
                  (inputValue (Table.name table)) editors (sqlOutput d)
      end
  end.

(** The columns of the table [editingTable] refers to, replaced, and the
    editors written anew; nothing follows the call of [renderColumnsEditor],
    so the state is the same whether it returns or throws. *)
Definition writeColumns (change : list Column.t -> list Column.t) (d : State) : State :=
  match editingTable d with
  | None => d
  | Some address =>
      match tableAt d address with
      | None => d
      | Some table =>
          let columns := change (Table.columns table) in
          withEditors (fst (renderColumnsEditor columns))
            (withObjects (setAt address
                                (Table.mk (Table.id table) (Table.name table) columns)
                                (objects d)) d)
      end
  end.

(** [addColumn()]. *)
Definition addColumn (d : State) : State :=
  writeColumns (fun columns => columns ++ [newColumn]) d.

(** [removeColumn(index)]: [columns.splice(index, 1)]. *)
Definition removeColumn (index : nat) (d : State) : State :=
  writeColumns (fun columns => firstn index columns ++ skipn (S index) columns) d.

(** [saveTable()].  The name and the columns are written into the table
    object first; an editor without its four controls throws in the middle
    of the loop, and then the modal stays open.  After the loop the modal is
    closed and the page is redrawn; [generateSQL()] comes last and is not
    reached when the redrawing throws. *)
Definition saveTable (d : State) : State :=
  match editingTable d with
  | None => d
  | Some address =>
      match tableAt d address with
      | None => d
      | Some table =>
          let '(columns, done) := savedColumns (columnEditors d) in
          let written :=
            withObjects
              (setAt address
                     (Table.mk (Table.id table) (orText (tableNameInput d) "unnamed_table")
                               columns)
                     (objects d)) d in
          if done then
            let closed := closeModal written in
            if renderTables (currentSchema closed) && updateSchemaTree (currentSchema closed)
            then generateSQL closed
            else closed
          else written
      end
  end.

End Browser.

(** A browser at names without markup: every column gets its plain editor,
    a text input holds the text it was given, and redrawing returns. *)
Definition plainEditors (columns : list Column.t) : list ColumnEditor * bool :=
  (map plainEditor columns, true).

Definition sameText (text : string) : string := text.

Definition redrawn (_ : Schema.t) : bool := true.

(** The preview shows the SQL of the schema as it is. *)
Definition previewCurrent (d : State) : bool :=
  sqlOutput d =? sqlText (currentSchema d).

(** Sample data: two tables of the E-commerce template. *)
Definition templateUsers : Table.t :=
  Table.mk "users" "users"
    [ Column.mk "id" "INTEGER" true true false;
      Column.mk "email" "VARCHAR(255)" false true true;
      Column.mk "first_name" "VARCHAR(100)" false false false ].

Definition templateOrders : Table.t :=
  Table.mk "orders" "orders"
    [ Column.mk "id" "INTEGER" true true false;
      Column.mk "user_id" "INTEGER" false true false ].

Definition templateRelationship : Relationship.t :=
  Relationship.mk "user_orders" "users" "id" "orders" "user_id" "one-to-many" None None.

Definition templateState : State :=
  generateSQL
    (mkState [templateUsers; templateOrders] "ecommerce" "E-commerce Schema" [0; 1]
             [templateRelationship] None false "" [] "").

(** The [users] table open in the editor, with [customers] typed as its
    name. *)
Definition renamingState : State :=
  mkState [templateUsers; templateOrders] "ecommerce" "E-commerce Schema" [0; 1]
          [templateRelationship] (Some 0) true "customers"
          (map plainEditor (Table.columns templateUsers))
          (sqlOutput templateState).

End Editor.

(** ** The validation middleware, continued: [validateUUID] and
       [validateUUIDs] for route parameters *)
Module ParamValidation.

(** [req.params]: the values Express took from the [:name] segments of the
    route path, by name. *)
Definition Params : Type := list (string * string).

Fixpoint lookup (paramName : string) (params : Params) : option string :=
  match params with
  | [] => None
  | (name, value) :: rest => if name =? paramName then Some value else lookup paramName rest
  end.

(** What a middleware does: it answers the request, or it calls [next()]. *)
Inductive Outcome :=
| Answer (status : nat) (code message : string) (details : list string)
| Next.

Section Joi.
(** [Joi.string().uuid()] on a text, taken as Joi decides it. *)
Variable isUuid : string -> bool.

(** [Joi.string().uuid().required().validate(uuid)] has an [error]:
    [required()] refuses [undefined]. *)
Definition uuidError (uuid : option string) : bool :=
  match uuid with
  | Some text => negb (isUuid text)
  | None => true
  end.

(** The middleware returned by [validateUUID(paramName)]. *)
Definition validateUUID (paramName : string) (params : Params) : Outcome :=
  if uuidError (lookup paramName params)
  then Answer 400 "INVALID_UUID" ("Invalid " ++ paramName ++ " format") []
  else Next.

(** The middleware returned by [validateUUIDs(...paramNames)]. *)
Definition validateUUIDs (paramNames : list string) (params : Params) : Outcome :=
  let errors :=
    flat_map (fun paramName =>
                if uuidError (lookup paramName params)
                then ["Invalid " ++ paramName ++ " format"]
                else [])
             paramNames in
  if (0 <? List.length errors)%nat
  then Answer 400 "INVALID_PARAMETERS" "Invalid parameter format" errors
  else Next.

(** A route of a router: the names of the [:name] segments of its path, and
    its middlewares after [authenticate]. *)
Section Route.
Variables (Request Response : Type).
(** [authenticate] and the handler of the route, as they are given. *)
Variable authenticate : Request -> option Response.
Variable handler : Request -> Response.
Variable answer : Outcome -> Response.

(** [router.post('/analyze', authenticate, validateUUID('schemaId'),
    handler)]: the path has no parameter, so [req.params] is empty. *)
Definition analyze (req : Request) : Response :=
  match authenticate req with
  | Some refused => refused
  | None =>
      match validateUUID "schemaId" [] with
      | Next => handler req
      | refused => answer refused
      end
  end.

(** [router.get('/suggestions/:schemaId', authenticate,
    validateUUID('schemaId'), handler)]. *)
Definition suggestions (schemaId : string) (req : Request) : Response :=
  match authenticate req with
  | Some refused => refused
  | None =>
      match validateUUID "schemaId" [("schemaId", schemaId)] with
      | Next => handler req
      | refused => answer refused
      end
  end.

End Route.
End Joi.

(** A stand-in for Joi's test, used to run the middleware: 36 characters. *)
Definition toyUuid (text : string) : bool := (String.length text =? 36)%nat.

End ParamValidation.

(** ** The AI routes: [analyzeSchema] *)
Module Ai.
Import ZArith.
Import Db.
Local Open Scope list_scope.

Record Issue := mkIssue {
  type : string;
  severity : string;
  message : string;
  table : option string;
  suggestion : string
}.

Record Summary := mkSummary {
  tablesCount : nat;
  columnsCount : nat;
  relationshipsCount : nat
}.

Record Analysis := mkAnalysis {
  score : Z;
  issues : list Issue;
  recommendations : list string;
  summary : Summary
}.

(** The tables none of whose columns is a primary key. *)
Definition tablesWithoutPK (tables : list TableRow.t) (columns : list ColumnRow.t)
  : list TableRow.t :=
  filter (fun table =>
            let tableColumns :=
              filter (fun col => ColumnRow.table_id col =? TableRow.id table) columns in
            negb (existsb ColumnRow.is_primary_key tableColumns))
         tables.

(** [tables.filter(table => table.name.length > 30)]; the name of a row is
    held as the UTF-8 bytes SQLite stores. *)
Definition longNameTables (tables : list TableRow.t) : list TableRow.t :=
  filter (fun table => (30 <? JS.utf16Length (TableRow.name table))%nat) tables.

(** [analyzeSchema(tables, columns, relationships)]. *)
Definition analyzeSchema (tables : list TableRow.t) (columns : list ColumnRow.t)
           (relationships : list RelationshipRow.t) : Analysis :=
  let issues := [] in
  let score := 100%Z in
  let withoutPK := tablesWithoutPK tables columns in
  let '(score, issues) :=
    if (0 <? List.length withoutPK)%nat
    then ((score - 20)%Z,
          issues ++ map (fun table =>
                           mkIssue "primary_key" "high" "Table missing primary key"
                                   (Some (TableRow.name table))
                                   "Add a primary key column to ensure unique row identification")
                        withoutPK)
    else (score, issues) in
  let '(score, issues) :=
    if (0 <? List.length (longNameTables tables))%nat
    then ((score - 5)%Z,
          issues ++ [mkIssue "naming" "low" "Table names are too long" None
                             "Consider shorter, more concise table names"])
    else (score, issues) in
  let '(score, issues) :=
    if (1 <? List.length tables)%nat && (List.length relationships =? 0)%nat
    then ((score - 15)%Z,
          issues ++ [mkIssue "relationships" "medium"
                             "No relationships defined between tables" None
                             "Consider adding foreign key relationships to maintain data integrity"])
    else (score, issues) in
  let recommendations :=
    if (List.length tables =? 0)%nat
    then ["Start by adding your first table"]
    else ["Add indexes on frequently queried columns";
          "Consider adding audit timestamps (created_at, updated_at)";
          "Ensure all foreign key constraints are properly defined"] in
  mkAnalysis (Z.max 0 score) issues recommendations
             (mkSummary (List.length tables) (List.length columns)
                        (List.length relationships)).

End Ai.

(** ** The store, continued: the other synchronous actions on the current
       schema ([stores/schemaStore.js]) *)
Module StoreActions.
Import Store.
Local Open Scope list_scope.

(** The current schema rewritten, when there is one. *)
Definition onSchema (change : Schema -> Schema) (state : State) : State :=
  {| currentSchema := option_map change (currentSchema state);
     selectedTable := selectedTable state;
     editingTable := editingTable state |}.

(** [addTable(table)]. *)
Definition addTable (table : Table) (state : State) : State :=
  onSchema (fun schema => {| schema_id := schema_id schema;
                             tables := tables schema ++ [table];
                             relationships := relationships schema |}) state.

(** [addRelationship(relationship)]. *)
Definition addRelationship (relationship : Relationship) (state : State) : State :=
  onSchema (fun schema => {| schema_id := schema_id schema;
                             tables := tables schema;
                             relationships := relationships schema ++ [relationship] |})
           state.

(** [removeRelationship(relationshipId)]. *)
Definition removeRelationship (relationshipId : string) (state : State) : State :=
  onSchema (fun schema => {| schema_id := schema_id schema;
                             tables := tables schema;
                             relationships :=
                               filter (fun r => negb (relationship_id r =? relationshipId))
                                      (relationships schema) |})
           state.

End StoreActions.

(* ================================================================== *)
(** * Part II. Lemmas and theorems *)
(* ================================================================== *)

(** ** Strings *)
Section StringFacts.
Import JS.

Lemma append_assoc (a b c : string) : (a ++ b) ++ c = a ++ (b ++ c).
Proof. induction a as [|x a IH]; simpl; [reflexivity | now rewrite IH]. Qed.

Lemma append_empty_r (a : string) : a ++ "" = a.
Proof. induction a as [|x a IH]; simpl; [reflexivity | now rewrite IH]. Qed.

Lemma concat_empty_cons (x : string) (xs : list string) :
  String.concat "" (x :: xs) = x ++ String.concat "" xs.
Proof.
  destruct xs as [|y ys]; simpl.
  - now rewrite append_empty_r.
  - reflexivity.
Qed.

Lemma concat_empty_app (xs ys : list string) :
  String.concat "" (xs ++ ys)%list = String.concat "" xs ++ String.concat "" ys.
Proof.
  induction xs as [|x xs IH].
  - reflexivity.
  - change ((x :: xs) ++ ys)%list with (x :: (xs ++ ys))%list.
    now rewrite !concat_empty_cons, IH, append_assoc.
Qed.

(** An occurrence of [needle] cannot run across a character that [needle]
    does not have. *)
Lemma startsWith_sep (needle a b : string) (c : ascii) :
  ~ In c (list_ascii_of_string needle) ->
  startsWith (a ++ String c b) needle = startsWith a needle.
Proof.
  revert a. induction needle as [|x needle IH]; intros a Hc.
  - now destruct a.
  - destruct a as [|y a]; simpl.
    + destruct (Ascii.eqb_spec x c) as [->|_]; [|reflexivity].
      exfalso. apply Hc. now left.
    + rewrite IH; [reflexivity|]. intros Hin. apply Hc. now right.
Qed.

Lemma includes_sep (needle a b : string) (c : ascii) :
  ~ In c (list_ascii_of_string needle) ->
  includes (a ++ String c b) needle = includes a needle || includes b needle.
Proof.
  intros Hc. induction a as [|y a IH].
  - change ("" ++ String c b) with (String c b).
    cbn [includes].
    change (String c b) with ("" ++ String c b) at 1.
    rewrite (startsWith_sep needle "" b c Hc).
    now rewrite orb_false_r.
  - change (String y a ++ String c b) with (String y (a ++ String c b)).
    cbn [includes].
    change (String y (a ++ String c b)) with (String y a ++ String c b).
    rewrite (startsWith_sep needle (String y a) b c Hc), IH.
    now rewrite orb_assoc.
Qed.

Lemma includes_sep_false (needle a b : string) (c : ascii) :
  ~ In c (list_ascii_of_string needle) ->
  includes a needle = false -> includes b needle = false ->
  includes (a ++ String c b) needle = false.
Proof. intros Hc Ha Hb. now rewrite includes_sep, Ha, Hb. Qed.

End StringFacts.

(** ** The browser application's generator *)
Section DesignerFacts.
Import JS Designer.

Lemma emitTable_append (sql : string) (t : Table.t) :
  emitTable sql t = sql ++ createStatement t.
Proof.
  unfold createStatement, emitTable. cbn zeta.
  now rewrite !append_assoc.
Qed.

Lemma emitRelationship_append (sql : string) (r : Relationship.t) :
  emitRelationship sql r = sql ++ alterStatement r.
Proof.
  unfold alterStatement, emitRelationship. cbn zeta.
  now rewrite !append_assoc.
Qed.

Lemma fold_emitTable (ts : list Table.t) (sql : string) :
  fold_left emitTable ts sql = sql ++ String.concat "" (map createStatement ts).
Proof.
  revert sql. induction ts as [|t ts IH]; intros sql.
  - simpl. now rewrite append_empty_r.
  - cbn [fold_left map]. rewrite IH, emitTable_append, concat_empty_cons.
    now rewrite append_assoc.
Qed.

Lemma fold_emitRelationship (rs : list Relationship.t) (sql : string) :
  fold_left emitRelationship rs sql = sql ++ String.concat "" (map alterStatement rs).
Proof.
  revert sql. induction rs as [|r rs IH]; intros sql.
  - simpl. now rewrite append_empty_r.
  - cbn [fold_left map]. rewrite IH, emitRelationship_append, concat_empty_cons.
    now rewrite append_assoc.
Qed.

(** The output is its statements, one after the other. *)
Lemma sqlText_statements (s : Schema.t) :
  sqlText s = String.concat "" (statements s).
Proof.
  unfold sqlText, statements. cbn zeta.
  rewrite fold_emitRelationship, fold_emitTable, concat_empty_app.
  reflexivity.
Qed.

(** The text of one CREATE TABLE statement and of one ALTER TABLE
    statement, written out. *)
Lemma createStatement_text (t : Table.t) :
  createStatement t =
  "CREATE TABLE " ++ Table.name t ++ " (" ++ nl
    ++ join ("," ++ nl) (map columnDefinition (Table.columns t))
    ++ nl ++ ");" ++ nl ++ nl.
Proof.
  unfold createStatement, emitTable. cbn zeta.
  rewrite !append_assoc. reflexivity.
Qed.

Lemma alterStatement_text (r : Relationship.t) :
  alterStatement r =
  "ALTER TABLE " ++ Relationship.targetTable r
    ++ " ADD CONSTRAINT " ++ constraintName r
    ++ " FOREIGN KEY (" ++ Relationship.targetColumn r
    ++ ") REFERENCES " ++ Relationship.sourceTable r
    ++ "(" ++ Relationship.sourceColumn r ++ ");" ++ nl ++ nl.
Proof.
  unfold alterStatement, emitRelationship, constraintName. cbn zeta.
  rewrite !append_assoc. reflexivity.
Qed.

Lemma columnDefinition_text (c : Column.t) :
  columnDefinition c =
  "  " ++ Column.name c ++ " " ++ Column.type c
    ++ (if Column.primaryKey c then " PRIMARY KEY"
        else if Column.required c then " NOT NULL" else "").
Proof.
  unfold columnDefinition.
  destruct (Column.primaryKey c), (Column.required c); cbn;
    rewrite ?append_assoc, ?append_empty_r; reflexivity.
Qed.

Lemma create_is_create (t : Table.t) : isCreateTable (createStatement t) = true.
Proof. lazy. reflexivity. Qed.

Lemma create_not_alter (t : Table.t) : isAlterTable (createStatement t) = false.
Proof. lazy. reflexivity. Qed.

Lemma alter_is_alter (r : Relationship.t) : isAlterTable (alterStatement r) = true.
Proof. lazy. reflexivity. Qed.

Lemma alter_not_create (r : Relationship.t) : isCreateTable (alterStatement r) = false.
Proof. lazy. reflexivity. Qed.

(** Position of a statement in the output, by its kind. *)
Lemma create_position (s : Schema.t) (i : nat) (st : string) :
  nth_error (statements s) i = Some st ->
  isCreateTable st = true -> i < length (Schema.tables s).
Proof.
  unfold statements. intros Hnth Hc.
  destruct (Nat.lt_ge_cases i (length (Schema.tables s))) as [Hlt|Hge]; [exact Hlt|].
  rewrite nth_error_app2 in Hnth by (now rewrite length_map).
  apply nth_error_In, in_map_iff in Hnth. destruct Hnth as [r [<- _]].
  now rewrite alter_not_create in Hc.
Qed.

Lemma alter_position (s : Schema.t) (j : nat) (st : string) :
  nth_error (statements s) j = Some st ->
  isAlterTable st = true -> length (Schema.tables s) <= j.
Proof.
  unfold statements. intros Hnth Ha.
  destruct (Nat.lt_ge_cases j (length (Schema.tables s))) as [Hlt|Hge]; [|exact Hge].
  rewrite nth_error_app1 in Hnth by (now rewrite length_map).
  apply nth_error_In, in_map_iff in Hnth. destruct Hnth as [t [<- _]].
  now rewrite create_not_alter in Ha.
Qed.

End DesignerFacts.

(** ** Keywords in a CREATE TABLE statement *)
Section KeywordFree.
Import JS Designer.

(** A keyword that has none of the separating characters of the statement
    and occurs in none of its fixed words. *)
Variable kw : string.
Hypothesis kw_sep :
  forall c, In c [" "; ascii_of_nat 10; "("; ")"; ","; ";"]%char ->
            ~ In c (list_ascii_of_string kw).
Hypothesis kw_fixed :
  forall w, In w [""; "CREATE"; "TABLE"; "PRIMARY"; "KEY"; "NOT"; "NULL"; "("; ")"] ->
            includes w kw = false.

Local Ltac sep_char := apply kw_sep; cbn; tauto.
Local Ltac fixed_word := apply kw_fixed; cbn; tauto.
Local Ltac cut_at := apply includes_sep_false; [sep_char | |].

Lemma columnDefinition_free (c : Column.t) :
  includes (Column.name c) kw = false ->
  includes (Column.type c) kw = false ->
  includes (columnDefinition c) kw = false.
Proof.
  intros Hn Ht. rewrite columnDefinition_text.
  destruct (Column.primaryKey c); [|destruct (Column.required c)].
  - change (includes ("" ++ String " " ("" ++ String " " (Column.name c ++ String " "
             (Column.type c ++ String " " ("PRIMARY" ++ String " " "KEY"))))) kw = false).
    repeat cut_at; try assumption; fixed_word.
  - change (includes ("" ++ String " " ("" ++ String " " (Column.name c ++ String " "
             (Column.type c ++ String " " ("NOT" ++ String " " "NULL"))))) kw = false).
    repeat cut_at; try assumption; fixed_word.
  - rewrite append_empty_r.
    change (includes ("" ++ String " " ("" ++ String " " (Column.name c ++ String " "
             (Column.type c)))) kw = false).
    repeat cut_at; try assumption; fixed_word.
Qed.

Lemma join_free (defs : list string) :
  (forall d, In d defs -> includes d kw = false) ->
  includes (join ("," ++ nl) defs) kw = false.
Proof.
  unfold join. induction defs as [|d defs IH]; intros Hall.
  - fixed_word.
  - destruct defs as [|d' defs].
    + apply Hall. now left.
    + change (includes (d ++ String "," ("" ++ String (ascii_of_nat 10)
               (String.concat ("," ++ nl) (d' :: defs)))) kw = false).
      cut_at; [apply Hall; now left|].
      cut_at; [fixed_word|].
      apply IH. intros x Hx. apply Hall. now right.
Qed.

Lemma createStatement_free (t : Table.t) :
  (forall w, In w (tableWords t) -> includes w kw = false) ->
  includes (createStatement t) kw = false.
Proof.
  intros Hw. rewrite createStatement_text.
  change (includes ("CREATE" ++ String " " ("TABLE" ++ String " " (Table.name t ++ String " "
           ("(" ++ String (ascii_of_nat 10)
             (join ("," ++ nl) (map columnDefinition (Table.columns t))
               ++ String (ascii_of_nat 10) (")" ++ String ";"
                    ("" ++ String (ascii_of_nat 10) ("" ++ String (ascii_of_nat 10) "")))))))) kw
          = false).
  cut_at; [fixed_word|].
  cut_at; [fixed_word|].
  cut_at; [apply Hw; now left|].
  cut_at; [fixed_word|].
  cut_at.
  - apply join_free. intros d Hd. apply in_map_iff in Hd.
    destruct Hd as [c [<- Hc]].
    apply columnDefinition_free; apply Hw; right; apply in_flat_map;
      exists c; (split; [exact Hc | cbn; tauto]).
  - repeat cut_at; fixed_word.
Qed.

End KeywordFree.

Section DesignerForeignKeys.
Import JS Designer.

Lemma noForeignKeyWords_spec (t : Table.t) :
  noForeignKeyWords t = true ->
  forall w, In w (tableWords t) ->
    includes w "FOREIGN" = false /\ includes w "REFERENCES" = false.
Proof.
  unfold noForeignKeyWords. intros H w Hw.
  rewrite forallb_forall in H. specialize (H w Hw).
  apply andb_true_iff in H. destruct H as [H1 H2].
  now rewrite negb_true_iff in H1, H2.
Qed.

Lemma createStatement_no_foreign_key (t : Table.t) :
  noForeignKeyWords t = true ->
  includes (createStatement t) "FOREIGN" = false /\
  includes (createStatement t) "REFERENCES" = false.
Proof.
  intros H. split; apply createStatement_free.
  - intros c Hc Hin. cbn in Hc, Hin.
    repeat (destruct Hc as [<-|Hc]; [repeat (destruct Hin as [Hin|Hin]; [discriminate Hin|]); exact Hin|]).
    exact Hc.
  - intros w Hw. cbn in Hw.
    repeat (destruct Hw as [<-|Hw]; [reflexivity|]). contradiction.
  - intros w Hw. now apply (noForeignKeyWords_spec t H).
  - intros c Hc Hin. cbn in Hc, Hin.
    repeat (destruct Hc as [<-|Hc]; [repeat (destruct Hin as [Hin|Hin]; [discriminate Hin|]); exact Hin|]).
    exact Hc.
  - intros w Hw. cbn in Hw.
    repeat (destruct Hw as [<-|Hw]; [reflexivity|]). contradiction.
  - intros w Hw. now apply (noForeignKeyWords_spec t H).
Qed.

End DesignerForeignKeys.

(** ** Table deletion in the browser application *)
Section DesignerDelete.
Import JS Designer.

Lemma deleteTable_schema (redrawn : bool) (tableId : string) (d : State) :
  Schema.tables (currentSchema (deleteTable true redrawn tableId d)) =
    filter (fun t => negb (Table.id t =? tableId)) (Schema.tables (currentSchema d))
  /\ Schema.relationships (currentSchema (deleteTable true redrawn tableId d)) =
    filter (fun r => negb (Relationship.sourceTable r =? tableId)
                     && negb (Relationship.targetTable r =? tableId))
           (Schema.relationships (currentSchema d)).
Proof. destruct redrawn; split; reflexivity. Qed.

Lemma deleteTable_relationships (redrawn : bool) (tableId : string) (d : State)
      (r : Relationship.t) :
  In r (Schema.relationships (currentSchema (deleteTable true redrawn tableId d)))
  <-> In r (Schema.relationships (currentSchema d))
      /\ Relationship.sourceTable r <> tableId /\ Relationship.targetTable r <> tableId.
Proof.
  destruct (deleteTable_schema redrawn tableId d) as [_ ->].
  rewrite filter_In, andb_true_iff, !negb_true_iff, !String.eqb_neq. tauto.
Qed.

End DesignerDelete.

(** ** Claims about the browser application's generator *)
Section DesignerClaims.
Import JS Designer.

(** C1.  For every schema, cyclic or not, [generateSQL] writes the
    statements of the schema one after the other: one CREATE TABLE
    statement for each table, then one ALTER TABLE ... ADD CONSTRAINT
    statement for each relationship, none left out and none refused.  Every
    CREATE TABLE statement stands before every ALTER TABLE statement.  A
    CREATE TABLE statement is built from its table alone, and when no name
    or type of the table spells FOREIGN or REFERENCES the statement has no
    foreign-key clause. *)
Theorem generateSQL_two_phase (d : State) :
  let s := currentSchema d in
  sqlOutput (generateSQL d) = String.concat "" (statements s)
  /\ List.length (statements s)
     = List.length (Schema.tables s) + List.length (Schema.relationships s)
  /\ (forall i j a b,
        nth_error (statements s) i = Some a ->
        nth_error (statements s) j = Some b ->
        isCreateTable a = true -> isAlterTable b = true -> i < j)
  /\ (forall st, In st (statements s) -> isCreateTable st = true ->
        exists t, In t (Schema.tables s) /\ st = createStatement t)
  /\ (forall t, In t (Schema.tables s) -> noForeignKeyWords t = true ->
        includes (createStatement t) "FOREIGN" = false
        /\ includes (createStatement t) "REFERENCES" = false).
Proof.
  intros s. split; [|split; [|split; [|split]]].
  - apply sqlText_statements.
  - unfold statements. now rewrite length_app, !length_map.
  - intros i j a b Ha Hb Hca Hab.
    pose proof (create_position s i a Ha Hca).
    pose proof (alter_position s j b Hb Hab). lia.
  - intros st Hin Hc. unfold statements in Hin.
    apply in_app_or in Hin. destruct Hin as [Hin|Hin];
      apply in_map_iff in Hin; destruct Hin as [x [<- Hx]].
    + now exists x.
    + now rewrite alter_not_create in Hc.
  - intros t _ Hfk. exact (createStatement_no_foreign_key t Hfk).
Qed.

Lemma generateSQL_two_phase_witness :
  sqlOutput (generateSQL (mkState cycleSchema None None ""))
    = String.concat "" (statements cycleSchema)
  /\ 1 < 2
  /\ includes
       (createStatement (Table.mk "A" "A" [col "id" "INTEGER" true true false;
                                           col "b_id" "INTEGER" false false false]))
       "REFERENCES" = false.
Proof.
  destruct (generateSQL_two_phase (mkState cycleSchema None None ""))
    as (Hout & _ & Horder & _ & Hfk).
  split; [exact Hout|]. split.
  - apply (Horder 1 2 _ _ eq_refl eq_refl); reflexivity.
  - apply Hfk; [left; reflexivity | reflexivity].
Defined.

(** C2.  [generateSQL] is deterministic: the text it writes depends on the
    schema alone, so two runs on the same schema write the same text,
    character for character, whatever else the two application states
    hold (the selection, the table being edited, the text written
    before). *)
Theorem generateSQL_deterministic (d1 d2 : State) :
  currentSchema d1 = currentSchema d2 ->
  sqlOutput (generateSQL d1) = sqlOutput (generateSQL d2).
Proof. intros H. cbn. now rewrite H. Qed.

Lemma generateSQL_deterministic_witness :
  sqlOutput (generateSQL (mkState ordersSchema None None ""))
  = sqlOutput (generateSQL (mkState ordersSchema (Some usersTable) (Some ordersTable)
                                    "CREATE TABLE old (...)")).
Proof. apply generateSQL_deterministic. reflexivity. Defined.

(** C3, as the claim states it, fails: for the table [users] with the
    required and unique column [email] the output has no column definition
    [email VARCHAR(255) NOT NULL UNIQUE]. *)
Lemma generateSQL_unique_not_rendered :
  Column.unique (col "email" "VARCHAR(255)" false true true) = true
  /\ In (col "email" "VARCHAR(255)" false true true) (Table.columns usersTable)
  /\ includes (sqlOutput (generateSQL (mkState usersSchema None None "")))
              "email VARCHAR(255) NOT NULL UNIQUE" = false.
Proof.
  split; [reflexivity|]. split; [right; left; reflexivity|].
  vm_compute. reflexivity.
Qed.

(** C3, amended.  Each column is rendered as two blanks, its name, its
    type and then PRIMARY KEY when it is a primary key, or else NOT NULL
    when it is required; the [unique] property changes nothing, and no
    UNIQUE, DEFAULT or auto-increment text follows.  For the single table
    [users] the output is the one CREATE TABLE statement below, with the
    column definition [email VARCHAR(255) NOT NULL], and it has no ALTER
    and no DROP. *)
Theorem columnDefinition_flags :
  (forall c, columnDefinition c =
             "  " ++ Column.name c ++ " " ++ Column.type c
               ++ (if Column.primaryKey c then " PRIMARY KEY"
                   else if Column.required c then " NOT NULL" else ""))
  /\ (forall n ty pk req, columnDefinition (col n ty pk req true)
                          = columnDefinition (col n ty pk req false))
  /\ sqlOutput (generateSQL (mkState usersSchema None None ""))
     = "CREATE TABLE users (" ++ nl
         ++ "  id INTEGER PRIMARY KEY," ++ nl
         ++ "  email VARCHAR(255) NOT NULL" ++ nl
         ++ ");" ++ nl ++ nl
  /\ includes (sqlOutput (generateSQL (mkState usersSchema None None "")))
              "email VARCHAR(255) NOT NULL" = true
  /\ includes (sqlOutput (generateSQL (mkState usersSchema None None ""))) "UNIQUE" = false
  /\ includes (sqlOutput (generateSQL (mkState usersSchema None None ""))) "ALTER" = false
  /\ includes (sqlOutput (generateSQL (mkState usersSchema None None ""))) "DROP" = false.
Proof.
  split; [exact columnDefinition_text|].
  split; [reflexivity|].
  split; [vm_compute; reflexivity|].
  split; [vm_compute; reflexivity|].
  split; [vm_compute; reflexivity|].
  split; vm_compute; reflexivity.
Qed.

(** C5, as the claim states it, fails: two relationships between [orders]
    and [users] get the same constraint name, with no number after it. *)
Lemma constraint_names_repeat :
  userOrders <> approverOrders
  /\ map constraintName (Schema.relationships twoLinksSchema)
     = ["fk_orders_users"; "fk_orders_users"]
  /\ ~ NoDup (map constraintName (Schema.relationships twoLinksSchema))
  /\ statements twoLinksSchema =
       [ createStatement usersTable; createStatement ordersTable;
         "ALTER TABLE orders ADD CONSTRAINT fk_orders_users FOREIGN KEY (user_id) REFERENCES users(id);" ++ nl ++ nl;
         "ALTER TABLE orders ADD CONSTRAINT fk_orders_users FOREIGN KEY (approver_id) REFERENCES users(id);" ++ nl ++ nl ].
Proof.
  split; [discriminate|]. split; [reflexivity|]. split.
  - intros H. cbn in H. inversion H as [|x l Hnotin _]. apply Hnotin. now left.
  - vm_compute. reflexivity.
Qed.

(** C5, amended.  Every ALTER TABLE statement names its constraint
    fk_<targetTable>_<sourceTable> and nothing is put after that name: two
    relationships that join the same target and source table get the same
    constraint name. *)
Theorem constraint_name_is_pair (r1 r2 : Relationship.t) :
  (alterStatement r1 =
     "ALTER TABLE " ++ Relationship.targetTable r1
       ++ " ADD CONSTRAINT " ++ constraintName r1
       ++ " FOREIGN KEY (" ++ Relationship.targetColumn r1
       ++ ") REFERENCES " ++ Relationship.sourceTable r1
       ++ "(" ++ Relationship.sourceColumn r1 ++ ");" ++ nl ++ nl)
  /\ constraintName r1
     = "fk_" ++ Relationship.targetTable r1 ++ "_" ++ Relationship.sourceTable r1
  /\ (Relationship.targetTable r1 = Relationship.targetTable r2 ->
      Relationship.sourceTable r1 = Relationship.sourceTable r2 ->
      constraintName r1 = constraintName r2).
Proof.
  split; [apply alterStatement_text|]. split; [reflexivity|].
  intros Ht Hs. unfold constraintName. now rewrite Ht, Hs.
Qed.

Lemma constraint_name_is_pair_witness :
  constraintName userOrders = constraintName approverOrders.
Proof.
  apply (constraint_name_is_pair userOrders approverOrders); reflexivity.
Defined.

End DesignerClaims.

(** ** Referential actions *)
Section ReferentialActions.
Import JS Designer.

Lemma relationshipData_actions (db : Db.t) (rel : Db.RelationshipRow.t)
      (data : SqlRoute.RelationshipData.t) :
  SqlRoute.relationshipData db rel = Some data ->
  SqlRoute.RelationshipData.onDelete data = Db.RelationshipRow.on_delete rel
  /\ SqlRoute.RelationshipData.onUpdate data = Db.RelationshipRow.on_update rel.
Proof.
  unfold SqlRoute.relationshipData.
  destruct (find _ (Db.tables db)) as [st|]; [|discriminate].
  destruct (find _ (Db.columns db)) as [sc|]; [|discriminate].
  destruct (find _ (Db.tables db)) as [tg|]; [|discriminate].
  destruct (find _ (Db.columns db)) as [tc|]; [|discriminate].
  intros H. injection H as <-. now split.
Qed.

(** C4, as the claim states it, fails: for the relationship from [users] to
    [orders] with onDelete and onUpdate CASCADE the ALTER TABLE statement
    of the output ends after the REFERENCES clause and the output has no
    ON DELETE and no ON UPDATE. *)
Lemma generateSQL_no_referential_actions :
  Relationship.onDelete userOrders = Some "CASCADE"
  /\ Relationship.onUpdate userOrders = Some "CASCADE"
  /\ nth_error (statements ordersSchema) 2
     = Some ("ALTER TABLE orders ADD CONSTRAINT fk_orders_users FOREIGN KEY (user_id) REFERENCES users(id);" ++ nl ++ nl)
  /\ includes (sqlOutput (generateSQL (mkState ordersSchema None None "")))
              "ON DELETE CASCADE ON UPDATE CASCADE" = false
  /\ includes (sqlOutput (generateSQL (mkState ordersSchema None None ""))) "ON DELETE" = false
  /\ includes (sqlOutput (generateSQL (mkState ordersSchema None None ""))) "ON UPDATE" = false.
Proof.
  split; [reflexivity|]. split; [reflexivity|].
  split; [vm_compute; reflexivity|].
  split; [vm_compute; reflexivity|].
  split; vm_compute; reflexivity.
Qed.

(** C4, amended.  The ALTER TABLE ... ADD CONSTRAINT statement that
    [generateSQL] emits for a relationship is the text below, which ends
    after the REFERENCES clause: it is the same whatever ON DELETE and ON
    UPDATE actions the relationship has.  The actions of a relationship row
    go, unchanged, into the object the SQL route hands to its generator. *)
Theorem alterStatement_without_actions :
  (forall r,
     alterStatement r =
       "ALTER TABLE " ++ Relationship.targetTable r
         ++ " ADD CONSTRAINT fk_" ++ Relationship.targetTable r
         ++ "_" ++ Relationship.sourceTable r
         ++ " FOREIGN KEY (" ++ Relationship.targetColumn r
         ++ ") REFERENCES " ++ Relationship.sourceTable r
         ++ "(" ++ Relationship.sourceColumn r ++ ");" ++ nl ++ nl)
  /\ (forall r onDelete onUpdate,
        alterStatement (withActions r onDelete onUpdate) = alterStatement r)
  /\ (forall db rel data,
        SqlRoute.relationshipData db rel = Some data ->
        SqlRoute.RelationshipData.onDelete data = Db.RelationshipRow.on_delete rel
        /\ SqlRoute.RelationshipData.onUpdate data = Db.RelationshipRow.on_update rel).
Proof.
  split; [|split].
  - intros r. rewrite alterStatement_text. unfold constraintName.
    now rewrite !append_assoc.
  - reflexivity.
  - exact relationshipData_actions.
Qed.

Lemma alterStatement_without_actions_witness :
  SqlRoute.relationshipsData "schema-1" Samples.shopDb
  = [SqlRoute.RelationshipData.mk None "users" "id" "orders" "user_id" "CASCADE" "CASCADE"]
  /\ SqlRoute.RelationshipData.onDelete
       (SqlRoute.RelationshipData.mk None "users" "id" "orders" "user_id" "CASCADE" "CASCADE")
     = Db.RelationshipRow.on_delete Samples.userOrdersRow.
Proof.
  split; [vm_compute; reflexivity|].
  destruct alterStatement_without_actions as (_ & _ & H).
  apply (H Samples.shopDb Samples.userOrdersRow). vm_compute. reflexivity.
Defined.

End ReferentialActions.

(** ** Table deletion in the store and in the database *)
Section StoreDelete.
Import Store.

Lemma removeTable_schema (tableId : string) (state : State) (schema : Schema) :
  currentSchema state = Some schema ->
  currentSchema (removeTable tableId state) =
    Some (mkSchema (schema_id schema)
            (filter (fun t => negb (table_id t =? tableId)) (tables schema))
            (filter (fun r => negb (sourceTableId r =? tableId)
                              && negb (targetTableId r =? tableId))
                    (relationships schema))).
Proof. intros H. unfold removeTable. now rewrite H. Qed.

Lemma store_exists_after (ts : list Table) (tableId x : string) :
  x <> tableId ->
  existsb (fun t => table_id t =? x) ts = true ->
  existsb (fun t => table_id t =? x)
          (filter (fun t => negb (table_id t =? tableId)) ts) = true.
Proof.
  intros Hx H. apply existsb_exists in H. destruct H as [t [Hin Ht]].
  apply existsb_exists. exists t. split; [|exact Ht].
  apply filter_In. split; [exact Hin|].
  apply String.eqb_eq in Ht. subst x.
  apply negb_true_iff, String.eqb_neq. exact Hx.
Qed.

Lemma removeTable_keeps_consistency (tableId : string) (schema : Schema) :
  noDanglingRelationship schema = true ->
  noDanglingRelationship
    (mkSchema (schema_id schema)
       (filter (fun t => negb (table_id t =? tableId)) (tables schema))
       (filter (fun r => negb (sourceTableId r =? tableId)
                         && negb (targetTableId r =? tableId))
               (relationships schema))) = true.
Proof.
  unfold noDanglingRelationship. cbn [tables relationships].
  intros H. rewrite forallb_forall in H. apply forallb_forall.
  intros r Hr. apply filter_In in Hr. destruct Hr as [Hin Hkeep].
  apply andb_true_iff in Hkeep. destruct Hkeep as [Hs Ht].
  apply negb_true_iff, String.eqb_neq in Hs.
  apply negb_true_iff, String.eqb_neq in Ht.
  specialize (H r Hin). apply andb_true_iff in H. destruct H as [H1 H2].
  apply andb_true_iff. split; apply store_exists_after; assumption.
Qed.

End StoreDelete.

Section DbDelete.
Import Db.

Lemma db_exists_after (ts : list TableRow.t) (tableId x : string) :
  x <> tableId ->
  existsb (fun r => textEq (TableRow.id r) x) ts = true ->
  existsb (fun r => textEq (TableRow.id r) x)
          (filter (fun r => negb (textEq (TableRow.id r) tableId)) ts) = true.
Proof.
  unfold textEq. intros Hx H. apply existsb_exists in H. destruct H as [t [Hin Ht]].
  apply existsb_exists. exists t. split; [|exact Ht].
  apply filter_In. split; [exact Hin|].
  apply String.eqb_eq in Ht. subst x.
  apply negb_true_iff, String.eqb_neq. exact Hx.
Qed.

Lemma db_delete_no_reference (tableId : string) (db : Db.t) (r : RelationshipRow.t) :
  In r (relationships (Db.deleteTable tableId db)) ->
  In r (relationships db)
  /\ RelationshipRow.source_table_id r <> tableId
  /\ RelationshipRow.target_table_id r <> tableId.
Proof.
  unfold Db.deleteTable, textEq. cbn [relationships].
  intros Hr. apply filter_In in Hr. destruct Hr as [Hin Hkeep].
  repeat (apply andb_true_iff in Hkeep; destruct Hkeep as [Hkeep ?]).
  split; [exact Hin|].
  split; now apply String.eqb_neq, negb_true_iff.
Qed.

Lemma db_delete_table_gone (tableId : string) (db : Db.t) :
  tableExists (Db.deleteTable tableId db) tableId = false.
Proof.
  unfold tableExists, Db.deleteTable, textEq. cbn [tables].
  apply not_true_iff_false. intros H.
  apply existsb_exists in H. destruct H as [t [Hin Ht]].
  apply filter_In in Hin. destruct Hin as [_ Hkeep].
  now rewrite Ht in Hkeep.
Qed.

Lemma db_delete_keeps_consistency (tableId : string) (db : Db.t) :
  noDanglingRelationship db = true ->
  noDanglingRelationship (Db.deleteTable tableId db) = true.
Proof.
  unfold noDanglingRelationship. intros H.
  rewrite forallb_forall in H. apply forallb_forall. intros r Hr.
  apply db_delete_no_reference in Hr. destruct Hr as (Hin & Hs & Ht).
  specialize (H r Hin). apply andb_true_iff in H. destruct H as [H1 H2].
  unfold tableExists, Db.deleteTable in *. cbn [tables].
  apply andb_true_iff. split; apply db_exists_after; assumption.
Qed.

End DbDelete.

(** C10.  The browser application at a table whose id is not its name.
    The relationships of the application name their tables by name, and
    [deleteTable] compares those names with the id it was given: it removes
    the relationships whose [sourceTable] or [targetTable] is the text of
    the id, and no other.  In the schema below [users] has the id
    [table_1]; deleting it leaves the relationship from [users] to [orders]
    in the schema, which named existing tables before and does not after,
    and the SQL written then adds a foreign key that references [users]
    and creates no such table.  Where every id is the name, as in the
    template, the relationship goes with the table. *)
Theorem delete_table_leaves_relationship :
  let before := Designer.mkState Designer.numberedSchema None None "" in
  let after := Designer.deleteTable true true "table_1" before in
  Designer.noDanglingRelationship (Designer.currentSchema before) = true
  /\ Designer.Schema.tables (Designer.currentSchema after) = [Designer.ordersNumbered]
  /\ Designer.Schema.relationships (Designer.currentSchema after) = [Designer.userOrders]
  /\ Designer.noDanglingRelationship (Designer.currentSchema after) = false
  /\ Designer.sqlOutput after
     = Designer.createStatement Designer.ordersNumbered
       ++ "ALTER TABLE orders ADD CONSTRAINT fk_orders_users FOREIGN KEY (user_id) REFERENCES users(id);"
       ++ JS.nl ++ JS.nl
  /\ JS.includes (Designer.sqlOutput after) "CREATE TABLE users" = false
  /\ (forall redrawn tableId d r,
        In r (Designer.Schema.relationships
                (Designer.currentSchema (Designer.deleteTable true redrawn tableId d)))
        <-> In r (Designer.Schema.relationships (Designer.currentSchema d))
            /\ Designer.Relationship.sourceTable r <> tableId
            /\ Designer.Relationship.targetTable r <> tableId)
  /\ Designer.Schema.relationships
       (Designer.currentSchema
          (Designer.deleteTable true true "users"
             (Designer.mkState Designer.ordersSchema None None ""))) = [].
Proof.
  cbn zeta. split; [reflexivity|]. split; [reflexivity|]. split; [reflexivity|].
  split; [reflexivity|]. split; [vm_compute; reflexivity|].
  split; [vm_compute; reflexivity|]. split; [|reflexivity].
  intros redrawn tableId d r. apply deleteTable_relationships.
Qed.

(** ** Table names in the database *)
Section TableNames.
Import Db.
Local Open Scope list_scope.

Lemma tableKeys_map (db : Db.t) : tableKeys db = map keyOf (tables db).
Proof. reflexivity. Qed.

Lemma allowed_fresh (row : TableRow.t) (others : list TableRow.t) (db : Db.t) :
  tableRowAllowed row others db = true ->
  ~ In (TableRow.id row) (map TableRow.id others)
  /\ ~ In (keyOf row) (map keyOf others).
Proof.
  unfold tableRowAllowed, textEq. intros H.
  apply andb_true_iff in H. destruct H as [H Hkey].
  apply andb_true_iff in H. destruct H as [Hid _].
  apply negb_true_iff in Hid, Hkey. split.
  - intros Hin. apply in_map_iff in Hin. destruct Hin as [r [Heq Hr]].
    apply not_true_iff_false in Hid. apply Hid.
    apply existsb_exists. exists r. split; [exact Hr|].
    now apply String.eqb_eq.
  - intros Hin. apply in_map_iff in Hin. destruct Hin as [r [Heq Hr]].
    apply not_true_iff_false in Hkey. apply Hkey.
    apply existsb_exists. exists r. split; [exact Hr|].
    unfold keyOf in Heq. injection Heq as H1 H2.
    apply andb_true_iff. split; now apply String.eqb_eq.
Qed.

Lemma NoDup_snoc (A : Type) (l : list A) (x : A) :
  NoDup l -> ~ In x l -> NoDup (l ++ [x]).
Proof.
  intros Hl Hx. apply (NoDup_Add (Add_app x l [])).
  now rewrite app_nil_r.
Qed.

Lemma insertTable_unique (row : TableRow.t) (db db' : Db.t) :
  uniqueTables db -> insertTable row db = Some db' -> uniqueTables db'.
Proof.
  unfold insertTable, uniqueTables. intros [Hid Hkey] H.
  destruct (tableRowAllowed row (tables db) db) eqn:Hallowed; [|discriminate].
  injection H as <-. rewrite tableKeys_map in *. cbn [tables].
  destruct (allowed_fresh _ _ _ Hallowed) as [Hfid Hfkey].
  rewrite !map_app. cbn [map]. split; now apply NoDup_snoc.
Qed.

Lemma insertColumn_tables (row : ColumnRow.t) (db db' : Db.t) :
  insertColumn row db = Some db' -> tables db' = tables db.
Proof.
  unfold insertColumn. destruct (columnRowAllowed row db); [|discriminate].
  now intros [= <-].
Qed.

(** Rows kept by a WHERE clause keep their keys distinct. *)
Lemma distinct_keys_filter (Row Key : Type) (key : Row -> Key) (keep : Row -> bool)
      (rows : list Row) :
  NoDup (map key rows) -> NoDup (map key (filter keep rows)).
Proof.
  induction rows as [|row rows IH]; cbn; intros Hkeys; [constructor|].
  apply NoDup_cons_iff in Hkeys. destruct Hkeys as [Hrow Hrows].
  destruct (keep row); cbn; [|now apply IH].
  constructor; [|now apply IH].
  intros Hin. apply Hrow. apply in_map_iff in Hin. destruct Hin as [other [Hsame Hother]].
  apply filter_In in Hother. apply in_map_iff. exists other. now split.
Qed.

Lemma deleteTable_unique (tableId : string) (db : Db.t) :
  uniqueTables db -> uniqueTables (Db.deleteTable tableId db).
Proof.
  unfold uniqueTables. rewrite !tableKeys_map. unfold Db.deleteTable. cbn [tables].
  intros [Hid Hkey]. split; now apply distinct_keys_filter.
Qed.

(** The one row an UPDATE by id rewrites. *)
Lemma update_split (l : list TableRow.t) (tableId : string) (r : TableRow.t) :
  NoDup (map TableRow.id l) -> In r l -> TableRow.id r = tableId ->
  exists l1 l2, l = l1 ++ r :: l2
                /\ forall x, In x (l1 ++ l2) -> TableRow.id x <> tableId.
Proof.
  intros Hnd Hin Hid. apply in_split in Hin. destruct Hin as (l1 & l2 & ->).
  exists l1, l2. split; [reflexivity|].
  rewrite map_app in Hnd. cbn [map] in Hnd.
  apply NoDup_remove_2 in Hnd. rewrite <- map_app in Hnd.
  intros x Hx Heq. apply Hnd. apply in_map_iff. exists x. split; [congruence|exact Hx].
Qed.

Lemma map_unchanged (change : TableRow.t -> TableRow.t) (tableId : string)
      (l : list TableRow.t) :
  (forall x, In x l -> TableRow.id x <> tableId) ->
  map (fun r => if textEq (TableRow.id r) tableId then change r else r) l = l
  /\ filter (fun r => negb (textEq (TableRow.id r) tableId)) l = l.
Proof.
  unfold textEq. induction l as [|x l IH]; intros H; [now split|].
  cbn. assert (Hx : TableRow.id x <> tableId) by (apply H; now left).
  apply String.eqb_neq in Hx. rewrite Hx. cbn.
  destruct IH as [-> ->]; [|now split].
  intros y Hy. apply H. now right.
Qed.

Lemma updateTable_unique (tableId : string) (change : TableRow.t -> TableRow.t)
      (db db' : Db.t) :
  (forall r, TableRow.id (change r) = TableRow.id r) ->
  uniqueTables db -> Db.updateTable tableId change db = Some db' -> uniqueTables db'.
Proof.
  unfold Db.updateTable, uniqueTables. rewrite !tableKeys_map.
  intros Hchange [Hid Hkey] H.
  destruct (forallb _ (tables db)) eqn:Hcheck; [|discriminate].
  injection H as <-. cbn [tables].
  rewrite forallb_forall in Hcheck.
  destruct (existsb (fun r => textEq (TableRow.id r) tableId) (tables db)) eqn:Hex.
  - apply existsb_exists in Hex. destruct Hex as (r & Hin & Heq).
    assert (Hr : TableRow.id r = tableId) by now apply String.eqb_eq.
    destruct (update_split _ _ _ Hid Hin Hr) as (l1 & l2 & Hl & Hother).
    specialize (Hcheck r Hin). rewrite Heq in Hcheck. cbn [negb orb] in Hcheck.
    assert (Hl1 : forall x, In x l1 -> TableRow.id x <> tableId)
      by (intros x Hx; apply Hother, in_or_app; now left).
    assert (Hl2 : forall x, In x l2 -> TableRow.id x <> tableId)
      by (intros x Hx; apply Hother, in_or_app; now right).
    destruct (map_unchanged change tableId l1 Hl1) as [Hm1 Hf1].
    destruct (map_unchanged change tableId l2 Hl2) as [Hm2 Hf2].
    assert (Hmap : map (fun r0 => if textEq (TableRow.id r0) tableId then change r0 else r0)
                       (tables db) = l1 ++ change r :: l2).
    { rewrite Hl, map_app. cbn [map]. now rewrite Hm1, Hm2, Heq. }
    assert (Hfil : filter (fun r0 => negb (textEq (TableRow.id r0) tableId)) (tables db)
                   = l1 ++ l2).
    { rewrite Hl, filter_app. cbn [filter]. now rewrite Hf1, Hf2, Heq. }
    rewrite Hmap. rewrite Hfil in Hcheck. rewrite Hl in Hid, Hkey.
    destruct (allowed_fresh _ _ _ Hcheck) as [_ Hfresh].
    rewrite !map_app in *. cbn [map] in *. rewrite Hchange. split; [exact Hid|].
    apply (NoDup_Add (Add_app (keyOf (change r)) (map keyOf l1) (map keyOf l2))).
    split; [now apply NoDup_remove_1 in Hkey | exact Hfresh].
  - assert (Hnone : forall x, In x (tables db) -> TableRow.id x <> tableId).
    { intros x Hx Heq. apply not_true_iff_false in Hex. apply Hex.
      apply existsb_exists. exists x. split; [exact Hx|]. now apply String.eqb_eq. }
    destruct (map_unchanged change tableId (tables db) Hnone) as [-> _].
    now split.
Qed.

(** The PUT handler at a body with a whole position, written out. *)
Lemma updateTable_body (schemaId tableId : string) (body : Routes.TableBody) (db : Db.t) :
  Routes.updateTable schemaId tableId body db
  =
  match selectTableInSchema tableId schemaId db with
  | None => (Routes.NotFound, db)
  | Some _ =>
      match Routes.name body, Routes.description body, Routes.position body, Routes.color body with
      | None, None, None, None => (Routes.ValidationError, db)
      | _, _, _, _ =>
          let change r :=
            TableRow.mk (TableRow.id r) (TableRow.schema_id r)
              (match Routes.name body with Some n => n | None => TableRow.name r end)
              (match Routes.description body with Some d => d | None => TableRow.description r end)
              (match Routes.position body with Some (x, _) => x | None => TableRow.position_x r end)
              (match Routes.position body with Some (_, y) => y | None => TableRow.position_y r end)
              (match Routes.color body with Some c => c | None => TableRow.color r end) in
          match Db.updateTable tableId change db with
          | None => (Routes.InternalServerError, db)
          | Some db' => (Routes.Updated, db')
          end
      end
  end.
Proof.
  unfold Routes.updateTable, Routes.updateTableWith.
  destruct (selectTableInSchema tableId schemaId db); [|reflexivity].
  destruct body as [[n|] [d|] [[x y]|] [c|]]; reflexivity.
Qed.

(** Each request to a table route keeps ids and (schema, name) pairs
    unique. *)
Lemma handle_unique (req : Routes.TableRequest) (db : Db.t) :
  uniqueTables db -> uniqueTables (snd (Routes.handle req db)).
Proof.
  intros Hu. destruct req as [schemaId body tableId columnId | schemaId tableId body
                             | schemaId tableId]; cbn [Routes.handle].
  - unfold Routes.createTable.
    destruct (Routes.name body) as [n|]; [|exact Hu].
    destruct (Routes.position body) as [[x y]|]; [|exact Hu].
    destruct (selectTableByName schemaId n db); [exact Hu|].
    destruct (insertTable _ db) as [db1|] eqn:Hins; [|exact Hu].
    pose proof (insertTable_unique _ _ _ Hu Hins) as Hu1.
    destruct (insertColumn _ db1) as [db2|] eqn:Hcol; [|exact Hu1].
    cbn [snd]. unfold uniqueTables in *. rewrite tableKeys_map in *.
    now rewrite (insertColumn_tables _ _ _ Hcol).
  - rewrite updateTable_body. cbv zeta.
    destruct (selectTableInSchema tableId schemaId db); [|exact Hu].
    destruct (Routes.name body), (Routes.description body), (Routes.position body),
             (Routes.color body);
      try exact Hu;
      (match goal with
       | |- context [Db.updateTable ?t ?c ?d] =>
           destruct (Db.updateTable t c d) as [db'|] eqn:Hupd; [|exact Hu];
           cbn [snd]; apply (updateTable_unique t c d db'); [reflexivity | exact Hu | exact Hupd]
       end).
  - unfold Routes.deleteTable.
    destruct (selectTableInSchema tableId schemaId db); [|exact Hu].
    now apply deleteTable_unique.
Qed.

Lemma reachable_unique (start db : Db.t) :
  uniqueTables start -> Routes.reachable start db -> uniqueTables db.
Proof.
  intros Hstart Hreach. induction Hreach as [|db req _ IH].
  - exact Hstart.
  - now apply handle_unique.
Qed.

Lemma createTable_duplicate (schemaId name : string) (pos : nat * nat)
      (body : Routes.TableBody) (tableId columnId : string) (db : Db.t)
      (row : TableRow.t) :
  Routes.name body = Some name -> Routes.position body = Some pos ->
  In row (tables db) ->
  TableRow.schema_id row = schemaId -> TableRow.name row = name ->
  Routes.createTable schemaId body tableId columnId db = (Routes.DuplicateResource, db).
Proof.
  intros Hn Hp Hin Hs Hname. unfold Routes.createTable. rewrite Hn, Hp.
  destruct pos as [x y].
  destruct (selectTableByName schemaId name db) eqn:Hsel; [reflexivity|].
  unfold selectTableByName in Hsel.
  pose proof (find_none _ _ Hsel row Hin) as Hrow. cbn in Hrow.
  unfold textEq in Hrow. rewrite Hs, Hname, !String.eqb_refl in Hrow. discriminate.
Qed.

End TableNames.

(** C9, as the claim states it, fails: in a schema that has the table
    [Customer], creating the table [customer] is answered 201 and not
    refused, and the schema then holds two tables whose names differ only in
    letter case. *)
Lemma case_variant_table_accepted :
  let db1 := snd (Routes.handle Routes.postCustomerUpper Routes.oneSchema) in
  let answer := Routes.handle Routes.postCustomerLower db1 in
  JS.toLowerCase "Customer" = JS.toLowerCase "customer"
  /\ map Db.TableRow.name (Db.tables db1) = ["Customer"]
  /\ (exists table columns,
        fst answer = Routes.Created (Some table) columns
        /\ Db.TableRow.name table = "customer")
  /\ Db.tableKeys (snd answer) = [("schema-1", "Customer"); ("schema-1", "customer")]
  /\ ~ NoDup (Db.tableKeysLower (snd answer)).
Proof.
  cbv zeta. split; [reflexivity|]. split; [reflexivity|]. split; [|split].
  - eexists. eexists. split; [vm_compute; reflexivity | reflexivity].
  - vm_compute. reflexivity.
  - intros H. vm_compute in H. inversion H as [|x l Hnotin _]. apply Hnotin. now left.
Qed.

(** C9, amended.  Within one schema table names are unique by exact
    comparison, letter case included: a request that creates a table whose
    name is exactly the name of a table of the same schema is answered 409
    DUPLICATE_RESOURCE and changes nothing, and no database reached through
    the table routes from one with unique (schema, name) pairs and unique
    ids holds two tables of one schema with the same name. *)
Theorem table_names_unique_exactly :
  (forall start db,
     Db.uniqueTables start -> Routes.reachable start db -> Db.uniqueTables db)
  /\ (forall schemaId name pos body tableId columnId db row,
        Routes.name body = Some name -> Routes.position body = Some pos ->
        In row (Db.tables db) ->
        Db.TableRow.schema_id row = schemaId -> Db.TableRow.name row = name ->
        Routes.createTable schemaId body tableId columnId db
        = (Routes.DuplicateResource, db)).
Proof.
  split.
  - exact reachable_unique.
  - exact createTable_duplicate.
Qed.

Lemma table_names_unique_exactly_witness :
  Db.uniqueTables
    (snd (Routes.handle Routes.postCustomerLower
            (snd (Routes.handle Routes.postCustomerUpper Routes.oneSchema))))
  /\ Routes.handle Routes.postCustomerAgain
       (snd (Routes.handle Routes.postCustomerUpper Routes.oneSchema))
     = (Routes.DuplicateResource,
        snd (Routes.handle Routes.postCustomerUpper Routes.oneSchema)).
Proof.
  destruct table_names_unique_exactly as [Hreach Hdup]. split.
  - apply (Hreach Routes.oneSchema).
    + split; constructor.
    + apply Routes.reach_step, Routes.reach_step, Routes.reach_start.
  - apply (Hdup "schema-1" "Customer" (20, 20) _ "t3" "c3" _
                (Db.TableRow.mk "t1" "schema-1" "Customer" "" 0 0 "#ffffff"));
      try reflexivity.
    left. reflexivity.
Defined.

(** ** The request validation middleware *)
Section ValidationClaims.
Import Validation.
Variables (Data JoiSchema : Type).
Variable joiObject : string -> JoiSchema.
Variable violations : JoiSchema -> Data -> list (Detail Data).
Variable sanitized : JoiSchema -> JoiOptions -> Data -> Data.

Local Abbreviation joiValidate := (joiValidate Data JoiSchema violations sanitized).
Local Abbreviation validate := (validate Data JoiSchema joiObject violations sanitized).

Lemma schemas_known (schemaName : string) :
  In schemaName schemaNames ->
  schemas JoiSchema joiObject schemaName = Some (joiObject schemaName).
Proof.
  intros Hin. unfold schemas.
  replace (existsb (String.eqb schemaName) schemaNames) with true; [reflexivity|].
  symmetry. apply existsb_exists. exists schemaName. split; [exact Hin|].
  apply String.eqb_refl.
Qed.

(** Joi's default, [abortEarly], would report one defect only. *)
Lemma joiValidate_abortEarly (schema : JoiSchema) (data : Data) (first : Detail Data)
      (rest : list (Detail Data)) :
  violations schema data = first :: rest ->
  fst (joiValidate schema data (mkJoiOptions true true true)) = Some [first].
Proof. intros H. unfold Validation.joiValidate. now rewrite H. Qed.

(** C7.  The middleware does not stop at the first defect: it asks Joi for
    every broken rule ([abortEarly] off) and answers 400 VALIDATION_ERROR
    with exactly one issue for each of them, in Joi's order: N defects give
    N issues, the i-th issue made of the i-th defect.  With no defect it
    answers nothing and calls [next()]. *)
Theorem validate_reports_every_defect (schemaName : string) (source : Source)
        (req : Request Data) :
  In schemaName schemaNames ->
  let data := match source with Query => query req | Body => body req end in
  let defects := violations (joiObject schemaName) data in
  (defects <> [] ->
   exists issues,
     validate schemaName source req
     = ValidationFailed Data 400 "VALIDATION_ERROR" "Validation failed" issues
     /\ List.length issues = List.length defects
     /\ forall i, nth_error issues i =
                  option_map (fun detail => mkItem Data (JS.join "." (path detail))
                                                   (message detail) (contextValue detail))
                             (nth_error defects i))
  /\ (defects = [] -> exists req', validate schemaName source req = Next Data req').
Proof.
  intros Hin data defects. unfold Validation.validate.
  rewrite (schemas_known schemaName Hin). unfold Validation.joiValidate.
  fold data. fold defects. split.
  - intros Hne. destruct defects as [|first rest]; [contradiction|].
    cbn [abortEarly]. eexists. split; [reflexivity|]. split.
    + now rewrite length_map.
    + intros i. apply nth_error_map.
  - intros ->. eexists. reflexivity.
Qed.

End ValidationClaims.

Lemma validate_reports_every_defect_witness :
  exists issues,
    Validation.validate Validation.ToyData (list string) Validation.toyFields
      Validation.toyViolations Validation.toySanitized "table" Validation.Body
      Samples.twoDefects
    = Validation.ValidationFailed Validation.ToyData 400 "VALIDATION_ERROR"
        "Validation failed" issues
    /\ List.length issues = 2.
Proof.
  destruct (validate_reports_every_defect Validation.ToyData (list string)
              Validation.toyFields Validation.toyViolations Validation.toySanitized
              "table" Validation.Body Samples.twoDefects) as [Hsome _].
  - cbn. tauto.
  - destruct Hsome as (issues & Heq & Hlen & _); [discriminate|].
    exists issues. split; [exact Heq | exact Hlen].
Defined.

(** ** The DROP phase of the generator behind the SQL route *)
Section DropPhase.
Import SqlRoute SqlGenerator.
Local Open Scope list_scope.

Lemma filter_partition (A : Type) (f : A -> bool) (l : list A) :
  Permutation (filter f l ++ filter (fun x => negb (f x)) l) l.
Proof.
  induction l as [|x l IH]; cbn; [constructor|].
  destruct (f x); cbn.
  - now constructor.
  - rewrite <- Permutation_middle. now constructor.
Qed.

Lemma topological_permutation (rounds : nat) (relationships : list RelationshipData.t)
      (remaining order : list string) :
  topological rounds relationships remaining = Some order ->
  Permutation order remaining.
Proof.
  revert remaining order. induction rounds as [|rounds IH]; intros remaining order H.
  - destruct remaining; cbn in H; [|discriminate H].
    injection H as Horder. subst order. constructor.
  - destruct remaining as [|t remaining'].
    { cbn in H. injection H as Horder. subst order. constructor. }
    pose (ready := fun t0 => negb (existsb (references relationships t0) (t :: remaining'))).
    change (match filter ready (t :: remaining') with
            | [] => None
            | taken =>
                option_map (app taken)
                  (topological rounds relationships
                     (filter (fun t0 => negb (ready t0)) (t :: remaining')))
            end = Some order) in H.
    destruct (filter ready (t :: remaining')) as [|t1 taken] eqn:Htaken; [discriminate|].
    destruct (topological rounds relationships
                (filter (fun t0 => negb (ready t0)) (t :: remaining')))
      as [order'|] eqn:Hrec; [|cbn in H; discriminate H].
    cbn [option_map] in H. injection H as Horder. subst order. apply IH in Hrec.
    apply Permutation_trans
      with (filter ready (t :: remaining')
            ++ filter (fun t0 => negb (ready t0)) (t :: remaining'));
      [|apply filter_partition].
    rewrite Htaken.
    change (Permutation ((t1 :: taken) ++ order')
              ((t1 :: taken) ++ filter (fun t0 => negb (ready t0)) (t :: remaining'))).
    apply Permutation_app_head. exact Hrec.
Qed.

(** Every table is dropped once. *)
Lemma dropOrder_permutation (tables : list TableData.t)
      (relationships : list RelationshipData.t) :
  Permutation (dropOrder tables relationships) (map TableData.name tables).
Proof.
  unfold dropOrder.
  destruct (topological _ relationships (map TableData.name tables)) as [order|] eqn:H.
  - rewrite <- Permutation_rev. now apply topological_permutation in H.
  - reflexivity.
Qed.

(** In a list made of a block that satisfies [p] and a block that does
    not, the first block's positions come first. *)
Lemma blocks_in_order (A : Type) (p : A -> bool) (front back : list A) (i j : nat) (a b : A) :
  forallb p front = true -> forallb (fun x => negb (p x)) back = true ->
  nth_error (front ++ back) i = Some a -> nth_error (front ++ back) j = Some b ->
  p a = true -> p b = false -> i < j.
Proof.
  intros Hfront Hback Ha Hb Hpa Hpb.
  rewrite forallb_forall in Hfront, Hback.
  assert (Hi : i < List.length front).
  { destruct (Nat.lt_ge_cases i (List.length front)) as [Hlt|Hge]; [exact Hlt|].
    rewrite nth_error_app2 in Ha by exact Hge. apply nth_error_In in Ha.
    apply Hback in Ha. now rewrite Hpa in Ha. }
  assert (Hj : List.length front <= j).
  { destruct (Nat.lt_ge_cases j (List.length front)) as [Hlt|Hge]; [|exact Hge].
    rewrite nth_error_app1 in Hb by exact Hlt. apply nth_error_In in Hb.
    apply Hfront in Hb. now rewrite Hpb in Hb. }
  lia.
Qed.

Lemma forallb_map_const (A B : Type) (f : A -> B) (p : B -> bool) (l : list A) :
  (forall x, p (f x) = true) -> forallb p (map f l) = true.
Proof.
  intros H. apply forallb_forall. intros y Hy. apply in_map_iff in Hy.
  destruct Hy as [x [<- _]]. apply H.
Qed.

Lemma forallb_flat_map (A B : Type) (f : A -> list B) (p : B -> bool) (l : list A) :
  (forall x, forallb p (f x) = true) -> forallb p (flat_map f l) = true.
Proof.
  intros H. apply forallb_forall. intros y Hy. apply in_flat_map in Hy.
  destruct Hy as [x [_ Hin]]. specialize (H x). rewrite forallb_forall in H. now apply H.
Qed.

Lemma constraintDrops_kind (rs : list RelationshipData.t) :
  forallb isDropConstraint (constraintDrops rs) = true.
Proof. apply forallb_map_const. now intros [r name]. Qed.

Lemma tableDrops_kind (ts : list TableData.t) (rs : list RelationshipData.t) :
  forallb isDropTable (tableDrops ts rs) = true.
Proof. now apply forallb_map_const. Qed.

Lemma afterDrops_kind (options : GeneratorOptions) (ts : list TableData.t)
      (rs : list RelationshipData.t) :
  forallb (fun s => negb (isDrop s)) (afterDrops options ts rs) = true.
Proof.
  unfold afterDrops. rewrite !forallb_app.
  apply andb_true_iff. split; [|apply andb_true_iff; split].
  - now apply forallb_map_const.
  - apply forallb_map_const. now intros [r name].
  - apply forallb_flat_map. intros r.
    destruct (findColumn ts _ _) as [[c|]|]; try reflexivity.
    now destruct (ColumnData.isPrimaryKey c || ColumnData.isUnique c).
Qed.

Lemma emit_with_drops (options : GeneratorOptions) (ts : list TableData.t)
      (rs : list RelationshipData.t) :
  includeDropStatements options = true ->
  includeConstraints options = true -> includeIndexes options = true ->
  emit options ts rs = constraintDrops rs ++ tableDrops ts rs ++ afterDrops options ts rs.
Proof.
  intros Hd Hc Hi. unfold emit, dropPhase, constraintDrops, tableDrops, afterDrops.
  rewrite Hd, Hc, Hi. now rewrite <- app_assoc.
Qed.

(** What a successful answer of the route holds. *)
Lemma getSql_success (schemaId : string) (query : SqlQuery) (db : Db.t)
      (sql : list Statement) (dialect schemaName : string) :
  Server.getSql schemaId query db = SqlSuccess (list Statement) sql dialect schemaName ->
  sql = emit (generatorOptions query)
             (tablesData (selectTables schemaId db) (selectColumns schemaId db))
             (relationshipsData schemaId db).
Proof.
  unfold Server.getSql, getSql, generateSchema, compile.
  destruct (negb (existsb (String.eqb (requestedDialect query)) knownDialects));
    [discriminate|].
  destruct (validate _ _); [|discriminate].
  destruct (find _ (Db.schemas db)); [|discriminate].
  now intros [= <- _ _].
Qed.

End DropPhase.

Section DropPhaseClaim.
Import SqlRoute SqlGenerator.
Local Open Scope list_scope.

Lemma drop_for_each_constraint (rs : list RelationshipData.t) (table name : string) :
  In (DropConstraint table name) (constraintDrops rs) <->
  exists column referencedTable referencedColumn onDelete onUpdate,
    In (AddConstraint table name column referencedTable referencedColumn onDelete onUpdate)
       (constraintPhase rs).
Proof.
  unfold constraintDrops, constraintPhase. split.
  - intros H. apply in_map_iff in H. destruct H as [[r nm] [Heq Hin]].
    injection Heq as <- <-.
    exists (RelationshipData.targetColumnName r), (RelationshipData.sourceTableName r),
           (RelationshipData.sourceColumnName r), (RelationshipData.onDelete r),
           (RelationshipData.onUpdate r).
    apply in_map_iff. now exists (r, nm).
  - intros (c & rt & rc & od & ou & H). apply in_map_iff in H.
    destruct H as [[r nm] [Heq Hin]]. injection Heq as <- <- _ _ _ _ _.
    apply in_map_iff. now exists (r, nm).
Qed.

Lemma constraint_in_afterDrops (options : GeneratorOptions) (ts : list TableData.t)
      (rs : list RelationshipData.t) (s : Statement) :
  (exists t n c rt rc od ou, s = AddConstraint t n c rt rc od ou) ->
  In s (afterDrops options ts rs) <-> In s (constraintPhase rs).
Proof.
  intros (t & n & c & rt & rc & od & ou & ->). unfold afterDrops. split.
  - intros H. apply in_app_or in H. destruct H as [H|H].
    + unfold createPhase in H. apply in_map_iff in H. now destruct H as [x [Hx _]].
    + apply in_app_or in H. destruct H as [H|H]; [exact H|].
      unfold indexPhase in H. apply in_flat_map in H. destruct H as [r [_ H]].
      destruct (findColumn ts _ _) as [[col|]|]; try contradiction.
      destruct (ColumnData.isPrimaryKey col || ColumnData.isUnique col);
        [contradiction|].
      destruct H as [H|[]]. discriminate H.
  - intros H. apply in_or_app. right. apply in_or_app. now left.
Qed.

(** C6.  When the request asks for DROP statements (the query parameter
    includeDropStatements is the text [true]) and the route answers with
    SQL, the statements begin with a DROP phase: first the constraint
    drops, one for each constraint the constraint phase adds, then the
    table drops, one for each table, and only then the CREATE TABLE,
    constraint and index statements.  So every DROP statement stands before
    every other statement, and every constraint drop before every table
    drop. *)
Theorem drop_phase_first (schemaId : string) (query : SqlQuery) (db : Db.t)
        (sql : list Statement) (dialect schemaName : string) :
  dropStatements query = Some "true" ->
  Server.getSql schemaId query db = SqlSuccess (list Statement) sql dialect schemaName ->
  exists constraintDrops tableDrops rest,
    sql = constraintDrops ++ tableDrops ++ rest
    /\ forallb isDropConstraint constraintDrops = true
    /\ forallb isDropTable tableDrops = true
    /\ forallb (fun s => negb (isDrop s)) rest = true
    /\ Permutation tableDrops
         (map (fun row => DropTable (Db.TableRow.name row)) (selectTables schemaId db))
    /\ (forall table name,
          In (DropConstraint table name) constraintDrops <->
          exists column referencedTable referencedColumn onDelete onUpdate,
            In (AddConstraint table name column referencedTable referencedColumn
                              onDelete onUpdate) rest)
    /\ (forall i j a b,
          nth_error sql i = Some a -> nth_error sql j = Some b ->
          isDrop a = true -> isDrop b = false -> i < j)
    /\ (forall i j a b,
          nth_error sql i = Some a -> nth_error sql j = Some b ->
          isDropConstraint a = true -> isDropTable b = true -> i < j).
Proof.
  intros Hq Hok. apply getSql_success in Hok.
  set (options := generatorOptions query) in *.
  set (ts := tablesData (selectTables schemaId db) (selectColumns schemaId db)) in *.
  set (rs := relationshipsData schemaId db) in *.
  assert (Hdrop : includeDropStatements options = true).
  { subst options. unfold generatorOptions. cbn [includeDropStatements].
    now rewrite Hq. }
  rewrite (emit_with_drops options ts rs Hdrop eq_refl eq_refl) in Hok.
  pose proof (constraintDrops_kind rs) as Hcd.
  pose proof (tableDrops_kind ts rs) as Htd.
  pose proof (afterDrops_kind options ts rs) as Hrest.
  exists (SqlGenerator.constraintDrops rs), (SqlGenerator.tableDrops ts rs),
         (afterDrops options ts rs).
  split; [exact Hok|]. split; [exact Hcd|]. split; [exact Htd|]. split; [exact Hrest|].
  split; [|split; [|split]].
  - unfold SqlGenerator.tableDrops.
    replace (map (fun row => DropTable (Db.TableRow.name row)) (selectTables schemaId db))
      with (map DropTable (map TableData.name ts)).
    + apply Permutation_map, dropOrder_permutation.
    + subst ts. unfold tablesData. now rewrite !map_map.
  - intros table name. rewrite drop_for_each_constraint.
    split; intros (c & rt & rc & od & ou & H); exists c, rt, rc, od, ou;
      apply (constraint_in_afterDrops options ts rs); try exact H;
      now exists table, name, c, rt, rc, od, ou.
  - intros i j a b Ha Hb Hpa Hpb. subst sql. rewrite app_assoc in Ha, Hb.
    apply (blocks_in_order Statement isDrop
             (SqlGenerator.constraintDrops rs ++ SqlGenerator.tableDrops ts rs)
             (afterDrops options ts rs) i j a b); try assumption.
    rewrite forallb_app. apply andb_true_iff. split.
    + apply forallb_forall. intros x Hx. rewrite forallb_forall in Hcd.
      unfold isDrop. now rewrite (Hcd x Hx).
    + apply forallb_forall. intros x Hx. rewrite forallb_forall in Htd.
      unfold isDrop. rewrite (Htd x Hx). apply orb_true_r.
  - intros i j a b Ha Hb Hpa Hpb. subst sql.
    apply (blocks_in_order Statement isDropConstraint
             (SqlGenerator.constraintDrops rs)
             (SqlGenerator.tableDrops ts rs ++ afterDrops options ts rs) i j a b);
      try assumption.
    + rewrite forallb_app. apply andb_true_iff. split.
      * apply forallb_forall. intros x Hx. rewrite forallb_forall in Htd.
        specialize (Htd x Hx). now destruct x.
      * apply forallb_forall. intros x Hx. rewrite forallb_forall in Hrest.
        specialize (Hrest x Hx). now destruct x.
    + now destruct b.
Qed.

Lemma drop_phase_first_witness :
  firstn 4 Samples.cycleSql
  = [ DropConstraint "B" "fk_B_A"; DropConstraint "A" "fk_A_B";
      DropTable "A"; DropTable "B" ]
  /\ exists constraintDrops tableDrops rest,
       Samples.cycleSql = constraintDrops ++ tableDrops ++ rest
       /\ forallb isDropConstraint constraintDrops = true
       /\ forallb isDropTable tableDrops = true
       /\ forallb (fun s => negb (isDrop s)) rest = true.
Proof.
  split; [reflexivity|].
  destruct (drop_phase_first "schema-2" Samples.dropQuery Samples.cycleDb
              Samples.cycleSql "mysql" "Cycle")
    as (cd & td & rest & Hsql & Hcd & Htd & Hrest & _).
  - reflexivity.
  - vm_compute. reflexivity.
  - exists cd, td, rest. repeat split; assumption.
Defined.

End DropPhaseClaim.

(** ** Dialects outside the supported set *)
Section Dialects.
Import SqlRoute.

Lemma validateSQLOptions_drops_dialect (d : string) (drops comments : option ApiClient.Value) :
  existsb (String.eqb d) ApiClient.allowedDialects = false ->
  ApiClient.validDialect
    (ApiClient.validateSQLOptions (ApiClient.mkSQLOptions (Some d) drops comments)) = None.
Proof.
  intros H. unfold ApiClient.validateSQLOptions. cbn [ApiClient.dialect ApiClient.validDialect].
  rewrite H. now rewrite andb_false_r.
Qed.

(** C8.  The code at a dialect outside the set.  Asked through the API
    client for the dialect [oracle] under a well-formed schema id, nothing
    fails: [generateSQL] throws nothing and sends the request with no
    dialect at all, and the route then runs its generator for [mysql] and
    answers with what that returns.  When [oracle] reaches the route in the
    query, the route has no check of its own: it runs the generator for
    [oracle], answers 200 with dialect [oracle] when the generator returns,
    and its only error is 500 INTERNAL_SERVER_ERROR, never an answer about
    the dialect. *)
Theorem unsupported_dialect_not_refused (Sql : Type)
        (gen : string -> list TableData.t -> list RelationshipData.t -> GeneratorOptions
               -> Generated Sql) :
  existsb (String.eqb "oracle") ApiClient.allowedDialects = false
  /\ (forall d drops comments,
        existsb (String.eqb d) ApiClient.allowedDialects = false ->
        ApiClient.validDialect
          (ApiClient.validateSQLOptions (ApiClient.mkSQLOptions (Some d) drops comments))
        = None)
  /\ ApiInput.generateSQL (ApiClient.VText ApiInput.sampleId) Samples.oracleOptions
     = ApiInput.Returns
         (ApiInput.mkRequest "/schemas/123e4567-e89b-42d3-a456-426614174000/sql"
                             (mkQuery None None None))
  /\ getSql Sql gen ApiInput.sampleId (mkQuery None None None) ApiInput.sampleDb
     = match gen "mysql"
                 [TableData.mk "users" ""
                    [ColumnData.mk "id" "INTEGER" None None None
                                   true false false true true None None]]
                 [] (mkOptions false false true true) with
       | Returned _ sql => SqlSuccess Sql sql "mysql" "Shop"
       | Thrown _ => SqlFailure Sql 500 "INTERNAL_SERVER_ERROR" "Failed to generate SQL"
       end
  /\ getSql Sql gen ApiInput.sampleId (mkQuery (Some "oracle") None None)
            ApiInput.sampleDb
     = match gen "oracle"
                 [TableData.mk "users" ""
                    [ColumnData.mk "id" "INTEGER" None None None
                                   true false false true true None None]]
                 [] (mkOptions false false true true) with
       | Returned _ sql => SqlSuccess Sql sql "oracle" "Shop"
       | Thrown _ => SqlFailure Sql 500 "INTERNAL_SERVER_ERROR" "Failed to generate SQL"
       end.
Proof.
  split; [reflexivity|]. split; [exact validateSQLOptions_drops_dialect|].
  split; [vm_compute; reflexivity|]. split; reflexivity.
Qed.

End Dialects.

(* ================================================================== *)
(** * Part III. Further properties of the code *)
(* ================================================================== *)

(** ** List facts used below *)
Section ListFacts.
Local Open Scope list_scope.

Lemma find_last_only (Row : Type) (test : Row -> bool) (rows : list Row) (last : Row) :
  (forall row, In row rows -> test row = false) -> test last = true ->
  find test (rows ++ [last]) = Some last.
Proof.
  intros Hnone Hlast. induction rows as [|row rows IH]; cbn.
  - now rewrite Hlast.
  - rewrite (Hnone row) by now left. apply IH. intros x Hx. apply Hnone. now right.
Qed.

Lemma filter_nothing (Row : Type) (test : Row -> bool) (rows : list Row) :
  (forall row, In row rows -> test row = false) -> filter test rows = [].
Proof.
  intros Hnone. induction rows as [|row rows IH]; cbn; [reflexivity|].
  rewrite (Hnone row) by now left. apply IH. intros x Hx. apply Hnone. now right.
Qed.

Lemma filter_everything (Row : Type) (test : Row -> bool) (rows : list Row) :
  (forall row, In row rows -> test row = true) -> filter test rows = rows.
Proof.
  intros Hall. induction rows as [|row rows IH]; cbn; [reflexivity|].
  rewrite (Hall row) by now left. f_equal. apply IH. intros x Hx. apply Hall. now right.
Qed.

Lemma existsb_false_all (Row : Type) (test : Row -> bool) (rows : list Row) :
  existsb test rows = false -> forall row, In row rows -> test row = false.
Proof.
  intros Hex row Hin. destruct (test row) eqn:Htest; [|reflexivity].
  assert (existsb test rows = true) by (apply existsb_exists; now exists row).
  congruence.
Qed.

End ListFacts.

(** ** Creating a table *)
Section CreateTable.
Import Db Integrity.
Local Open Scope list_scope.

(** The row and the column the handler inserts. *)
Lemma createTable_created (schemaId : string) (body : Routes.TableBody)
      (tableId columnId : string) (db db' : Db.t) (t : option TableRow.t)
      (cols : list ColumnRow.t) :
  Routes.createTable schemaId body tableId columnId db = (Routes.Created t cols, db') ->
  exists name x y,
    Routes.name body = Some name /\ Routes.position body = Some (x, y)
    /\ selectTableByName schemaId name db = None
    /\ tableRowAllowed
         (TableRow.mk tableId schemaId name (Routes.orElse (Routes.description body) "")
                      x y (Routes.orElse (Routes.color body) "#ffffff"))
         (tables db) db = true
    /\ existsb (fun c => textEq (ColumnRow.id c) columnId) (columns db) = false
    /\ db' = Db.mk (schemas db)
               (tables db ++
                [TableRow.mk tableId schemaId name (Routes.orElse (Routes.description body) "")
                             x y (Routes.orElse (Routes.color body) "#ffffff")])
               (columns db ++
                [ColumnRow.mk columnId tableId "id" "INTEGER" None None None
                              true false false true true None None 0])
               (relationships db)
    /\ t = selectTable tableId db' /\ cols = Routes.selectColumns tableId db'.
Proof.
  unfold Routes.createTable.
  destruct (Routes.name body) as [name|]; [|discriminate].
  destruct (Routes.position body) as [[x y]|]; [|discriminate].
  destruct (selectTableByName schemaId name db) eqn:Hsel; [discriminate|].
  unfold insertTable.
  destruct (tableRowAllowed _ (tables db) db) eqn:Hrow; [|discriminate].
  unfold insertColumn.
  destruct (columnRowAllowed _ _) eqn:Hcol; [|discriminate].
  cbn [schemas tables columns relationships].
  intros H. injection H as Ht Hcols Hdb.
  exists name, x, y. repeat (split; [reflexivity || assumption|]).
  split.
  - unfold columnRowAllowed in Hcol. cbn [columns ColumnRow.id] in Hcol.
    apply andb_true_iff in Hcol. destruct Hcol as [Hcol _].
    apply andb_true_iff in Hcol. destruct Hcol as [Hcol _].
    now apply negb_true_iff in Hcol.
  - subst db'. split; [reflexivity|]. split; now symmetry.
Qed.

Lemma fresh_table_id (row : TableRow.t) (others : list TableRow.t) (db : Db.t) :
  tableRowAllowed row others db = true ->
  forall r, In r others -> textEq (TableRow.id r) (TableRow.id row) = false.
Proof.
  unfold tableRowAllowed. intros H.
  apply andb_true_iff in H. destruct H as [H _].
  apply andb_true_iff in H. destruct H as [H _].
  apply negb_true_iff in H. now apply existsb_false_all.
Qed.

(** Under the foreign keys no column belongs to a table that is not there. *)
Lemma no_column_of_missing_table (db : Db.t) (tableId : string) :
  foreignKeysHold db = true ->
  (forall r, In r (tables db) -> textEq (TableRow.id r) tableId = false) ->
  forall c, In c (columns db) -> textEq (ColumnRow.table_id c) tableId = false.
Proof.
  unfold foreignKeysHold. intros Hfk Hfresh c Hc.
  apply andb_true_iff in Hfk. destruct Hfk as [Hfk _].
  apply andb_true_iff in Hfk. destruct Hfk as [_ Hcols].
  rewrite forallb_forall in Hcols. specialize (Hcols c Hc).
  unfold tableExists in Hcols. apply existsb_exists in Hcols.
  destruct Hcols as (r & Hr & Heq). unfold textEq in *.
  apply String.eqb_eq in Heq. specialize (Hfresh r Hr).
  rewrite Heq in Hfresh. exact Hfresh.
Qed.

End CreateTable.

Section CreateTableProperties.
Import Db Integrity.
Local Open Scope list_scope.

(** X1.  A table created through POST /:schemaId/tables is stored behind the
    tables already there, with exactly one column behind the columns already
    there: the auto-increment primary key [id INTEGER] at order index 0.
    No relationship changes, and in a database whose foreign keys hold the
    201 answer carries that table and that single column.  (Of the schema
    row the handler writes [updated_at], a column outside [Db.SchemaRow];
    nothing is said of it.) *)
Theorem created_table_has_one_id_column (schemaId : string) (body : Routes.TableBody)
        (tableId columnId : string) (db db' : Db.t) (t : option TableRow.t)
        (cols : list ColumnRow.t) :
  foreignKeysHold db = true ->
  Routes.createTable schemaId body tableId columnId db = (Routes.Created t cols, db') ->
  exists row,
    TableRow.id row = tableId /\ TableRow.schema_id row = schemaId
    /\ Routes.name body = Some (TableRow.name row)
    /\ tables db' = tables db ++ [row]
    /\ columns db' = columns db ++
                     [ColumnRow.mk columnId tableId "id" "INTEGER" None None None
                                   true false false true true None None 0]
    /\ relationships db' = relationships db
    /\ t = Some row
    /\ cols = [ColumnRow.mk columnId tableId "id" "INTEGER" None None None
                            true false false true true None None 0].
Proof.
  intros Hfk Hcreate.
  destruct (createTable_created _ _ _ _ _ _ _ _ Hcreate)
    as (name & x & y & Hname & Hpos & _ & Hrow & _ & Hdb & Ht & Hcols).
  pose proof (fresh_table_id _ _ _ Hrow) as Hfresh. cbn [TableRow.id] in Hfresh.
  exists (TableRow.mk tableId schemaId name (Routes.orElse (Routes.description body) "")
                      x y (Routes.orElse (Routes.color body) "#ffffff")).
  split; [reflexivity|]. split; [reflexivity|]. split; [exact Hname|].
  split; [now subst db'|]. split; [now subst db'|].
  split; [now subst db'|]. split.
  - rewrite Ht. subst db'. unfold selectTable. cbn [tables].
    apply find_last_only; [exact Hfresh|]. cbn. apply String.eqb_refl.
  - rewrite Hcols. subst db'. unfold Routes.selectColumns. cbn [columns].
    rewrite filter_app.
    rewrite (filter_nothing _ _ (columns db)
               (no_column_of_missing_table db tableId Hfk Hfresh)).
    cbn. unfold textEq. now rewrite String.eqb_refl.
Qed.

Lemma created_table_has_one_id_column_witness :
  exists row,
    fst (Routes.handle Routes.postCustomerUpper Routes.oneSchema)
    = Routes.Created (Some row)
        [ColumnRow.mk "c1" "t1" "id" "INTEGER" None None None
                      true false false true true None None 0]
    /\ TableRow.name row = "Customer".
Proof.
  destruct (created_table_has_one_id_column "schema-1"
              (Routes.mkTableBody (Some "Customer") None (Some (0, 0)) None) "t1" "c1"
              Routes.oneSchema
              (snd (Routes.handle Routes.postCustomerUpper Routes.oneSchema))
              (Some (TableRow.mk "t1" "schema-1" "Customer" "" 0 0 "#ffffff"))
              [ColumnRow.mk "c1" "t1" "id" "INTEGER" None None None
                            true false false true true None None 0])
    as (row & _ & _ & Hname & _ & _ & _ & Ht & _).
  - reflexivity.
  - reflexivity.
  - exists row. split.
    + injection Ht as <-. reflexivity.
    + cbn in Hname. now injection Hname as <-.
Defined.

(** X2.  Creating a table and then deleting it through the two routes gives
    the tables, the columns and the relationships back as they were, row for
    row, when the foreign keys of the database hold: the DELETE is answered
    200 and takes away the table and its [id] column and nothing that was
    there before.  (Both handlers write [updated_at] of the schema row, a
    column outside [Db.SchemaRow]; nothing is said of the schema rows.) *)
Theorem create_then_delete_restores (schemaId : string) (body : Routes.TableBody)
        (tableId columnId : string) (db db' : Db.t) (t : option TableRow.t)
        (cols : list ColumnRow.t) :
  foreignKeysHold db = true ->
  Routes.createTable schemaId body tableId columnId db = (Routes.Created t cols, db') ->
  fst (Routes.deleteTable schemaId tableId db') = Routes.Deleted
  /\ tables (snd (Routes.deleteTable schemaId tableId db')) = tables db
  /\ columns (snd (Routes.deleteTable schemaId tableId db')) = columns db
  /\ relationships (snd (Routes.deleteTable schemaId tableId db')) = relationships db.
Proof.
  intros Hfk Hcreate.
  enough (Hwhole : Routes.deleteTable schemaId tableId db' = (Routes.Deleted, db))
    by (rewrite Hwhole; split; [reflexivity|]; split; [reflexivity|];
        split; reflexivity).
  destruct (createTable_created _ _ _ _ _ _ _ _ Hcreate)
    as (name & x & y & _ & _ & _ & Hrow & Hcolfresh & Hdb & _ & _).
  pose proof (fresh_table_id _ _ _ Hrow) as Hfresh. cbn [TableRow.id] in Hfresh.
  pose proof (no_column_of_missing_table db tableId Hfk Hfresh) as Hnocol.
  pose proof (existsb_false_all _ _ _ Hcolfresh) as Hcolid. cbn beta in Hcolid.
  unfold Routes.deleteTable, selectTableInSchema. subst db'. cbn [tables].
  rewrite (find_last_only _ _ (tables db)).
  2:{ intros r Hr. now rewrite (Hfresh r Hr). }
  2:{ cbn. unfold textEq. now rewrite !String.eqb_refl. }
  f_equal. unfold Db.deleteTable. cbn [schemas tables columns relationships].
  rewrite !filter_app. cbn [filter TableRow.id ColumnRow.table_id].
  unfold textEq at 2 4. rewrite !String.eqb_refl. cbn [negb]. rewrite !app_nil_r.
  rewrite (filter_everything _ _ (tables db))
    by (intros r Hr; now rewrite (Hfresh r Hr)).
  rewrite (filter_everything _ _ (columns db))
    by (intros c Hc; now rewrite (Hnocol c Hc)).
  rewrite (filter_everything _ _ (relationships db)).
  - now destruct db.
  - intros r Hr.
    unfold foreignKeysHold in Hfk.
    apply andb_true_iff in Hfk. destruct Hfk as [_ Hrels].
    rewrite forallb_forall in Hrels. specialize (Hrels r Hr).
    unfold relationshipEndsExist in Hrels.
    repeat (apply andb_true_iff in Hrels; destruct Hrels as [Hrels ?]).
    assert (Htab : forall tid, tableExists db tid = true -> textEq tid tableId = false).
    { intros tid Hex. unfold tableExists in Hex. apply existsb_exists in Hex.
      destruct Hex as (r0 & Hr0 & Heq). unfold textEq in Heq.
      apply String.eqb_eq in Heq. subst tid. now apply Hfresh. }
    assert (Hgone : forall cid, columnExists db cid = true ->
              existsb (fun c => textEq (ColumnRow.table_id c) tableId
                                && textEq (ColumnRow.id c) cid)
                      (columns db ++
                       [ColumnRow.mk columnId tableId "id" "INTEGER" None None None
                                     true false false true true None None 0]) = false).
    { intros cid Hex. rewrite existsb_app. apply orb_false_iff. split.
      - apply not_true_iff_false. intros Hin. apply existsb_exists in Hin.
        destruct Hin as (c & Hc & Hboth). now rewrite (Hnocol c Hc) in Hboth.
      - cbn. rewrite orb_false_r. apply andb_false_iff. right.
        unfold columnExists in Hex. apply existsb_exists in Hex.
        destruct Hex as (c & Hc & Heq). unfold textEq in *.
        apply String.eqb_eq in Heq. subst cid.
        specialize (Hcolid c Hc). rewrite String.eqb_sym. exact Hcolid. }
    rewrite (Htab _ H2), (Htab _ H0), (Hgone _ H1), (Hgone _ H). reflexivity.
Qed.

Lemma create_then_delete_restores_witness :
  tables (snd (Routes.handle Routes.postCustomerUpper Routes.oneSchema))
  = [TableRow.mk "t1" "schema-1" "Customer" "" 0 0 "#ffffff"]
  /\ fst (Routes.deleteTable "schema-1" "t1"
            (snd (Routes.handle Routes.postCustomerUpper Routes.oneSchema)))
     = Routes.Deleted
  /\ tables (snd (Routes.deleteTable "schema-1" "t1"
                    (snd (Routes.handle Routes.postCustomerUpper Routes.oneSchema))))
     = []
  /\ columns (snd (Routes.deleteTable "schema-1" "t1"
                     (snd (Routes.handle Routes.postCustomerUpper Routes.oneSchema))))
     = [].
Proof.
  destruct (create_then_delete_restores "schema-1"
              (Routes.mkTableBody (Some "Customer") None (Some (0, 0)) None) "t1" "c1"
              Routes.oneSchema
              (snd (Routes.handle Routes.postCustomerUpper Routes.oneSchema))
              (Some (TableRow.mk "t1" "schema-1" "Customer" "" 0 0 "#ffffff"))
              [ColumnRow.mk "c1" "t1" "id" "INTEGER" None None None
                            true false false true true None None 0])
    as (Hanswer & Htables & Hcolumns & _); [reflexivity | reflexivity |].
  split; [reflexivity|]. split; [exact Hanswer|].
  split; [exact Htables | exact Hcolumns].
Defined.

End CreateTableProperties.

(** ** The foreign keys along the table routes *)
Section ForeignKeys.
Import Db Integrity.
Local Open Scope list_scope.

Lemma foreignKeysHold_spec (db : Db.t) :
  foreignKeysHold db = true <->
  (forall r, In r (tables db) -> schemaExists db (TableRow.schema_id r) = true)
  /\ (forall c, In c (columns db) -> tableExists db (ColumnRow.table_id c) = true)
  /\ (forall r, In r (relationships db) -> relationshipEndsExist db r = true).
Proof.
  unfold foreignKeysHold. rewrite !andb_true_iff, !forallb_forall. tauto.
Qed.

Lemma ends_exist_transfer (db db' : Db.t) (r : RelationshipRow.t) :
  schemas db' = schemas db ->
  (tableExists db (RelationshipRow.source_table_id r) = true ->
   tableExists db' (RelationshipRow.source_table_id r) = true) ->
  (tableExists db (RelationshipRow.target_table_id r) = true ->
   tableExists db' (RelationshipRow.target_table_id r) = true) ->
  (columnExists db (RelationshipRow.source_column_id r) = true ->
   columnExists db' (RelationshipRow.source_column_id r) = true) ->
  (columnExists db (RelationshipRow.target_column_id r) = true ->
   columnExists db' (RelationshipRow.target_column_id r) = true) ->
  relationshipEndsExist db r = true -> relationshipEndsExist db' r = true.
Proof.
  unfold relationshipEndsExist, schemaExists. intros Hs H1 H2 H3 H4 H.
  rewrite Hs. rewrite !andb_true_iff in *. intuition.
Qed.

Lemma exists_in_longer (Row : Type) (test : Row -> bool) (rows more : list Row) :
  existsb test rows = true -> existsb test (rows ++ more) = true.
Proof. intros H. rewrite existsb_app, H. reflexivity. Qed.

Lemma insertTable_keeps_keys (row : TableRow.t) (db db' : Db.t) :
  foreignKeysHold db = true -> insertTable row db = Some db' ->
  foreignKeysHold db' = true.
Proof.
  unfold insertTable. intros Hfk H.
  destruct (tableRowAllowed row (tables db) db) eqn:Hrow; [|discriminate].
  injection H as <-. apply foreignKeysHold_spec in Hfk.
  destruct Hfk as (Ht & Hc & Hr). apply foreignKeysHold_spec.
  cbn [schemas tables columns relationships]. split; [|split].
  - intros r Hin. apply in_app_or in Hin. destruct Hin as [Hin|[<-|[]]].
    + now apply Ht.
    + unfold tableRowAllowed in Hrow.
      apply andb_true_iff in Hrow. destruct Hrow as [Hrow _].
      apply andb_true_iff in Hrow. now destruct Hrow as [_ Hrow].
  - intros c Hin. unfold tableExists. cbn [tables].
    apply exists_in_longer. now apply Hc.
  - intros r Hin. apply (ends_exist_transfer db); try reflexivity; try (now apply Hr);
      try (intros Hsame; exact Hsame);
      unfold tableExists; cbn [tables]; apply exists_in_longer.
Qed.

Lemma insertColumn_keeps_keys (row : ColumnRow.t) (db db' : Db.t) :
  foreignKeysHold db = true -> insertColumn row db = Some db' ->
  foreignKeysHold db' = true.
Proof.
  unfold insertColumn. intros Hfk H.
  destruct (columnRowAllowed row db) eqn:Hrow; [|discriminate].
  injection H as <-. apply foreignKeysHold_spec in Hfk.
  destruct Hfk as (Ht & Hc & Hr). apply foreignKeysHold_spec.
  cbn [schemas tables columns relationships]. split; [|split].
  - exact Ht.
  - intros c Hin. apply in_app_or in Hin. destruct Hin as [Hin|[<-|[]]].
    + now apply Hc.
    + unfold columnRowAllowed in Hrow.
      apply andb_true_iff in Hrow. destruct Hrow as [Hrow _].
      apply andb_true_iff in Hrow. now destruct Hrow as [_ Hrow].
  - intros r Hin. apply (ends_exist_transfer db); try reflexivity; try (now apply Hr);
      try (intros Hsame; exact Hsame);
      unfold columnExists; cbn [columns]; apply exists_in_longer.
Qed.

Lemma exists_after_change (change : TableRow.t -> TableRow.t) (tableId x : string)
      (rows : list TableRow.t) :
  (forall r, TableRow.id (change r) = TableRow.id r) ->
  existsb (fun r => textEq (TableRow.id r) x)
          (map (fun r => if textEq (TableRow.id r) tableId then change r else r) rows)
  = existsb (fun r => textEq (TableRow.id r) x) rows.
Proof.
  intros Hid. induction rows as [|r rows IH]; cbn; [reflexivity|].
  rewrite IH. destruct (textEq (TableRow.id r) tableId); [now rewrite Hid | reflexivity].
Qed.

Lemma updateTable_keeps_keys (tableId : string) (change : TableRow.t -> TableRow.t)
      (db db' : Db.t) :
  (forall r, TableRow.id (change r) = TableRow.id r) ->
  (forall r, TableRow.schema_id (change r) = TableRow.schema_id r) ->
  foreignKeysHold db = true -> Db.updateTable tableId change db = Some db' ->
  foreignKeysHold db' = true.
Proof.
  unfold Db.updateTable. intros Hid Hsid Hfk H.
  destruct (forallb _ (tables db)); [|discriminate].
  injection H as <-. apply foreignKeysHold_spec in Hfk.
  destruct Hfk as (Ht & Hc & Hr). apply foreignKeysHold_spec.
  cbn [schemas tables columns relationships]. split; [|split].
  - intros r Hin. apply in_map_iff in Hin. destruct Hin as (r0 & <- & Hin0).
    unfold schemaExists. cbn [schemas].
    destruct (textEq (TableRow.id r0) tableId); [rewrite Hsid|]; now apply Ht.
  - intros c Hin. unfold tableExists. cbn [tables].
    rewrite exists_after_change by exact Hid. now apply Hc.
  - intros r Hin. apply (ends_exist_transfer db); try reflexivity; try (now apply Hr);
      try (intros Hsame; exact Hsame);
      unfold tableExists; cbn [tables];
      now rewrite exists_after_change by exact Hid.
Qed.

Lemma deleteTable_keeps_keys (tableId : string) (db : Db.t) :
  foreignKeysHold db = true -> foreignKeysHold (Db.deleteTable tableId db) = true.
Proof.
  intros Hfk. apply foreignKeysHold_spec in Hfk.
  destruct Hfk as (Ht & Hc & Hr). apply foreignKeysHold_spec.
  unfold Db.deleteTable. cbn [schemas tables columns relationships].
  assert (Hkeep : forall x, textEq x tableId = false -> tableExists db x = true ->
            existsb (fun r => textEq (TableRow.id r) x)
                    (filter (fun r => negb (textEq (TableRow.id r) tableId)) (tables db))
            = true).
  { intros x Hx Hex. unfold tableExists in Hex. apply existsb_exists in Hex.
    destruct Hex as (r & Hin & Heq). apply existsb_exists. exists r.
    split; [|exact Heq]. apply filter_In. split; [exact Hin|].
    unfold textEq in *. apply String.eqb_eq in Heq. rewrite Heq. now rewrite Hx. }
  assert (Hcol : forall cid,
            existsb (fun c => textEq (ColumnRow.table_id c) tableId
                              && textEq (ColumnRow.id c) cid) (columns db) = false ->
            columnExists db cid = true ->
            existsb (fun c => textEq (ColumnRow.id c) cid)
                    (filter (fun c => negb (textEq (ColumnRow.table_id c) tableId))
                            (columns db)) = true).
  { intros cid Hgone Hex. unfold columnExists in Hex. apply existsb_exists in Hex.
    destruct Hex as (c & Hin & Heq). apply existsb_exists. exists c.
    split; [|exact Heq]. apply filter_In. split; [exact Hin|].
    pose proof (existsb_false_all _ _ _ Hgone c Hin) as Hc0. cbn beta in Hc0.
    rewrite Heq, andb_true_r in Hc0. now rewrite Hc0. }
  split; [|split].
  - intros r Hin. apply filter_In in Hin. destruct Hin as [Hin _]. now apply Ht.
  - intros c Hin. apply filter_In in Hin. destruct Hin as [Hin Hk].
    apply negb_true_iff in Hk. unfold tableExists. cbn [tables].
    apply Hkeep; [exact Hk | now apply Hc].
  - intros r Hin. apply filter_In in Hin. destruct Hin as [Hin Hk].
    repeat (apply andb_true_iff in Hk; destruct Hk as [Hk ?]).
    repeat match goal with H : negb _ = true |- _ => apply negb_true_iff in H end.
    specialize (Hr r Hin). unfold relationshipEndsExist in *.
    rewrite !andb_true_iff in *. destruct Hr as ((((Hs & Hst) & Hsc) & Htt) & Htc).
    unfold tableExists at 1 2, columnExists at 1 2. cbn [tables columns].
    repeat split.
    + exact Hs.
    + now apply Hkeep.
    + now apply Hcol.
    + now apply Hkeep.
    + now apply Hcol.
Qed.

(** X3.  The table routes keep the foreign keys of the database: in every
    database they reach from one whose foreign keys hold, each table names a
    schema that exists, each column a table that exists, and each
    relationship a schema, tables and columns that exist. *)
Theorem table_routes_keep_foreign_keys (start db : Db.t) :
  foreignKeysHold start = true -> Routes.reachable start db ->
  foreignKeysHold db = true.
Proof.
  intros Hstart Hreach. induction Hreach as [|db req _ IH]; [exact Hstart|].
  destruct req as [schemaId body tableId columnId | schemaId tableId body
                  | schemaId tableId]; cbn [Routes.handle].
  - unfold Routes.createTable.
    destruct (Routes.name body) as [n|]; [|exact IH].
    destruct (Routes.position body) as [[x y]|]; [|exact IH].
    destruct (selectTableByName schemaId n db); [exact IH|].
    destruct (insertTable _ db) as [db1|] eqn:Hins; [|exact IH].
    pose proof (insertTable_keeps_keys _ _ _ IH Hins) as H1.
    destruct (insertColumn _ db1) as [db2|] eqn:Hcol; [|exact H1].
    exact (insertColumn_keeps_keys _ _ _ H1 Hcol).
  - rewrite updateTable_body. cbv zeta.
    destruct (selectTableInSchema tableId schemaId db); [|exact IH].
    destruct (Routes.name body), (Routes.description body), (Routes.position body),
             (Routes.color body);
      try exact IH;
      (match goal with
       | |- context [Db.updateTable ?t ?c ?d] =>
           destruct (Db.updateTable t c d) as [db'|] eqn:Hupd; [|exact IH];
           cbn [snd]; apply (updateTable_keeps_keys t c d db');
           [reflexivity | reflexivity | exact IH | exact Hupd]
       end).
  - unfold Routes.deleteTable.
    destruct (selectTableInSchema tableId schemaId db); [|exact IH].
    now apply deleteTable_keeps_keys.
Qed.

Lemma table_routes_keep_foreign_keys_witness :
  foreignKeysHold
    (snd (Routes.handle (Routes.DeleteTable "schema-1" "t-users") Samples.shopDb)) = true.
Proof.
  apply (table_routes_keep_foreign_keys Samples.shopDb).
  - reflexivity.
  - apply Routes.reach_step, Routes.reach_start.
Defined.

End ForeignKeys.

(** ** Answers of the table routes that leave something behind *)
Section RouteFailures.
Import Db Integrity.
Local Open Scope list_scope.

Lemma find_none_existsb (Row : Type) (test : Row -> bool) (rows : list Row) :
  find test rows = None -> existsb test rows = false.
Proof.
  intros Hfind. apply not_true_iff_false. intros Hex.
  apply existsb_exists in Hex. destruct Hex as (row & Hin & Htest).
  now rewrite (find_none _ _ Hfind row Hin) in Htest.
Qed.

(** X4.  POST /:schemaId/tables is not atomic.  When [uuidv4()] hands out a
    column id that a column already has, the INSERT of the table has gone
    through before the INSERT of its [id] column is rejected: the answer is
    500, and the database keeps the new table, which has no column. *)
Theorem create_table_not_atomic (schemaId : string) (body : Routes.TableBody)
        (tableId columnId name : string) (x y : nat) (db : Db.t) :
  foreignKeysHold db = true ->
  Routes.name body = Some name -> Routes.position body = Some (x, y) ->
  selectTableByName schemaId name db = None ->
  schemaExists db schemaId = true ->
  tableExists db tableId = false ->
  columnExists db columnId = true ->
  exists db',
    Routes.createTable schemaId body tableId columnId db
    = (Routes.InternalServerError, db')
    /\ tables db' = tables db ++
                    [TableRow.mk tableId schemaId name
                                 (Routes.orElse (Routes.description body) "")
                                 x y (Routes.orElse (Routes.color body) "#ffffff")]
    /\ columns db' = columns db
    /\ Routes.selectColumns tableId db' = [].
Proof.
  intros Hfk Hname Hpos Hsel Hschema Htable Hcolumn.
  unfold Routes.createTable. rewrite Hname, Hpos, Hsel.
  unfold insertTable, tableRowAllowed.
  cbn [TableRow.id TableRow.schema_id TableRow.name].
  unfold tableExists in Htable. rewrite Htable.
  unfold schemaExists in Hschema. rewrite Hschema.
  unfold selectTableByName in Hsel. rewrite (find_none_existsb _ _ _ Hsel).
  cbn [negb andb].
  unfold insertColumn, columnRowAllowed.
  cbn [ColumnRow.id columns]. unfold columnExists in Hcolumn. rewrite Hcolumn.
  cbn [negb andb]. eexists. split; [reflexivity|].
  cbn [tables columns]. split; [reflexivity|]. split; [reflexivity|].
  unfold Routes.selectColumns. cbn [columns].
  rewrite (filter_nothing _ _ (columns db)); [reflexivity|].
  apply (no_column_of_missing_table db tableId Hfk).
  now apply existsb_false_all.
Qed.

Lemma create_table_not_atomic_witness :
  exists db',
    Routes.createTable "schema-1"
      (Routes.mkTableBody (Some "invoices") None (Some (5, 7)) None)
      "t-invoices" "c-users-id" Samples.shopDb
    = (Routes.InternalServerError, db')
    /\ List.length (tables db') = 3 /\ Routes.selectColumns "t-invoices" db' = [].
Proof.
  destruct (create_table_not_atomic "schema-1"
              (Routes.mkTableBody (Some "invoices") None (Some (5, 7)) None)
              "t-invoices" "c-users-id" "invoices" 5 7 Samples.shopDb)
    as (db' & Hanswer & Htables & _ & Hcolumns); try reflexivity.
  exists db'. split; [exact Hanswer|]. split; [now rewrite Htables | exact Hcolumns].
Defined.

(** X5.  PUT /:schemaId/tables/:tableId has no check of the new name: a
    rename to the name another table of the schema has is rejected by
    UNIQUE(schema_id, name) inside the UPDATE, so the answer is 500 (not the
    409 of the POST route), and the database stays as it was. *)
Theorem rename_to_taken_name_fails (schemaId tableId name : string)
        (body : Routes.TableBody) (db : Db.t) (table other : TableRow.t) :
  selectTableInSchema tableId schemaId db = Some table ->
  Routes.name body = Some name ->
  In other (tables db) ->
  TableRow.id other <> tableId ->
  TableRow.schema_id other = schemaId -> TableRow.name other = name ->
  Routes.updateTable schemaId tableId body db = (Routes.InternalServerError, db).
Proof.
  intros Hsel Hname Hother Hid Hschema Hothername.
  rewrite updateTable_body, Hsel, Hname. cbv zeta.
  assert (Hupdate : forall change,
            (forall r, TableRow.schema_id (change r) = TableRow.schema_id r) ->
            (forall r, TableRow.name (change r) = name) ->
            Db.updateTable tableId change db = None).
  { intros change Hkeep Hnew. unfold Db.updateTable.
    unfold selectTableInSchema in Hsel.
    destruct (find_some _ _ Hsel) as [Hin Hboth].
    apply andb_true_iff in Hboth. destruct Hboth as [Htid Hsid].
    destruct (forallb _ (tables db)) eqn:Hall; [|reflexivity].
    rewrite forallb_forall in Hall. specialize (Hall table Hin).
    rewrite Htid in Hall. cbn [negb orb] in Hall.
    unfold tableRowAllowed in Hall.
    apply andb_true_iff in Hall. destruct Hall as [_ Hunique].
    apply negb_true_iff in Hunique.
    pose proof (existsb_false_all _ _ _ Hunique other) as Hclash.
    cbn beta in Hclash. rewrite Hkeep, Hnew in Hclash.
    unfold textEq in *. apply String.eqb_eq in Hsid.
    rewrite Hschema, Hsid, Hothername, !String.eqb_refl in Hclash.
    cbn in Hclash. exfalso. apply diff_true_false, Hclash.
    apply filter_In. split; [exact Hother|].
    apply negb_true_iff. now apply String.eqb_neq. }
  destruct (Routes.description body), (Routes.position body), (Routes.color body);
    rewrite Hupdate; try reflexivity; intros r; reflexivity.
Qed.

Lemma rename_to_taken_name_fails_witness :
  Routes.updateTable "schema-1" "t-orders"
    (Routes.mkTableBody (Some "users") None None None) Samples.shopDb
  = (Routes.InternalServerError, Samples.shopDb).
Proof.
  apply (rename_to_taken_name_fails "schema-1" "t-orders" "users" _ _
           (TableRow.mk "t-orders" "schema-1" "orders" "" 300 0 "#ffffff")
           (TableRow.mk "t-users" "schema-1" "users" "" 0 0 "#ffffff"));
    try reflexivity.
  - left. reflexivity.
  - discriminate.
Defined.

End RouteFailures.

(** ** Deleting a schema *)
Section DeleteSchema.
Import Db Integrity.
Local Open Scope list_scope.

Lemma deleteSchema_changes (schemaId : string) (db : Db.t) :
  fst (deleteSchema schemaId db) = 0 <-> schemaExists db schemaId = false.
Proof.
  unfold deleteSchema, schemaExists.
  induction (schemas db) as [|s rows IH]; cbn; [tauto|].
  destruct (textEq (SchemaRow.id s) schemaId); cbn.
  - split; discriminate.
  - destruct (List.length (filter _ rows)); cbn in *; exact IH.
Qed.

(** X6.  DELETE /:schemaId answers 404 exactly when no schema has that id,
    and then changes nothing.  When it answers 200 the schema is gone with
    every table and relationship of it and every column of those tables,
    while the tables of the other schemas are all kept, in their order. *)
Theorem delete_schema_answer (schemaId : string) (db : Db.t) :
  let '(answer, db') := deleteSchemaRoute schemaId db in
  (answer = SchemaNotFound <-> schemaExists db schemaId = false)
  /\ (answer = SchemaNotFound -> db' = db)
  /\ (answer = SchemaDeleted ->
      schemaExists db' schemaId = false
      /\ (forall r, In r (tables db') -> TableRow.schema_id r <> schemaId)
      /\ (forall r, In r (relationships db') -> RelationshipRow.schema_id r <> schemaId)
      /\ (forall c r, In c (columns db') -> In r (tables db) ->
                      TableRow.schema_id r = schemaId ->
                      ColumnRow.table_id c <> TableRow.id r)
      /\ (forall other, other <> schemaId ->
            filter (fun r => textEq (TableRow.schema_id r) other) (tables db')
            = filter (fun r => textEq (TableRow.schema_id r) other) (tables db))).
Proof.
  pose proof (deleteSchema_changes schemaId db) as Hchanges.
  unfold deleteSchemaRoute. unfold deleteSchema in *.
  destruct (List.length (filter _ (schemas db))) as [|n] eqn:Hlen;
    cbn [fst Nat.eqb] in *.
  - split; [split; [intros _; now apply Hchanges | reflexivity]|].
    split; [reflexivity | discriminate].
  - split.
    { split; [discriminate|]. intros Hnone. apply Hchanges in Hnone. discriminate. }
    split; [discriminate|]. intros _.
    cbn [schemas tables columns relationships]. split; [|split; [|split; [|split]]].
    + unfold schemaExists. cbn [schemas]. apply not_true_iff_false. intros Hex.
      apply existsb_exists in Hex. destruct Hex as (s & Hin & Heq).
      apply filter_In in Hin. destruct Hin as [_ Hkeep]. now rewrite Heq in Hkeep.
    + intros r Hin. apply filter_In in Hin. destruct Hin as [_ Hkeep].
      apply negb_true_iff in Hkeep. now apply String.eqb_neq.
    + intros r Hin. apply filter_In in Hin. destruct Hin as [_ Hkeep].
      repeat (apply andb_true_iff in Hkeep; destruct Hkeep as [Hkeep _]).
      apply negb_true_iff in Hkeep. now apply String.eqb_neq.
    + intros c r Hin Hr Hsid Heq. apply filter_In in Hin. destruct Hin as [_ Hkeep].
      apply negb_true_iff in Hkeep.
      pose proof (existsb_false_all _ _ _ Hkeep r Hr) as Hrow. cbn beta in Hrow.
      unfold textEq in Hrow. rewrite Hsid, Heq, !String.eqb_refl in Hrow.
      discriminate.
    + intros other Hother. induction (tables db) as [|r rows IH]; [reflexivity|].
      cbn [filter]. unfold textEq in *.
      destruct (String.eqb_spec (TableRow.schema_id r) schemaId) as [Heq|Hne];
        cbn [negb].
      * rewrite Heq. apply String.eqb_neq in Hother. rewrite String.eqb_sym, Hother.
        exact IH.
      * cbn [filter]. destruct (TableRow.schema_id r =? other); [now rewrite IH | exact IH].
Qed.

(** X7.  DELETE /:schemaId keeps the foreign keys of the database: what the
    cascade leaves behind names only schemas, tables and columns that are
    still there. *)
Theorem delete_schema_keeps_foreign_keys (schemaId : string) (db : Db.t) :
  foreignKeysHold db = true ->
  foreignKeysHold (snd (deleteSchemaRoute schemaId db)) = true.
Proof.
  intros Hfk. unfold deleteSchemaRoute, deleteSchema.
  destruct (List.length (filter _ (schemas db))); cbn [Nat.eqb snd]; [exact Hfk|].
  apply foreignKeysHold_spec in Hfk. destruct Hfk as (Ht & Hc & Hr).
  set (goneTable := fun tid =>
         existsb (fun r => textEq (TableRow.schema_id r) schemaId
                           && textEq (TableRow.id r) tid) (tables db)).
  set (goneColumn := fun cid =>
         existsb (fun c => goneTable (ColumnRow.table_id c)
                           && textEq (ColumnRow.id c) cid) (columns db)).
  apply foreignKeysHold_spec. cbn [schemas tables columns relationships].
  assert (Hschema : forall x, textEq x schemaId = false -> schemaExists db x = true ->
            existsb (fun s => textEq (SchemaRow.id s) x)
                    (filter (fun s => negb (textEq (SchemaRow.id s) schemaId)) (schemas db))
            = true).
  { intros x Hx Hex. unfold schemaExists in Hex. apply existsb_exists in Hex.
    destruct Hex as (s & Hin & Heq). apply existsb_exists. exists s.
    split; [|exact Heq]. apply filter_In. split; [exact Hin|].
    unfold textEq in *. apply String.eqb_eq in Heq. rewrite Heq. now rewrite Hx. }
  assert (Htable : forall x, goneTable x = false -> tableExists db x = true ->
            existsb (fun r => textEq (TableRow.id r) x)
                    (filter (fun r => negb (textEq (TableRow.schema_id r) schemaId))
                            (tables db)) = true).
  { intros x Hx Hex. unfold tableExists in Hex. apply existsb_exists in Hex.
    destruct Hex as (r & Hin & Heq). apply existsb_exists. exists r.
    split; [|exact Heq]. apply filter_In. split; [exact Hin|].
    pose proof (existsb_false_all _ _ _ Hx r Hin) as Hrow. cbn beta in Hrow.
    rewrite Heq, andb_true_r in Hrow. now rewrite Hrow. }
  assert (Hcolumn : forall x, goneColumn x = false -> columnExists db x = true ->
            existsb (fun c => textEq (ColumnRow.id c) x)
                    (filter (fun c => negb (goneTable (ColumnRow.table_id c)))
                            (columns db)) = true).
  { intros x Hx Hex. unfold columnExists in Hex. apply existsb_exists in Hex.
    destruct Hex as (c & Hin & Heq). apply existsb_exists. exists c.
    split; [|exact Heq]. apply filter_In. split; [exact Hin|].
    pose proof (existsb_false_all _ _ _ Hx c Hin) as Hrow. cbn beta in Hrow.
    rewrite Heq, andb_true_r in Hrow. now rewrite Hrow. }
  split; [|split].
  - intros r Hin. apply filter_In in Hin. destruct Hin as [Hin Hkeep].
    apply negb_true_iff in Hkeep. unfold schemaExists. cbn [schemas].
    apply Hschema; [exact Hkeep | now apply Ht].
  - intros c Hin. apply filter_In in Hin. destruct Hin as [Hin Hkeep].
    apply negb_true_iff in Hkeep. unfold tableExists. cbn [tables].
    apply Htable; [exact Hkeep | now apply Hc].
  - intros r Hin. apply filter_In in Hin. destruct Hin as [Hin Hkeep].
    repeat (apply andb_true_iff in Hkeep; destruct Hkeep as [Hkeep ?]).
    repeat match goal with H : negb _ = true |- _ => apply negb_true_iff in H end.
    specialize (Hr r Hin). unfold relationshipEndsExist in *.
    rewrite !andb_true_iff in *. destruct Hr as ((((Hs & Hst) & Hsc) & Htt) & Htc).
    unfold schemaExists at 1, tableExists at 1 2, columnExists at 1 2.
    cbn [schemas tables columns].
    split; [split; [split; [split|]|]|].
    + now apply Hschema.
    + now apply Htable.
    + now apply Hcolumn.
    + now apply Htable.
    + now apply Hcolumn.
Qed.

Lemma delete_schema_keeps_foreign_keys_witness :
  foreignKeysHold (snd (deleteSchemaRoute "schema-1" Samples.shopDb)) = true.
Proof.
  apply (delete_schema_keeps_foreign_keys "schema-1" Samples.shopDb). reflexivity.
Defined.

End DeleteSchema.

(** ** The options of the SQL route, and what the API client sends for them *)
Section SqlOptions.
Import SqlRoute.

(** X8.  GET /:schemaId/sql turns a flag on only for the query text [true].
    The boolean default [includeComments = true] of the destructuring is
    never equal to the text, so a request without [includeComments] gets no
    comments; indexes and constraints are always asked for. *)
Theorem sql_route_flags (query : SqlQuery) :
  (includeDropStatements (generatorOptions query) = true
   <-> dropStatements query = Some "true")
  /\ (includeComments (generatorOptions query) = true
      <-> comments query = Some "true")
  /\ (comments query = None -> includeComments (generatorOptions query) = false)
  /\ includeIndexes (generatorOptions query) = true
  /\ includeConstraints (generatorOptions query) = true.
Proof.
  unfold generatorOptions. cbn [includeDropStatements includeComments
                                includeIndexes includeConstraints].
  assert (Htext : forall (q : option string) (default : bool),
            isTextTrue (withDefault q (QBool default)) = true <-> q = Some "true").
  { intros [s|] default; cbn.
    - rewrite String.eqb_eq. split; [now intros -> | now intros [= ->]].
    - split; discriminate. }
  split; [apply Htext|]. split; [apply Htext|].
  split; [now intros ->|]. split; reflexivity.
Qed.

(** X9.  Through [APIClient.generateSQL] a flag reaches the generator as
    [Boolean(value)] of what the caller gave, and as [false] when the caller
    gave nothing: the client never sends a flag it was not given, and the
    route reads a missing flag as off.  So a non-empty text, the text
    [false] included, turns the flag on. *)
Theorem client_flags_reach_generator (options : ApiClient.SQLOptions) :
  let sent := generatorOptions (ApiClient.params (ApiClient.validateSQLOptions options)) in
  includeDropStatements sent
  = match ApiClient.includeDropStatements options with
    | Some value => ApiClient.toBoolean value
    | None => false
    end
  /\ includeComments sent
     = match ApiClient.includeComments options with
       | Some value => ApiClient.toBoolean value
       | None => false
       end
  /\ (forall text, text <> "" ->
        ApiClient.includeDropStatements options = Some (ApiClient.VText text) ->
        includeDropStatements sent = true).
Proof.
  cbn zeta. unfold generatorOptions, ApiClient.params, ApiClient.validateSQLOptions.
  cbn [includeDropStatements includeComments dropStatements comments
       ApiClient.validDropStatements ApiClient.validComments].
  assert (Hflag : forall (given : option ApiClient.Value) (default : bool),
            isTextTrue (withDefault
                          (option_map ApiClient.boolText
                             (option_map ApiClient.toBoolean given)) (QBool default))
            = match given with
              | Some value => ApiClient.toBoolean value
              | None => false
              end).
  { intros [value|] default; cbn; [|reflexivity].
    now destruct (ApiClient.toBoolean value). }
  split; [apply Hflag|]. split; [apply Hflag|].
  intros text Htext ->. rewrite Hflag. cbn.
  apply negb_true_iff. now apply String.eqb_neq.
Qed.

(** X10.  Whatever dialect a caller gives [APIClient.generateSQL], the route
    builds its generator with one of [mysql], [postgresql], [sqlite] and
    [mssql]: a dialect of that list goes through unchanged, every other
    value ends as [mysql]. *)
Theorem client_dialect_is_supported (options : ApiClient.SQLOptions) :
  let asked := requestedDialect (ApiClient.params (ApiClient.validateSQLOptions options)) in
  In asked ApiClient.allowedDialects
  /\ (forall d, ApiClient.dialect options = Some d ->
        In d ApiClient.allowedDialects -> asked = d)
  /\ (forall d, ApiClient.dialect options = Some d ->
        ~ In d ApiClient.allowedDialects -> asked = "mysql").
Proof.
  cbn zeta. unfold requestedDialect, ApiClient.params, ApiClient.validateSQLOptions.
  cbn [dialect ApiClient.validDialect].
  assert (Hlist : forall d, existsb (String.eqb d) ApiClient.allowedDialects = true
                            <-> In d ApiClient.allowedDialects).
  { intros d. rewrite existsb_exists. split.
    - intros (x & Hin & Heq). apply String.eqb_eq in Heq. now subst x.
    - intros Hin. exists d. split; [exact Hin | apply String.eqb_refl]. }
  destruct (ApiClient.dialect options) as [d|].
  - destruct (negb (d =? "") && existsb (String.eqb d) ApiClient.allowedDialects)
      eqn:Hkeep.
    + apply andb_true_iff in Hkeep. destruct Hkeep as [_ Hin]. apply Hlist in Hin.
      split; [exact Hin|]. split; [now intros d' [= <-] | intros d' [= <-] Hout].
      contradiction.
    + split; [now left|]. split; [|reflexivity].
      intros d' [= <-] Hin. apply andb_false_iff in Hkeep.
      destruct Hkeep as [Hempty|Hout].
      * apply negb_false_iff, String.eqb_eq in Hempty. subst d.
        cbn in Hin. intuition discriminate.
      * apply Hlist in Hin. congruence.
  - split; [now left|]. split; discriminate.
Qed.

End SqlOptions.

(** ** The API client: endpoints and identifiers *)
Section SanitizeEndpoint.
Import ApiClient ApiInput.

Lemma includes_pair (c : ascii) (s : string) :
  JS.includes s (String c (String c EmptyString)) = adjacent c s.
Proof.
  induction s as [|a tail IH]; [reflexivity|].
  cbn [JS.includes]. rewrite IH. cbn [JS.startsWith adjacent].
  destruct tail as [|b rest]; cbn [JS.startsWith adjacent].
  - now rewrite andb_false_r.
  - now rewrite andb_true_r.
Qed.

Lemma adjacent_cons (c a : ascii) (s : string) :
  adjacent c (String a s) = (Ascii.eqb c a && headIs c s) || adjacent c s.
Proof. destruct s as [|b rest]; cbn; [now rewrite andb_false_r | reflexivity]. Qed.

(** Induction over a text two characters at a time. *)
Lemma string_pair_ind (P : string -> Prop) :
  P EmptyString -> (forall a, P (String a EmptyString)) ->
  (forall a b rest, P rest -> P (String b rest) -> P (String a (String b rest))) ->
  forall s, P s.
Proof.
  intros Hempty Hone Hstep s.
  assert (Hboth : P s /\ forall a, P (String a s)).
  { induction s as [|b rest [IHrest IHcons]].
    - split; [exact Hempty | exact Hone].
    - split; [apply IHcons|]. intros a. apply Hstep; [exact IHrest | apply IHcons]. }
  apply Hboth.
Qed.

Lemma removeDotDot_head (c : ascii) (s : string) :
  headIs c (removeDotDot s) = true -> headIs "." s = true \/ headIs c s = true.
Proof.
  destruct s as [|a [|b rest]]; cbn [removeDotDot]; try (now right).
  destruct (isDot a && isDot b) eqn:Hdots; [|now right].
  intros _. left. apply andb_true_iff in Hdots. destruct Hdots as [Ha _].
  unfold isDot in Ha. cbn [headIs]. now rewrite Ascii.eqb_sym.
Qed.

Lemma removeDotDot_step (a b : ascii) (rest : string) :
  removeDotDot (String a (String b rest))
  = if isDot a && isDot b then removeDotDot rest
    else String a (removeDotDot (String b rest)).
Proof. reflexivity. Qed.

Lemma removeDotDot_no_pair (s : string) : adjacent "." (removeDotDot s) = false.
Proof.
  induction s as [|a|a b rest IHrest IHtail] using string_pair_ind;
    [reflexivity | reflexivity |].
  rewrite removeDotDot_step. destruct (isDot a && isDot b) eqn:Hdots; [exact IHrest|].
  rewrite adjacent_cons, IHtail, orb_false_r.
  destruct (Ascii.eqb "." a) eqn:Ha; [|reflexivity]. cbn [andb].
  apply not_true_iff_false. intros Hhead.
  apply removeDotDot_head in Hhead. cbn [headIs] in Hhead.
  assert (Hb : Ascii.eqb "." b = true) by tauto.
  unfold isDot in Hdots. rewrite (Ascii.eqb_sym a), (Ascii.eqb_sym b), Ha, Hb in Hdots.
  discriminate.
Qed.

Lemma collapseSlashes_head (c : ascii) (s : string) :
  headIs c (collapseSlashes false s) = headIs c s.
Proof. destruct s as [|a rest]; cbn; [reflexivity|]. now destruct (isSlash a). Qed.

Lemma collapseSlashes_keeps_dots (inRun : bool) (s : string) :
  adjacent "." s = false -> adjacent "." (collapseSlashes inRun s) = false.
Proof.
  revert inRun. induction s as [|a rest IH]; intros inRun Hs; [reflexivity|].
  rewrite adjacent_cons in Hs. apply orb_false_iff in Hs. destruct Hs as [Hpair Hrest].
  cbn [collapseSlashes]. destruct (isSlash a) eqn:Ha.
  - unfold isSlash in Ha. apply Ascii.eqb_eq in Ha. subst a.
    destruct inRun; [now apply IH|].
    rewrite adjacent_cons. cbn [Ascii.eqb Bool.eqb andb orb]. now apply IH.
  - rewrite adjacent_cons, collapseSlashes_head, Hpair. now apply IH.
Qed.

Lemma collapseSlashes_no_pair (inRun : bool) (s : string) :
  adjacent "/" (collapseSlashes inRun s) = false
  /\ (inRun = true -> headIs "/" (collapseSlashes inRun s) = false).
Proof.
  revert inRun. induction s as [|a rest IH]; intros inRun; [now split|].
  cbn [collapseSlashes]. destruct (isSlash a) eqn:Ha.
  - destruct (IH true) as [Hpair Hhead]. destruct inRun.
    + split; [exact Hpair | exact Hhead].
    + split; [|discriminate]. rewrite adjacent_cons, Hpair, Hhead by reflexivity.
      now rewrite andb_false_r.
  - destruct (IH false) as [Hpair _]. unfold isSlash in Ha.
    rewrite adjacent_cons, Hpair. cbn [headIs]. rewrite (Ascii.eqb_sym "/"), Ha.
    now split.
Qed.

(** X11.  What [sanitizeEndpoint] returns has neither two dots in a row nor
    two slashes in a row, whatever the endpoint was. *)
Theorem sanitizeEndpoint_clean (endpoint : string) :
  JS.includes (sanitizeEndpoint endpoint) ".." = false
  /\ JS.includes (sanitizeEndpoint endpoint) "//" = false.
Proof.
  unfold sanitizeEndpoint. rewrite !includes_pair. split.
  - apply collapseSlashes_keeps_dots, removeDotDot_no_pair.
  - apply collapseSlashes_no_pair.
Qed.

Lemma removeDotDot_same (s : string) : adjacent "." s = false -> removeDotDot s = s.
Proof.
  induction s as [|a tail IH]; [reflexivity|]. intros Hs.
  rewrite adjacent_cons in Hs. apply orb_false_iff in Hs. destruct Hs as [Hpair Htail].
  cbn [removeDotDot]. destruct tail as [|b rest]; [reflexivity|].
  cbn [headIs] in Hpair. unfold isDot.
  rewrite (Ascii.eqb_sym a), (Ascii.eqb_sym b), Hpair. f_equal. now apply IH.
Qed.

Lemma collapseSlashes_same (inRun : bool) (s : string) :
  adjacent "/" s = false -> (inRun = true -> headIs "/" s = false) ->
  collapseSlashes inRun s = s.
Proof.
  revert inRun. induction s as [|a rest IH]; intros inRun Hs Hhead; [reflexivity|].
  rewrite adjacent_cons in Hs. apply orb_false_iff in Hs. destruct Hs as [Hpair Hrest].
  cbn [collapseSlashes]. unfold isSlash. cbn [headIs] in Hhead.
  rewrite (Ascii.eqb_sym a). destruct (Ascii.eqb "/" a) eqn:Ha.
  - destruct inRun; [now discriminate Hhead|]. f_equal. apply IH; [exact Hrest|].
    intros _. now cbn [andb] in Hpair.
  - f_equal. apply IH; [exact Hrest | discriminate].
Qed.

Lemma sanitizeEndpoint_same (endpoint : string) :
  adjacent "." endpoint = false -> adjacent "/" endpoint = false ->
  sanitizeEndpoint endpoint = endpoint.
Proof.
  intros Hdots Hslashes. unfold sanitizeEndpoint. rewrite (removeDotDot_same _ Hdots).
  apply collapseSlashes_same; [exact Hslashes | discriminate].
Qed.

Lemma adjacent_without (c : ascii) (s rest : string) :
  without c s = true -> adjacent c (s ++ rest) = adjacent c rest.
Proof.
  induction s as [|a s IH]; [reflexivity|]. cbn [without]. intros Hs.
  apply andb_true_iff in Hs. destruct Hs as [Ha Hs]. apply negb_true_iff in Ha.
  cbn [append]. rewrite adjacent_cons, Ha. now apply IH.
Qed.

Lemma adjacent_before (c : ascii) (s rest : string) :
  headIs c rest = false -> adjacent c (s ++ rest) = adjacent c s || adjacent c rest.
Proof.
  intros Hrest. induction s as [|a s IH]; [reflexivity|].
  cbn [append]. rewrite !adjacent_cons, IH, orb_assoc. f_equal. f_equal. f_equal.
  destruct s; [exact Hrest | reflexivity].
Qed.

Lemma inClass_code (class : CharClass) (c : ascii) :
  inClass class c = true -> nat_of_ascii c = 45 \/ 48 <= nat_of_ascii c.
Proof.
  destruct class; cbn [inClass]; unfold between;
    rewrite ?orb_true_iff, ?andb_true_iff, ?Nat.leb_le.
  - lia.
  - lia.
  - lia.
  - intros Hdash. apply Ascii.eqb_eq in Hdash. subst c. now left.
Qed.

Lemma test_length (regex : list CharClass) (value : string) :
  test regex value = true -> String.length value = List.length regex.
Proof.
  revert value. induction regex as [|class regex IH]; intros [|c value]; cbn;
    try discriminate; [reflexivity|].
  intros H. apply andb_true_iff in H. destruct H as [_ H]. f_equal. now apply IH.
Qed.

Lemma test_without (regex : list CharClass) (value : string) (c : ascii) :
  nat_of_ascii c = 46 \/ nat_of_ascii c = 47 ->
  test regex value = true -> without c value = true.
Proof.
  intros Hc. revert value. induction regex as [|class regex IH]; intros [|a value]; cbn;
    try discriminate; [reflexivity|].
  intros H. apply andb_true_iff in H. destruct H as [Ha H].
  rewrite (IH _ H), andb_true_r. apply negb_true_iff, Ascii.eqb_neq.
  intros ->. apply inClass_code in Ha. lia.
Qed.

Lemma validateUUID_returns (value : Value) (fieldName id : string) :
  validateUUID value fieldName = Returns id ->
  value = VText id /\ test uuidRegex id = true.
Proof.
  unfold validateUUID. destruct value as [b|s|]; try discriminate.
  destruct (negb (s =? "") && test uuidRegex s) eqn:Hok; [|discriminate].
  intros [= <-]. apply andb_true_iff in Hok. now split.
Qed.

Lemma uuid_clean (c : ascii) (id : string) :
  nat_of_ascii c = 46 \/ nat_of_ascii c = 47 ->
  test uuidRegex id = true ->
  without c id = true /\ headIs c id = false /\ adjacent c id = false.
Proof.
  intros Hc Hid. pose proof (test_without _ _ c Hc Hid) as Hwithout.
  split; [exact Hwithout|]. split.
  - destruct id as [|a id]; [reflexivity|]. cbn in Hwithout |- *.
    apply andb_true_iff in Hwithout. destruct Hwithout as [Ha _].
    now apply negb_true_iff in Ha.
  - rewrite <- (append_empty_r id). now rewrite adjacent_without.
Qed.

(** X12.  An identifier [validateUUID] lets through is the text it was
    given, unchanged and 36 characters long, and the endpoint the client
    builds from two such identifiers for a table passes [sanitizeEndpoint]
    unchanged. *)
Theorem validated_ids_make_clean_endpoint (first second : Value)
        (firstField secondField schemaId tableId : string) :
  validateUUID first firstField = Returns schemaId ->
  validateUUID second secondField = Returns tableId ->
  first = VText schemaId /\ second = VText tableId
  /\ String.length schemaId = 36 /\ String.length tableId = 36
  /\ sanitizeEndpoint (tableEndpoint schemaId tableId) = tableEndpoint schemaId tableId.
Proof.
  intros Hfirst Hsecond.
  apply validateUUID_returns in Hfirst. destruct Hfirst as [-> Hschema].
  apply validateUUID_returns in Hsecond. destruct Hsecond as [-> Htable].
  split; [reflexivity|]. split; [reflexivity|].
  split; [exact (test_length _ _ Hschema)|]. split; [exact (test_length _ _ Htable)|].
  assert (Hclean : forall c, nat_of_ascii c = 46 \/ nat_of_ascii c = 47 ->
            adjacent c (tableEndpoint schemaId tableId)
            = adjacent c "/schemas/" || adjacent c "/tables/").
  { intros c Hc. unfold tableEndpoint.
    destruct (uuid_clean c schemaId Hc Hschema) as (Hs1 & Hs2 & _).
    destruct (uuid_clean c tableId Hc Htable) as (_ & Ht2 & Ht3).
    rewrite adjacent_before.
    2:{ destruct schemaId; [discriminate (test_length _ _ Hschema) | exact Hs2]. }
    rewrite (adjacent_without c schemaId) by exact Hs1.
    rewrite (adjacent_before c "/tables/") by exact Ht2.
    now rewrite Ht3, orb_false_r. }
  apply sanitizeEndpoint_same; rewrite Hclean; try reflexivity; [now left | now right].
Qed.

Lemma validated_ids_make_clean_endpoint_witness :
  sanitizeEndpoint
    (tableEndpoint "123e4567-e89b-42d3-a456-426614174000"
                   "9F8E7D6C-5B4A-4321-8ABC-0123456789AB")
  = "/schemas/123e4567-e89b-42d3-a456-426614174000/tables/9F8E7D6C-5B4A-4321-8ABC-0123456789AB".
Proof.
  apply (validated_ids_make_clean_endpoint
           (VText "123e4567-e89b-42d3-a456-426614174000")
           (VText "9F8E7D6C-5B4A-4321-8ABC-0123456789AB") "Schema ID" "Table ID");
    reflexivity.
Defined.

End SanitizeEndpoint.

(** ** The API client: texts *)
Section ValidateString.
Import ApiClient ApiInput.

Lemma trimStart_length (s : string) : String.length (trimStart s) <= String.length s.
Proof.
  induction s as [|c rest IH]; cbn; [lia|]. destruct (isWhiteSpace c); cbn; lia.
Qed.

Lemma trimEnd_length (s : string) : String.length (trimEnd s) <= String.length s.
Proof.
  induction s as [|c rest IH]; cbn; [lia|].
  destruct (trimEnd rest); [destruct (isWhiteSpace c)|]; cbn in *; lia.
Qed.

Lemma trimStart_head (s : string) :
  match trimStart s with
  | EmptyString => True
  | String c _ => isWhiteSpace c = false
  end.
Proof.
  induction s as [|c rest IH]; cbn; [exact I|].
  destruct (isWhiteSpace c) eqn:Hc; [exact IH | exact Hc].
Qed.

Lemma trimStart_same (s : string) :
  match s with
  | EmptyString => True
  | String c _ => isWhiteSpace c = false
  end -> trimStart s = s.
Proof. destruct s as [|c rest]; cbn; [reflexivity|]. now intros ->. Qed.

Lemma trimEnd_head (s : string) :
  match s with
  | EmptyString => True
  | String c _ => isWhiteSpace c = false
  end ->
  match trimEnd s with
  | EmptyString => True
  | String c _ => isWhiteSpace c = false
  end.
Proof.
  destruct s as [|c rest]; cbn; [trivial|]. intros Hc.
  destruct (trimEnd rest); [now rewrite Hc | exact Hc].
Qed.

Lemma trimEnd_again (s : string) : trimEnd (trimEnd s) = trimEnd s.
Proof.
  induction s as [|c rest IH]; [reflexivity|]. cbn [trimEnd].
  destruct (trimEnd rest) as [|k kept] eqn:Hrest.
  - destruct (isWhiteSpace c) eqn:Hc; [reflexivity|]. cbn. now rewrite Hc.
  - cbn [trimEnd]. cbn [trimEnd] in IH. now rewrite IH.
Qed.

Lemma trim_again (s : string) : trim (trim s) = trim s.
Proof.
  unfold trim.
  rewrite (trimStart_same (trimEnd (trimStart s)))
    by apply trimEnd_head, trimStart_head.
  apply trimEnd_again.
Qed.

Lemma trimStart_blank (s : string) : allWhiteSpace s = true -> trimStart s = "".
Proof.
  induction s as [|c rest IH]; cbn; [reflexivity|]. intros H.
  apply andb_true_iff in H. destruct H as [-> H]. now apply IH.
Qed.


(** X13.  For a text of ASCII characters: when [validateString] returns,
    the length of the text, before trimming, lies between the two bounds,
    and the result is that text trimmed, so it is no longer than the
    maximum and has no white space left at either end, but it can be
    shorter than the minimum.  A value that is not a text is never
    returned. *)
Theorem validateString_returns (value : Value) (fieldName result : string)
        (minLength maxLength : nat) :
  validateString value fieldName minLength maxLength = Returns result ->
  exists text,
    value = VText text
    /\ (isAscii text = true ->
        minLength <= String.length text <= maxLength
        /\ result = trim text
        /\ String.length result <= maxLength
        /\ trim result = result).
Proof.
  unfold validateString. destruct value as [b|text|]; try discriminate.
  destruct (Nat.ltb_spec (String.length text) minLength) as [|Hmin]; [discriminate|].
  destruct (Nat.ltb_spec maxLength (String.length text)) as [|Hmax]; [discriminate|].
  intros [= <-]. exists text. split; [reflexivity|]. intros _. split; [lia|].
  split; [reflexivity|]. split; [|apply trim_again].
  unfold trim. pose proof (trimEnd_length (trimStart text)).
  pose proof (trimStart_length text). lia.
Qed.

Lemma validateString_returns_witness :
  exists text,
    VText "  orders " = VText text
    /\ (isAscii text = true ->
        1 <= String.length text <= 100 /\ "orders" = trim text
        /\ String.length "orders" <= 100 /\ trim "orders" = "orders").
Proof.
  apply (validateString_returns (VText "  orders ") "Table name" "orders" 1 100).
  reflexivity.
Defined.

(** X14.  The minimum length is tested before the text is trimmed: a schema
    name of one to 255 characters that are all white space passes
    [validateSchemaData], and the validated data carry the empty name. *)
Theorem blank_schema_name_passes (data : SchemaData) (name : string) :
  schemaName data = VText name -> allWhiteSpace name = true ->
  1 <= String.length name <= 255 ->
  schemaDescription data = None ->
  exists valid,
    validateSchemaData data = Returns valid
    /\ validName valid = "" /\ validDescription valid = "".
Proof.
  intros Hname Hblank Hlength Hdescription.
  unfold validateSchemaData, validateString. rewrite Hname, Hdescription.
  destruct (Nat.ltb_spec (String.length name) 1) as [|_]; [lia|].
  destruct (Nat.ltb_spec 255 (String.length name)) as [|_]; [lia|].
  eexists. split; [reflexivity|]. cbn [validName validDescription].
  split; [|reflexivity]. unfold trim. now rewrite trimStart_blank.
Qed.

Lemma blank_schema_name_passes_witness :
  exists valid,
    validateSchemaData (mkSchemaData (VText "   ") None None) = Returns valid
    /\ validName valid = "" /\ validDescription valid = "".
Proof.
  apply (blank_schema_name_passes (mkSchemaData (VText "   ") None None) "   ");
    try reflexivity.
  cbn. lia.
Defined.

End ValidateString.

(** ** The API client: numbers *)
Section NumberOrder.
Import ZArith QArith.






End NumberOrder.

Section Numbers.
Import ApiClient ApiInput ApiParams.










End Numbers.

(** ** The table editor of the browser application *)
Section EditorStore.
Import Designer Editor.
Local Open Scope list_scope.

Lemma setAt_length (address : nat) (table : Table.t) (store : list Table.t) :
  List.length (setAt address table store) = List.length store.
Proof.
  revert address. induction store as [|first rest IH]; intros [|address]; cbn;
    try reflexivity. now rewrite IH.
Qed.

Lemma setAt_same (address : nat) (table old : Table.t) (store : list Table.t) :
  nth_error store address = Some old ->
  nth_error (setAt address table store) address = Some table.
Proof.
  revert address. induction store as [|first rest IH]; intros [|address]; cbn;
    try discriminate; [reflexivity | apply IH].
Qed.

Lemma setAt_other (address other : nat) (table : Table.t) (store : list Table.t) :
  other <> address -> nth_error (setAt address table store) other = nth_error store other.
Proof.
  revert address other. induction store as [|first rest IH];
    intros [|address] [|other] Hne; cbn; try reflexivity; try contradiction.
  apply IH. congruence.
Qed.

Lemma tablesOf_in (d : State) (table : Table.t) :
  In table (tablesOf d) <->
  exists address, In address (tables d) /\ tableAt d address = Some table.
Proof.
  unfold tablesOf. rewrite in_flat_map. split.
  - intros (address & Hin & Hat). exists address. split; [exact Hin|].
    destruct (tableAt d address) as [found|]; [|contradiction].
    destruct Hat as [<-|[]]. reflexivity.
  - intros (address & Hin & Hat). exists address. split; [exact Hin|].
    rewrite Hat. now left.
Qed.

Lemma orText_filled (value fallback : string) :
  fallback <> "" -> orText value fallback <> "".
Proof.
  unfold orText. intros Hfallback.
  destruct (String.eqb_spec value ""); [exact Hfallback | assumption].
Qed.

Lemma generateSQL_current (d : State) : previewCurrent (generateSQL d) = true.
Proof. unfold previewCurrent, generateSQL. cbn. apply String.eqb_refl. Qed.

(** Editors that have their four controls are all read. *)
Lemma savedColumns_complete (editors : list ColumnEditor) :
  forallb (fun editor => 4 <=? List.length editor)%nat editors = true ->
  exists columns,
    savedColumns editors = (columns, true)
    /\ List.length columns = List.length editors
    /\ (forall column, In column columns ->
          Column.name column <> "" /\ Column.unique column = false).
Proof.
  induction editors as [|editor rest IH]; cbn [forallb].
  - intros _. exists []. split; [reflexivity|]. split; [reflexivity | contradiction].
  - intros Hall. apply andb_true_iff in Hall. destruct Hall as [Hfour Hrest].
    destruct (IH Hrest) as (columns & Hsaved & Hlength & Hcolumns).
    destruct editor as [|c0 [|c1 [|c2 [|c3 more]]]]; try discriminate Hfour.
    cbn [savedColumns savedColumn]. rewrite Hsaved.
    eexists. split; [reflexivity|]. split; [cbn; now rewrite Hlength|].
    intros column [<-|Hin]; [|now apply Hcolumns].
    split; [now apply orText_filled | reflexivity].
Qed.

(** What [saveTable] has written, however far it came. *)
Lemma saveTable_written (renderTables updateSchemaTree : Schema.t -> bool)
      (d : State) (address : nat) (table : Table.t) :
  editingTable d = Some address -> tableAt d address = Some table ->
  let d' := saveTable renderTables updateSchemaTree d in
  tableAt d' address
  = Some (Table.mk (Table.id table) (orText (tableNameInput d) "unnamed_table")
                   (fst (savedColumns (columnEditors d))))
  /\ (forall other, other <> address -> tableAt d' other = tableAt d other)
  /\ tables d' = tables d /\ relationships d' = relationships d
  /\ schemaId d' = schemaId d /\ schemaName d' = schemaName d.
Proof.
  intros Hediting Hat. cbn zeta. unfold saveTable. rewrite Hediting, Hat.
  destruct (savedColumns (columnEditors d)) as [columns done]. cbn [fst].
  assert (Hwritten : forall d',
            objects d' = setAt address
                               (Table.mk (Table.id table)
                                         (orText (tableNameInput d) "unnamed_table")
                                         columns) (objects d) ->
            tables d' = tables d -> relationships d' = relationships d ->
            schemaId d' = schemaId d -> schemaName d' = schemaName d ->
            tableAt d' address
            = Some (Table.mk (Table.id table) (orText (tableNameInput d) "unnamed_table")
                             columns)
            /\ (forall other, other <> address -> tableAt d' other = tableAt d other)
            /\ tables d' = tables d /\ relationships d' = relationships d
            /\ schemaId d' = schemaId d /\ schemaName d' = schemaName d).
  { intros d' Hobjects Htables Hrels Hid Hname. unfold tableAt in *. rewrite Hobjects.
    split; [exact (setAt_same _ _ _ _ Hat)|].
    split; [intros other Hother; exact (setAt_other _ _ _ _ Hother)|].
    split; [exact Htables|]. split; [exact Hrels|]. split; [exact Hid | exact Hname]. }
  destruct done; [|now apply Hwritten].
  destruct (renderTables _ && updateSchemaTree _); now apply Hwritten.
Qed.

(** When the loop ends and the redrawing returns, the SQL is written anew. *)
Lemma saveTable_current (renderTables updateSchemaTree : Schema.t -> bool)
      (d : State) (address : nat) (table : Table.t) :
  editingTable d = Some address -> tableAt d address = Some table ->
  forallb (fun editor => 4 <=? List.length editor)%nat (columnEditors d) = true ->
  renderTables (currentSchema (saveTable renderTables updateSchemaTree d)) = true ->
  updateSchemaTree (currentSchema (saveTable renderTables updateSchemaTree d)) = true ->
  previewCurrent (saveTable renderTables updateSchemaTree d) = true
  /\ editingTable (saveTable renderTables updateSchemaTree d) = None
  /\ modalShown (saveTable renderTables updateSchemaTree d) = false.
Proof.
  intros Hediting Hat Hfour. unfold saveTable. rewrite Hediting, Hat.
  destruct (savedColumns_complete _ Hfour) as (columns & -> & _).
  set (closed := closeModal _).
  destruct (renderTables (currentSchema closed) && updateSchemaTree (currentSchema closed))
    eqn:Hredraw.
  - intros _ _. split; [apply generateSQL_current|]. now split.
  - intros Htables Htree. rewrite Htables, Htree in Hredraw. discriminate.
Qed.



Lemma selectValue_listed (type : string) :
  selectValue type = if existsb (String.eqb type) dataTypes then type else "INTEGER".
Proof.
  unfold selectValue. destruct (find (String.eqb type) dataTypes) as [option|] eqn:Hfind.
  - destruct (find_some _ _ Hfind) as [Hin Heq]. apply String.eqb_eq in Heq. subst option.
    replace (existsb (String.eqb type) dataTypes) with true; [reflexivity|].
    symmetry. apply existsb_exists. exists type. split; [exact Hin | apply String.eqb_refl].
  - now rewrite (find_none_existsb _ _ _ Hfind).
Qed.

Lemma savedColumns_plain (columns : list Column.t) :
  savedColumns (map plainEditor columns)
  = (map (fun column =>
            Column.mk (orText (Column.name column) "unnamed_column")
                      (if existsb (String.eqb (Column.type column)) dataTypes
                       then Column.type column else "INTEGER")
                      (Column.primaryKey column) (Column.required column) false)
         columns, true).
Proof.
  induction columns as [|column rest IH]; [reflexivity|].
  cbn [map savedColumns]. rewrite IH. unfold plainEditor, savedColumn.
  cbn [value checked]. now rewrite selectValue_listed.
Qed.

(** X18.  Opening a table in the editor and saving it at once changes it,
    also when the browser builds for every column the plain editor its
    markup spells.  The select of a column offers only [dataTypes]; a
    column whose type is not in that list (the template's [VARCHAR(100)],
    say) shows the first option, so it is saved as [INTEGER], while a
    listed type is kept.  The saved columns also lose [unique]. *)
Theorem reopened_table_loses_types
        (renderColumnsEditor : list Column.t -> list ColumnEditor * bool)
        (inputValue : string -> string) (renderTables updateSchemaTree : Schema.t -> bool)
        (tableId : string) (d : State) (address : nat) :
  editingTable d = None ->
  editingTable (editTable renderColumnsEditor inputValue tableId d) = Some address ->
  (forall table, tableAt d address = Some table ->
     fst (renderColumnsEditor (Table.columns table))
     = map plainEditor (Table.columns table)) ->
  exists table,
    tableAt d address = Some table /\ Table.id table = tableId
    /\ tableAt (saveTable renderTables updateSchemaTree
                          (editTable renderColumnsEditor inputValue tableId d)) address
       = Some (Table.mk tableId (orText (inputValue (Table.name table)) "unnamed_table")
                 (map (fun column =>
                         Column.mk (orText (Column.name column) "unnamed_column")
                                   (if existsb (String.eqb (Column.type column)) dataTypes
                                    then Column.type column else "INTEGER")
                                   (Column.primaryKey column) (Column.required column)
                                   false)
                      (Table.columns table))).
Proof.
  intros Hclosed Hopened Hplain.
  assert (Hfound : exists table,
            tableAt d address = Some table /\ Table.id table = tableId
            /\ editingTable (editTable renderColumnsEditor inputValue tableId d)
               = Some address
            /\ objects (editTable renderColumnsEditor inputValue tableId d) = objects d
            /\ tableNameInput (editTable renderColumnsEditor inputValue tableId d)
               = inputValue (Table.name table)
            /\ columnEditors (editTable renderColumnsEditor inputValue tableId d)
               = fst (renderColumnsEditor (Table.columns table))).
  { unfold editTable in *.
    destruct (find _ (tables d)) as [found|] eqn:Hfind; [|congruence].
    destruct (tableAt d found) as [table|] eqn:Hat; [|congruence].
    destruct (renderColumnsEditor (Table.columns table)) as [editors returned] eqn:Hdrawn.
    cbn [editingTable] in Hopened. injection Hopened as <-.
    exists table. split; [exact Hat|].
    split; [|split; [reflexivity|split; [reflexivity|split; [reflexivity|]]]];
      [|now rewrite Hdrawn].
    destruct (find_some _ _ Hfind) as [_ Hid]. rewrite Hat in Hid.
    now apply String.eqb_eq in Hid. }
  destruct Hfound as (table & Hat & Hid & Hediting & Hobjects & Hinput & Heditors).
  exists table. split; [exact Hat|]. split; [exact Hid|].
  destruct (saveTable_written renderTables updateSchemaTree
              (editTable renderColumnsEditor inputValue tableId d) address table)
    as (Hsaved & _).
  - exact Hediting.
  - unfold tableAt in *. rewrite Hobjects. exact Hat.
  - rewrite Hsaved, Hinput, Heditors.
    rewrite (Hplain table Hat), savedColumns_plain, Hid. reflexivity.
Qed.

Lemma reopened_table_loses_types_witness :
  tableAt (saveTable redrawn redrawn
                     (editTable plainEditors sameText "users" templateState)) 0
  = Some (Table.mk "users" "users"
            [ Column.mk "id" "INTEGER" true true false;
              Column.mk "email" "VARCHAR(255)" false true false;
              Column.mk "first_name" "INTEGER" false false false ]).
Proof.
  destruct (reopened_table_loses_types plainEditors sameText redrawn redrawn
                                       "users" templateState 0)
    as (table & Hat & _ & Hsaved); [reflexivity | reflexivity | reflexivity |].
  rewrite Hsaved. injection Hat as <-. reflexivity.
Defined.

End EditorStore.

Section EditorPreview.
Import Designer Editor.
Local Open Scope list_scope.

Lemma length_append (a b : string) :
  String.length (a ++ b)%string = String.length a + String.length b.
Proof. induction a as [|c a IH]; cbn; [reflexivity | now rewrite IH]. Qed.

Lemma join_longer (sep last : string) (parts : list string) :
  0 < String.length last ->
  String.length (String.concat sep parts)
  < String.length (String.concat sep (parts ++ [last])).
Proof.
  intros Hlast. induction parts as [|first [|second rest] IH].
  - exact Hlast.
  - cbn. rewrite !length_append. lia.
  - change (String.concat sep (first :: second :: rest))
      with (first ++ sep ++ String.concat sep (second :: rest))%string.
    change (String.concat sep ((first :: second :: rest) ++ [last]))
      with (first ++ sep ++ String.concat sep ((second :: rest) ++ [last]))%string.
    rewrite !length_append. lia.
Qed.

Lemma createStatement_longer (id name : string) (columns : list Column.t) :
  String.length (createStatement (Table.mk id name columns))
  < String.length (createStatement (Table.mk id name (columns ++ [newColumn]))).
Proof.
  rewrite !createStatement_text. cbn [Table.name Table.columns].
  rewrite map_app. cbn [map]. rewrite !length_append.
  pose proof (join_longer ("," ++ JS.nl)%string (columnDefinition newColumn)
                          (map columnDefinition columns)) as Hjoin.
  unfold JS.join. cbn [String.length columnDefinition] in Hjoin |- *.
  assert (0 < String.length (columnDefinition newColumn)) by (cbn; lia).
  specialize (Hjoin H). lia.
Qed.

(** The size of the CREATE TABLE statements of the tables at some
    addresses of a store. *)
Lemma statements_longer (before after : list Table.t) (addresses : list nat)
      (address : nat) (old changed : Table.t) :
  nth_error before address = Some old -> nth_error after address = Some changed ->
  (forall other, other <> address -> nth_error after other = nth_error before other) ->
  String.length (createStatement old) < String.length (createStatement changed) ->
  let text store :=
    String.concat ""
      (map createStatement
           (flat_map (fun a => match nth_error store a with
                               | Some table => [table]
                               | None => []
                               end) addresses)) in
  String.length (text before) <= String.length (text after)
  /\ (In address addresses -> String.length (text before) < String.length (text after)).
Proof.
  intros Hold Hchanged Hothers Hlonger. cbn beta zeta.
  induction addresses as [|a addresses [IHle IHlt]];
    [split; [apply Nat.le_refl | contradiction]|].
  cbn [flat_map]. rewrite !map_app, !concat_empty_app, !length_append.
  destruct (Nat.eq_dec a address) as [->|Hne].
  - rewrite Hold, Hchanged. cbn [map]. rewrite !concat_empty_cons.
    cbn [String.concat]. rewrite !append_empty_r. split; [lia|]. intros _. lia.
  - rewrite (Hothers a Hne). split; [lia|].
    intros [Hin|Hin]; [contradiction|]. specialize (IHlt Hin). lia.
Qed.

(** X19.  [addColumn] writes into the table object of the schema itself, so
    closing the modal without saving does not take the column back: the
    table keeps [new_column VARCHAR(255)].  Neither step regenerates the
    SQL, so the preview still shows the text from before, which is shorter
    than the SQL of the schema as it now is. *)
Theorem cancel_keeps_added_column
        (renderColumnsEditor : list Column.t -> list ColumnEditor * bool)
        (d : State) (address : nat) (table : Table.t) :
  editingTable d = Some address -> tableAt d address = Some table ->
  In address (tables d) -> previewCurrent d = true ->
  let d' := closeModal (addColumn renderColumnsEditor d) in
  tableAt d' address
  = Some (Table.mk (Table.id table) (Table.name table)
                   (Table.columns table ++ [newColumn]))
  /\ editingTable d' = None
  /\ sqlOutput d' = sqlOutput d
  /\ String.length (sqlOutput d') < String.length (sqlText (currentSchema d'))
  /\ previewCurrent d' = false.
Proof.
  intros Hediting Hat Hin Hpreview. cbn zeta.
  unfold addColumn, writeColumns. rewrite Hediting, Hat.
  cbn [closeModal withEditors withObjects objects schemaId schemaName tables
       relationships editingTable sqlOutput tableNameInput columnEditors modalShown].
  set (changed := Table.mk (Table.id table) (Table.name table)
                           (Table.columns table ++ [newColumn])).
  set (d' := closeModal _).
  assert (Hchanged : tableAt d' address = Some changed)
    by exact (setAt_same _ _ _ _ Hat).
  assert (Hshorter : String.length (sqlOutput d)
                     < String.length (sqlText (currentSchema d'))).
  { unfold previewCurrent in Hpreview. apply String.eqb_eq in Hpreview.
    rewrite Hpreview, !sqlText_statements. unfold statements.
    rewrite !concat_empty_app, !length_append.
    cbn [currentSchema Schema.tables Schema.relationships].
    change (relationships d') with (relationships d).
    destruct (statements_longer (objects d) (objects d') (tables d) address
                                table changed) as [_ Hlt].
    - exact Hat.
    - exact Hchanged.
    - intros other Hother. exact (setAt_other _ _ _ _ Hother).
    - destruct table as [id name columns]. apply createStatement_longer.
    - specialize (Hlt Hin). unfold tablesOf, tableAt.
      change (tables d') with (tables d). lia. }
  split; [exact Hchanged|]. split; [reflexivity|]. split; [reflexivity|].
  split; [exact Hshorter|].
  unfold previewCurrent. apply String.eqb_neq. intros Hsame.
  change (sqlOutput d') with (sqlOutput d) in Hsame. rewrite Hsame in Hshorter.
  exact (Nat.lt_irrefl _ Hshorter).
Qed.

Lemma cancel_keeps_added_column_witness :
  previewCurrent
    (closeModal (addColumn plainEditors
                           (editTable plainEditors sameText "orders" templateState)))
  = false.
Proof.
  apply (cancel_keeps_added_column plainEditors
           (editTable plainEditors sameText "orders" templateState) 1 templateOrders).
  - reflexivity.
  - reflexivity.
  - right. left. reflexivity.
  - reflexivity.
Defined.

(** X20.  [saveTable] renames the table and nothing else: a relationship
    that names the table keeps the old name.  After a rename to a new name
    the schema holds a foreign key on a table name that no table of the
    schema has; and when the editors have their controls and the redrawing
    returns, so that the SQL is written anew, the SQL holds that foreign
    key. *)
Theorem rename_leaves_relationship_behind
        (renderTables updateSchemaTree : Schema.t -> bool)
        (d : State) (address : nat) (table : Table.t) (rel : Relationship.t) :
  editingTable d = Some address -> tableAt d address = Some table ->
  In rel (relationships d) ->
  Relationship.sourceTable rel = Table.name table ->
  tableNameInput d <> "" -> tableNameInput d <> Table.name table ->
  (forall other found, In other (tables d) -> other <> address ->
     tableAt d other = Some found -> Table.name found <> Table.name table) ->
  let d' := saveTable renderTables updateSchemaTree d in
  In rel (Schema.relationships (currentSchema d'))
  /\ In (alterStatement rel) (statements (currentSchema d'))
  /\ (forall found, In found (Schema.tables (currentSchema d')) ->
        Table.name found <> Relationship.sourceTable rel)
  /\ (forallb (fun editor => 4 <=? List.length editor)%nat (columnEditors d) = true ->
      renderTables (currentSchema d') = true ->
      updateSchemaTree (currentSchema d') = true ->
      sqlOutput d' = String.concat "" (statements (currentSchema d'))).
Proof.
  intros Hediting Hat Hrel Hsource Hfilled Hrenamed Hothers. cbn zeta.
  destruct (saveTable_written renderTables updateSchemaTree d address table
                              Hediting Hat) as (Hsaved & Hsame & Htables & Hrels & _).
  assert (Hleft : In rel (Schema.relationships
                            (currentSchema (saveTable renderTables updateSchemaTree d))))
    by (cbn [currentSchema Schema.relationships]; now rewrite Hrels).
  split; [exact Hleft|]. split; [|split].
  - unfold statements. apply in_or_app. right. now apply in_map.
  - intros found Hfound. cbn [currentSchema Schema.tables] in Hfound.
    apply tablesOf_in in Hfound. destruct Hfound as (other & Hin & Hother).
    rewrite Htables in Hin. rewrite Hsource.
    destruct (Nat.eq_dec other address) as [->|Hne].
    + rewrite Hsaved in Hother. injection Hother as <-.
      cbn [Table.name]. unfold orText.
      destruct (String.eqb_spec (tableNameInput d) ""); [contradiction | exact Hrenamed].
    + rewrite (Hsame other Hne) in Hother. exact (Hothers other found Hin Hne Hother).
  - intros Hfour Hrendered Htree.
    destruct (saveTable_current renderTables updateSchemaTree d address table
                                Hediting Hat Hfour Hrendered Htree) as (Hpreview & _).
    unfold previewCurrent in Hpreview. apply String.eqb_eq in Hpreview.
    rewrite Hpreview. apply sqlText_statements.
Qed.

Lemma rename_leaves_relationship_behind_witness :
  In (alterStatement templateRelationship)
     (statements (currentSchema (saveTable redrawn redrawn renamingState)))
  /\ forallb (fun found => negb (Table.name found =? "users"))
             (Schema.tables (currentSchema (saveTable redrawn redrawn renamingState)))
     = true
  /\ JS.includes (sqlOutput (saveTable redrawn redrawn renamingState))
                 "REFERENCES users(id)" = true.
Proof.
  destruct (rename_leaves_relationship_behind redrawn redrawn renamingState 0
              templateUsers templateRelationship) as (_ & Hin & Hnone & Hsql).
  - reflexivity.
  - reflexivity.
  - left. reflexivity.
  - reflexivity.
  - discriminate.
  - discriminate.
  - intros other found [<-|[<-|[]]] Hne; [contradiction|].
    intros [= <-]. discriminate.
  - split; [exact Hin|]. split.
    + apply forallb_forall. intros found Hfound.
      apply negb_true_iff, String.eqb_neq. exact (Hnone found Hfound).
    + rewrite Hsql by reflexivity. vm_compute. reflexivity.
Defined.

End EditorPreview.

(** ** Route parameters *)
Section ParamValidationFacts.
Import ParamValidation.
Local Open Scope list_scope.

(** X21.  The handler of POST /analyze never runs.  The route path has no
    [:schemaId] segment, so [validateUUID('schemaId')] reads [undefined],
    which [required()] refuses: whoever passes [authenticate] is answered
    400 INVALID_UUID, whatever the request carries.  On
    GET /suggestions/:schemaId the same middleware lets a request with a
    well-formed id through to the handler. *)
Theorem analyze_never_runs_handler (isUuid : string -> bool) (Request Response : Type)
        (authenticate : Request -> option Response) (handler : Request -> Response)
        (answer : Outcome -> Response) (req : Request) :
  analyze isUuid Request Response authenticate handler answer req
  = match authenticate req with
    | Some refused => refused
    | None => answer (Answer 400 "INVALID_UUID" "Invalid schemaId format" [])
    end
  /\ (forall schemaId,
        authenticate req = None -> isUuid schemaId = true ->
        suggestions isUuid Request Response authenticate handler answer schemaId req
        = handler req).
Proof.
  split.
  - unfold analyze. now destruct (authenticate req).
  - intros schemaId Hpass Hid. unfold suggestions, validateUUID. rewrite Hpass.
    cbn [lookup]. rewrite String.eqb_refl. cbn [uuidError]. now rewrite Hid.
Qed.

Lemma errors_of_invalid (isUuid : string -> bool) (paramNames : list string)
      (params : Params) :
  flat_map (fun paramName =>
              if uuidError isUuid (lookup paramName params)
              then [("Invalid " ++ paramName ++ " format")%string]
              else [])
           paramNames
  = map (fun paramName => ("Invalid " ++ paramName ++ " format")%string)
        (filter (fun paramName => uuidError isUuid (lookup paramName params)) paramNames).
Proof.
  induction paramNames as [|name rest IH]; [reflexivity|]. cbn [flat_map filter].
  destruct (uuidError isUuid (lookup name params)); cbn [app map]; now rewrite IH.
Qed.

(** X22.  [validateUUIDs] reports every parameter that is not a UUID, once
    and in the order of its arguments, and it calls [next()] exactly when
    all of them are UUIDs; a parameter the route path does not have counts
    as not a UUID. *)
Theorem validateUUIDs_reports_each (isUuid : string -> bool) (paramNames : list string)
        (params : Params) :
  let invalid :=
    filter (fun paramName => uuidError isUuid (lookup paramName params)) paramNames in
  (validateUUIDs isUuid paramNames params = Next
   <-> forall paramName, In paramName paramNames ->
         exists text, lookup paramName params = Some text /\ isUuid text = true)
  /\ (invalid <> [] ->
      validateUUIDs isUuid paramNames params
      = Answer 400 "INVALID_PARAMETERS" "Invalid parameter format"
               (map (fun paramName => ("Invalid " ++ paramName ++ " format")%string)
                    invalid)).
Proof.
  cbn zeta. unfold validateUUIDs. rewrite errors_of_invalid, length_map.
  set (invalid := filter _ paramNames).
  assert (Hnone : invalid = [] <->
            forall paramName, In paramName paramNames ->
              exists text, lookup paramName params = Some text /\ isUuid text = true).
  { split.
    - intros Hempty name Hin.
      destruct (uuidError isUuid (lookup name params)) eqn:Herror.
      + assert (Hbad : In name invalid) by (apply filter_In; now split).
        rewrite Hempty in Hbad. contradiction.
      + unfold uuidError in Herror. destruct (lookup name params) as [text|];
          [|discriminate]. exists text. split; [reflexivity|].
        now apply negb_false_iff in Herror.
    - intros Hall. apply filter_nothing. intros name Hin.
      destruct (Hall name Hin) as (text & -> & Hid). cbn. now rewrite Hid. }
  split.
  - rewrite <- Hnone. destruct invalid; cbn; split; try discriminate; reflexivity.
  - intros Hsome. destruct invalid; [contradiction | reflexivity].
Qed.

End ParamValidationFacts.

(** ** The schema analysis of the AI routes *)
Section AiFacts.
Import ZArith.
Import Db Ai.
Local Open Scope list_scope.

(** X23.  The score [analyzeSchema] gives is 100 less 20 when some table
    has no primary key, less 5 when some table name has a [length] above
    30, less 15 when there are several tables and no relationship:
    it lies between 60 and 100, so [Math.max(0, score)] never changes it,
    and it is 100 exactly when there is no issue.  Tables without a primary
    key get one issue each, but the 20 points are taken once. *)
Theorem analyzeSchema_score (tables : list TableRow.t) (columns : list ColumnRow.t)
        (relationships : list RelationshipRow.t) :
  let analysis := analyzeSchema tables columns relationships in
  (60 <= score analysis <= 100)%Z
  /\ (score analysis = 100%Z <-> issues analysis = [])
  /\ List.length (issues analysis)
     = List.length (tablesWithoutPK tables columns)
       + (if (0 <? List.length (longNameTables tables))%nat then 1 else 0)
       + (if (1 <? List.length tables)%nat && (List.length relationships =? 0)%nat
          then 1 else 0)
  /\ (score analysis
      = 100 - (if (0 <? List.length (tablesWithoutPK tables columns))%nat then 20 else 0)
            - (if (0 <? List.length (longNameTables tables))%nat then 5 else 0)
            - (if (1 <? List.length tables)%nat && (List.length relationships =? 0)%nat
               then 15 else 0))%Z.
Proof.
  cbn zeta. unfold analyzeSchema.
  destruct (tablesWithoutPK tables columns) as [|bare others];
    destruct (0 <? List.length (longNameTables tables))%nat;
    destruct ((1 <? List.length tables)%nat && (List.length relationships =? 0)%nat);
    cbn [List.length Nat.ltb Nat.leb score issues app map];
    rewrite ?length_app, ?length_map; cbn [List.length];
    (split; [lia|]); (split; [split; [try discriminate; try reflexivity
                                     | try reflexivity; intros Hnone;
                                       try discriminate Hnone;
                                       try (apply app_eq_nil in Hnone;
                                            destruct Hnone; discriminate)]|]);
    (split; [lia | reflexivity]).
Qed.

End AiFacts.

(** ** The store: adding and removing *)
Section StoreRoundTrips.
Import Store StoreActions.
Local Open Scope list_scope.

(** X24.  In the store, removing a table right after it was added is the
    same as removing its id from the state before, and it gives that state
    back when the id was new to it: no table had it, no relationship named
    it, and it was neither selected nor being edited.  The same holds for
    a relationship added and removed by its id. *)
Theorem store_add_then_remove (state : State) :
  (forall table,
     removeTable (table_id table) (addTable table state)
     = removeTable (table_id table) state)
  /\ (forall table schema,
        currentSchema state = Some schema ->
        (forall other, In other (tables schema) -> table_id other <> table_id table) ->
        (forall r, In r (relationships schema) ->
                   sourceTableId r <> table_id table /\ targetTableId r <> table_id table) ->
        hasId (selectedTable state) (table_id table) = false ->
        hasId (editingTable state) (table_id table) = false ->
        removeTable (table_id table) (addTable table state) = state)
  /\ (forall relationship schema,
        currentSchema state = Some schema ->
        (forall other, In other (relationships schema) ->
                       relationship_id other <> relationship_id relationship) ->
        removeRelationship (relationship_id relationship)
                           (addRelationship relationship state) = state).
Proof.
  assert (Hadd : forall table,
            removeTable (table_id table) (addTable table state)
            = removeTable (table_id table) state).
  { intros table. unfold removeTable, addTable, onSchema.
    cbn [currentSchema selectedTable editingTable]. f_equal.
    destruct (currentSchema state) as [schema|]; [|reflexivity].
    cbn [option_map schema_id tables relationships]. f_equal. f_equal.
    rewrite filter_app. cbn [filter]. rewrite String.eqb_refl. cbn [negb].
    apply app_nil_r. }
  split; [exact Hadd|]. split.
  - intros table schema Hschema Htables Hrels Hselected Hediting.
    rewrite Hadd. unfold removeTable. rewrite Hschema, Hselected, Hediting.
    rewrite (filter_everything _ _ (tables schema)).
    2:{ intros other Hin. apply negb_true_iff, String.eqb_neq. now apply Htables. }
    rewrite (filter_everything _ _ (relationships schema)).
    2:{ intros r Hin. destruct (Hrels r Hin) as [Hs Ht].
        apply andb_true_iff. split; apply negb_true_iff, String.eqb_neq; assumption. }
    destruct state as [current selected editing]. cbn in *. subst current.
    now destruct schema.
  - intros relationship schema Hschema Hrels.
    unfold removeRelationship, addRelationship, onSchema.
    cbn [currentSchema selectedTable editingTable]. rewrite Hschema.
    cbn [option_map schema_id tables relationships].
    rewrite filter_app. cbn [filter]. rewrite String.eqb_refl. cbn [negb].
    rewrite app_nil_r, (filter_everything _ _ (relationships schema)).
    2:{ intros other Hin. apply negb_true_iff, String.eqb_neq. now apply Hrels. }
    destruct state as [current selected editing]. cbn in *. subst current.
    now destruct schema.
Qed.

End StoreRoundTrips.

(** ** What the SQL route hands to the generator *)
Section SqlRouteData.
Import Db Integrity SqlRoute.
Local Open Scope list_scope.

Lemma orderBy_permutation (Row : Type) (before : Row -> Row -> bool) (rows : list Row) :
  Permutation (orderBy before rows) rows.
Proof.
  assert (Hinsert : forall row sorted,
            Permutation (insertSorted before row sorted) (row :: sorted)).
  { intros row sorted. induction sorted as [|next sorted IH]; cbn; [reflexivity|].
    destruct (before row next); [reflexivity|].
    rewrite IH. apply perm_swap. }
  induction rows as [|row rows IH]; cbn; [reflexivity|].
  rewrite Hinsert. now apply perm_skip.
Qed.

Lemma filter_permutation (Row : Type) (keep : Row -> bool) (rows rows' : list Row) :
  Permutation rows rows' -> Permutation (filter keep rows) (filter keep rows').
Proof.
  induction 1 as [|row rows rows' _ IH|first second rows|rows mid rows' _ IH1 _ IH2];
    cbn.
  - reflexivity.
  - destruct (keep row); [now apply perm_skip | exact IH].
  - destruct (keep first), (keep second); try reflexivity. apply perm_swap.
  - now rewrite IH1.
Qed.

Lemma existsb_find (Row : Type) (test : Row -> bool) (rows : list Row) :
  existsb test rows = true -> exists row, find test rows = Some row.
Proof.
  induction rows as [|row rows IH]; cbn; [discriminate|].
  destruct (test row); [now exists row | exact IH].
Qed.

Lemma filter_filter_in_schema (schemaId : string) (db : Db.t) (table : TableRow.t) :
  In table (tables db) -> TableRow.schema_id table = schemaId ->
  filter (fun c => ColumnRow.table_id c =? TableRow.id table)
         (filter (fun c => existsb (fun r => textEq (TableRow.id r) (ColumnRow.table_id c)
                                             && textEq (TableRow.schema_id r) schemaId)
                                   (tables db))
                 (columns db))
  = filter (fun c => ColumnRow.table_id c =? TableRow.id table) (columns db).
Proof.
  intros Hin Hschema. induction (columns db) as [|c rest IH]; [reflexivity|].
  cbn [filter].
  destruct (String.eqb_spec (ColumnRow.table_id c) (TableRow.id table)) as [Heq|Hne].
  - replace (existsb _ (tables db)) with true.
    + cbn [filter]. rewrite Heq, String.eqb_refl. now rewrite IH.
    + symmetry. apply existsb_exists. exists table. split; [exact Hin|].
      unfold textEq. now rewrite Heq, Hschema, !String.eqb_refl.
  - destruct (existsb _ (tables db)); [|exact IH].
    cbn [filter]. apply String.eqb_neq in Hne. now rewrite Hne.
Qed.

(** X25.  GET /:schemaId/sql hands the whole schema to the generator: every
    table of the schema once (sorted by name), each with exactly the columns
    stored for it, and, in a database whose foreign keys hold, every
    relationship of the schema once, in stored order, with its ON DELETE
    and ON UPDATE actions: the four joins of the query drop no row. *)
Theorem sql_route_hands_over_schema (schemaId : string) (db : Db.t) :
  foreignKeysHold db = true ->
  Permutation (map TableData.name
                   (tablesData (selectTables schemaId db) (selectColumns schemaId db)))
              (map TableRow.name
                   (filter (fun r => textEq (TableRow.schema_id r) schemaId) (tables db)))
  /\ (forall table, In table (tables db) -> TableRow.schema_id table = schemaId ->
        Permutation (tableColumns (selectColumns schemaId db) (TableRow.id table))
                    (map columnData
                         (filter (fun c => ColumnRow.table_id c =? TableRow.id table)
                                 (columns db))))
  /\ Forall2 (fun row data =>
                RelationshipData.name data = RelationshipRow.name row
                /\ RelationshipData.onDelete data = RelationshipRow.on_delete row
                /\ RelationshipData.onUpdate data = RelationshipRow.on_update row)
             (filter (fun r => textEq (RelationshipRow.schema_id r) schemaId)
                     (relationships db))
             (relationshipsData schemaId db).
Proof.
  intros Hfk. split; [|split].
  - unfold tablesData, selectTables. rewrite map_map. cbn [TableData.name].
    apply Permutation_map, orderBy_permutation.
  - intros table Hin Hschema. unfold tableColumns, selectColumns.
    apply Permutation_map.
    rewrite (filter_permutation _ _ _ _ (orderBy_permutation _ _ _)).
    rewrite filter_filter_in_schema; [reflexivity | exact Hin | exact Hschema].
  - apply foreignKeysHold_spec in Hfk. destruct Hfk as (_ & _ & Hrels).
    unfold relationshipsData.
    assert (Hsub : forall row,
              In row (filter (fun r => textEq (RelationshipRow.schema_id r) schemaId)
                             (relationships db)) -> In row (relationships db)).
    { intros row Hrow. now apply filter_In in Hrow. }
    induction (filter _ (relationships db)) as [|row rows IH]; [constructor|].
    cbn [flat_map]. specialize (Hrels row (Hsub row (or_introl eq_refl))).
    unfold relationshipEndsExist, tableExists, columnExists in Hrels.
    rewrite !andb_true_iff in Hrels.
    destruct Hrels as ((((_ & Hst) & Hsc) & Htt) & Htc).
    unfold relationshipData.
    destruct (existsb_find _ _ _ Hst) as (st & ->).
    destruct (existsb_find _ _ _ Hsc) as (sc & ->).
    destruct (existsb_find _ _ _ Htt) as (tt' & ->).
    destruct (existsb_find _ _ _ Htc) as (tc & ->).
    cbn [app]. constructor; [now cbn|].
    apply IH. intros other Hother. apply Hsub. now right.
Qed.

Lemma sql_route_hands_over_schema_witness :
  Forall2 (fun row data =>
             RelationshipData.name data = RelationshipRow.name row
             /\ RelationshipData.onDelete data = RelationshipRow.on_delete row
             /\ RelationshipData.onUpdate data = RelationshipRow.on_update row)
          (filter (fun r => textEq (RelationshipRow.schema_id r) "schema-2")
                  (relationships Samples.cycleDb))
          (relationshipsData "schema-2" Samples.cycleDb).
Proof.
  apply (sql_route_hands_over_schema "schema-2" Samples.cycleDb). reflexivity.
Defined.

End SqlRouteData.

(** ** The table routes: what a request cannot touch *)
Section RouteFrames.
Import Db Integrity.
Local Open Scope list_scope.

Lemma changed_rows_keep (tableId : string) (change : TableRow.t -> TableRow.t)
      (rows : list TableRow.t) :
  (forall r, TableRow.id (change r) = TableRow.id r) ->
  (forall r, TableRow.schema_id (change r) = TableRow.schema_id r) ->
  let changed r := if textEq (TableRow.id r) tableId then change r else r in
  map TableRow.id (map changed rows) = map TableRow.id rows
  /\ map TableRow.schema_id (map changed rows) = map TableRow.schema_id rows
  /\ filter (fun r => negb (textEq (TableRow.id r) tableId)) (map changed rows)
     = filter (fun r => negb (textEq (TableRow.id r) tableId)) rows.
Proof.
  intros Hid Hschema. cbn zeta. induction rows as [|r rows (IH1 & IH2 & IH3)];
    [now split|]. cbn [map filter].
  destruct (textEq (TableRow.id r) tableId) eqn:Hr.
  - rewrite Hid, Hschema, Hr, IH1, IH2. cbn [negb]. now split.
  - rewrite Hr, IH1, IH2, IH3. cbn [negb]. now split.
Qed.

(** X26.  PUT /:schemaId/tables/:tableId rewrites one table row.  An
    UPDATE of [tables] by id, whatever it sets of the name, the description,
    the two coordinates and the colour, keeps the ids and the schemas of the
    tables in their order, every row with another id, and all columns and
    relationships.  So it is with the handler, whatever keys its
    [updateData] has and whatever it answers; and when the answer is not 200
    the database is the one before.  (On 200 the handler also writes
    [updated_at] of the schema row, a column outside [Db.SchemaRow]; nothing
    is said of the schema rows then.) *)
Theorem update_table_frame (schemaId tableId : string) (updateData : Routes.UpdateData)
        (db : Db.t) :
  (forall change db',
     (forall r, TableRow.id (change r) = TableRow.id r) ->
     (forall r, TableRow.schema_id (change r) = TableRow.schema_id r) ->
     Db.updateTable tableId change db = Some db' ->
     map TableRow.id (tables db') = map TableRow.id (tables db)
     /\ map TableRow.schema_id (tables db') = map TableRow.schema_id (tables db)
     /\ filter (fun r => negb (textEq (TableRow.id r) tableId)) (tables db')
        = filter (fun r => negb (textEq (TableRow.id r) tableId)) (tables db)
     /\ columns db' = columns db /\ relationships db' = relationships db)
  /\ (let '(answer, db') := Routes.updateTableWith schemaId tableId updateData db in
      (answer <> Routes.Updated -> db' = db)
      /\ map TableRow.id (tables db') = map TableRow.id (tables db)
      /\ map TableRow.schema_id (tables db') = map TableRow.schema_id (tables db)
      /\ filter (fun r => negb (textEq (TableRow.id r) tableId)) (tables db')
         = filter (fun r => negb (textEq (TableRow.id r) tableId)) (tables db)
      /\ columns db' = columns db /\ relationships db' = relationships db).
Proof.
  assert (Hupdate : forall change db',
            (forall r, TableRow.id (change r) = TableRow.id r) ->
            (forall r, TableRow.schema_id (change r) = TableRow.schema_id r) ->
            Db.updateTable tableId change db = Some db' ->
            map TableRow.id (tables db') = map TableRow.id (tables db)
            /\ map TableRow.schema_id (tables db') = map TableRow.schema_id (tables db)
            /\ filter (fun r => negb (textEq (TableRow.id r) tableId)) (tables db')
               = filter (fun r => negb (textEq (TableRow.id r) tableId)) (tables db)
            /\ columns db' = columns db /\ relationships db' = relationships db).
  { intros change db' Hid Hschema. unfold Db.updateTable.
    destruct (forallb _ (tables db)); [|discriminate].
    intros [= <-]. cbn [schemas tables columns relationships].
    destruct (changed_rows_keep tableId change (tables db) Hid Hschema)
      as (H1 & H2 & H3).
    split; [exact H1|]. split; [exact H2|]. split; [exact H3|]. now split. }
  split; [exact Hupdate|].
  assert (Hsame : forall answer : Routes.TableResponse,
            (answer <> Routes.Updated -> db = db)
            /\ map TableRow.id (tables db) = map TableRow.id (tables db)
            /\ map TableRow.schema_id (tables db) = map TableRow.schema_id (tables db)
            /\ filter (fun r => negb (textEq (TableRow.id r) tableId)) (tables db)
               = filter (fun r => negb (textEq (TableRow.id r) tableId)) (tables db)
            /\ columns db = columns db /\ relationships db = relationships db).
  { intros answer. split; [reflexivity|]. split; [reflexivity|]. split; [reflexivity|].
    split; [reflexivity|]. split; reflexivity. }
  unfold Routes.updateTableWith.
  destruct (selectTableInSchema tableId schemaId db); [|exact (Hsame Routes.NotFound)].
  destruct (Routes.noKeys updateData); [exact (Hsame Routes.ValidationError)|].
  destruct (Db.updateTable tableId (Routes.setFields updateData) db) as [db'|] eqn:Hdone;
    [|exact (Hsame Routes.InternalServerError)].
  split; [intros Hanswer; now contradiction Hanswer|].
  apply (Hupdate (Routes.setFields updateData) db'); [reflexivity | reflexivity | exact Hdone].
Qed.

Lemma same_id_same_row (rows : list TableRow.t) (a b : TableRow.t) :
  NoDup (map TableRow.id rows) -> In a rows -> In b rows ->
  TableRow.id a = TableRow.id b -> a = b.
Proof.
  induction rows as [|r rows IH]; [contradiction|].
  cbn [map]. intros Hdistinct Ha Hb Hid. inversion Hdistinct as [|? ? Hfresh Hrest]; subst.
  destruct Ha as [->|Ha], Hb as [->|Hb]; try reflexivity.
  - exfalso. apply Hfresh. rewrite Hid. now apply in_map.
  - exfalso. apply Hfresh. rewrite <- Hid. now apply in_map.
  - now apply IH.
Qed.

(** X27.  A table is reached only through its own schema.  With table ids
    unique, as PRIMARY KEY (id) keeps them, a PUT or DELETE that names the
    table under another schema's id is answered 404 and changes nothing. *)
Theorem other_schema_table_not_found (schemaId tableId : string)
        (body : Routes.TableBody) (db : Db.t) (table : TableRow.t) :
  NoDup (map TableRow.id (tables db)) ->
  In table (tables db) -> TableRow.id table = tableId ->
  TableRow.schema_id table <> schemaId ->
  Routes.deleteTable schemaId tableId db = (Routes.NotFound, db)
  /\ Routes.updateTable schemaId tableId body db = (Routes.NotFound, db).
Proof.
  intros Hdistinct Hin Hid Hschema.
  assert (Hnone : selectTableInSchema tableId schemaId db = None).
  { unfold selectTableInSchema.
    destruct (find _ (tables db)) as [found|] eqn:Hfind; [|reflexivity].
    destruct (find_some _ _ Hfind) as [Hfound Hboth].
    apply andb_true_iff in Hboth. destruct Hboth as [Hfid Hfschema].
    unfold textEq in *. apply String.eqb_eq in Hfid, Hfschema.
    assert (found = table)
      by (apply (same_id_same_row (tables db)); try assumption; congruence).
    subst found. contradiction. }
  unfold Routes.deleteTable. rewrite updateTable_body, Hnone. now split.
Qed.

Lemma other_schema_table_not_found_witness :
  Routes.deleteTable "schema-2" "t-users" Samples.shopDb
  = (Routes.NotFound, Samples.shopDb)
  /\ Routes.updateTable "schema-2" "t-users"
       (Routes.mkTableBody (Some "people") None None None) Samples.shopDb
     = (Routes.NotFound, Samples.shopDb).
Proof.
  apply (other_schema_table_not_found "schema-2" "t-users" _ Samples.shopDb
           (TableRow.mk "t-users" "schema-1" "users" "" 0 0 "#ffffff")).
  - repeat constructor; cbn; intuition discriminate.
  - left. reflexivity.
  - reflexivity.
  - discriminate.
Defined.

End RouteFrames.

(** ** Table deletion in the store and through the API *)
Section DeletionsElsewhere.
Import Db.

(** X28.  [removeTable] of the store names tables by id, as the
    relationships of the store do: it removes the table with the id given
    and the relationships whose [sourceTableId] or [targetTableId] is that
    id, and keeps every other relationship.  A schema whose relationships
    all name tables it holds is such a schema afterwards. *)
Theorem store_removeTable_relationships (tableId : string) (state : Store.State)
        (schema : Store.Schema) :
  Store.currentSchema state = Some schema ->
  exists schema',
    Store.currentSchema (Store.removeTable tableId state) = Some schema'
    /\ (forall table, In table (Store.tables schema') <->
          In table (Store.tables schema) /\ Store.table_id table <> tableId)
    /\ (forall r, In r (Store.relationships schema') <->
          In r (Store.relationships schema)
          /\ Store.sourceTableId r <> tableId /\ Store.targetTableId r <> tableId)
    /\ (Store.noDanglingRelationship schema = true ->
        Store.noDanglingRelationship schema' = true).
Proof.
  intros Hschema. eexists. split; [exact (removeTable_schema tableId state schema Hschema)|].
  cbn [Store.tables Store.relationships]. split; [|split].
  - intros table. rewrite filter_In, negb_true_iff, String.eqb_neq. tauto.
  - intros r. rewrite filter_In, andb_true_iff, !negb_true_iff, !String.eqb_neq. tauto.
  - apply removeTable_keeps_consistency.
Qed.

Lemma store_removeTable_relationships_witness :
  exists schema',
    Store.currentSchema (Store.removeTable "t-users" Samples.shopStore) = Some schema'
    /\ Store.relationships schema' = []
    /\ Store.noDanglingRelationship schema' = true.
Proof.
  destruct (store_removeTable_relationships "t-users" Samples.shopStore
              (Store.mkSchema "schema-1"
                 [Store.mkTable "t-users" "users"; Store.mkTable "t-orders" "orders"]
                 [Store.mkRelationship "r1" "t-users" "c-users-id" "t-orders"
                                       "c-orders-user"]))
    as (schema' & Hafter & _ & _ & Hkept); [reflexivity|].
  exists schema'. split; [exact Hafter|]. split.
  - injection Hafter as <-. reflexivity.
  - apply Hkept. reflexivity.
Defined.

Lemma selectTableInSchema_finds (schemaId tableId : string) (db : Db.t)
      (row : TableRow.t) :
  In row (tables db) -> TableRow.id row = tableId -> TableRow.schema_id row = schemaId ->
  selectTableInSchema tableId schemaId db <> None.
Proof.
  intros Hin Hid Hschema Hnone. unfold selectTableInSchema in Hnone.
  pose proof (find_none _ _ Hnone row Hin) as Hrow. cbn beta in Hrow.
  unfold textEq in Hrow. rewrite Hid, Hschema, !String.eqb_refl in Hrow. discriminate.
Qed.

(** X29.  The DELETE route of a table that is in the schema answers that
    the table is deleted, and with the foreign keys of the database on, the
    relationship rows that name the table go with it: afterwards the table
    is not there, no relationship row names it as source or target, and a
    relationship row that names neither the table nor one of its columns is
    still there.  When every relationship row named tables that exist
    before, every one does afterwards. *)
Theorem delete_table_route_relationships (schemaId tableId : string) (db : Db.t)
        (row : TableRow.t) :
  In row (tables db) -> TableRow.id row = tableId -> TableRow.schema_id row = schemaId ->
  let '(answer, db') := Routes.deleteTable schemaId tableId db in
  answer = Routes.Deleted
  /\ tableExists db' tableId = false
  /\ (forall r, In r (relationships db') ->
        In r (relationships db)
        /\ RelationshipRow.source_table_id r <> tableId
        /\ RelationshipRow.target_table_id r <> tableId)
  /\ (forall r, In r (relationships db) ->
        RelationshipRow.source_table_id r <> tableId ->
        RelationshipRow.target_table_id r <> tableId ->
        (forall column, In column (columns db) -> ColumnRow.table_id column = tableId ->
           ColumnRow.id column <> RelationshipRow.source_column_id r
           /\ ColumnRow.id column <> RelationshipRow.target_column_id r) ->
        In r (relationships db'))
  /\ (noDanglingRelationship db = true -> noDanglingRelationship db' = true).
Proof.
  intros Hin Hid Hschema.
  pose proof (selectTableInSchema_finds schemaId tableId db row Hin Hid Hschema) as Hfound.
  unfold Routes.deleteTable.
  destruct (selectTableInSchema tableId schemaId db) as [found|]; [clear Hfound|contradiction].
  split; [reflexivity|]. split; [apply db_delete_table_gone|].
  split; [intros r; apply db_delete_no_reference|].
  split; [|apply db_delete_keeps_consistency].
  intros r Hr Hsource Htarget Hcolumns.
  unfold Db.deleteTable, textEq. cbn [relationships].
  apply filter_In. split; [exact Hr|].
  assert (Hnone : forall cid,
            (forall column, In column (columns db) ->
               ColumnRow.table_id column = tableId -> ColumnRow.id column <> cid) ->
            existsb (fun c => (ColumnRow.table_id c =? tableId) && (ColumnRow.id c =? cid))
                    (columns db) = false).
  { intros cid Hcid. apply not_true_iff_false. intros Hsome.
    apply existsb_exists in Hsome. destruct Hsome as (column & Hcolumn & Hboth).
    apply andb_true_iff in Hboth. destruct Hboth as [Htable Hsame].
    apply String.eqb_eq in Htable, Hsame. exact (Hcid column Hcolumn Htable Hsame). }
  rewrite !andb_true_iff, !negb_true_iff.
  split; [split; [split|]|].
  - now apply String.eqb_neq.
  - now apply String.eqb_neq.
  - apply Hnone. intros column Hcolumn Htable. now apply Hcolumns.
  - apply Hnone. intros column Hcolumn Htable. now apply Hcolumns.
Qed.

Lemma delete_table_route_relationships_witness :
  In Samples.userOrdersRow (relationships Samples.shopDb)
  /\ fst (Routes.deleteTable "schema-1" "t-users" Samples.shopDb) = Routes.Deleted
  /\ relationships (snd (Routes.deleteTable "schema-1" "t-users" Samples.shopDb)) = []
  /\ noDanglingRelationship (snd (Routes.deleteTable "schema-1" "t-users" Samples.shopDb))
     = true.
Proof.
  pose proof (delete_table_route_relationships "schema-1" "t-users" Samples.shopDb
                (TableRow.mk "t-users" "schema-1" "users" "" 0 0 "#ffffff")) as Hdelete.
  destruct (Routes.deleteTable "schema-1" "t-users" Samples.shopDb) as [answer db'] eqn:Hrun.
  destruct Hdelete as (Hanswer & _ & _ & _ & Hkept);
    [left; reflexivity | reflexivity | reflexivity |].
  split; [left; reflexivity|]. split; [exact Hanswer|]. split.
  - injection Hrun as _ <-. reflexivity.
  - apply Hkept. reflexivity.
Defined.

End DeletionsElsewhere.
